(** * mensabot: the command dispatcher, the order ledger and the menu
      extraction of [main.go], embedded in Rocq.

    Go strings are byte sequences; they are modelled by [string] (a sequence
    of [ascii] bytes).  The functions of Go's [strings] package that the
    program calls are written out in [Module Strings]; the regular
    expressions of the program are values of a small regular-expression
    type, run by a backtracking matcher over the UTF-8 code points of the
    text ([Module Regexp]). *)

From Stdlib Require Import Ascii String.
From stdpp Require Import base option list gmap strings.

Local Open Scope string_scope.
Local Open Scope list_scope.
Local Open Scope nat_scope.

(** ** Bytes *)

Definition LF : ascii := "010"%char.
Definition TAB : ascii := "009"%char.
Definition SP : ascii := " "%char.

(** The one-byte string holding a line feed (Go's ["\n"]). *)
Definition nl : string := String LF "".

Definition byte_in (lo hi : N) (c : ascii) : bool :=
  ((lo <=? N_of_ascii c) && (N_of_ascii c <=? hi))%N.

Definition is_upper (c : ascii) : bool := byte_in 65 90 c.
Definition is_lower (c : ascii) : bool := byte_in 97 122 c.
Definition is_digit (c : ascii) : bool := byte_in 48 57 c.

(** [utf8.RuneSelf = 0x80]: bytes below it are the one-byte code points. *)
Definition below_RuneSelf (c : ascii) : bool := (N_of_ascii c <? 128)%N.

Definition lower_byte (c : ascii) : ascii :=
  if is_upper c then ascii_of_N (N_of_ascii c + 32) else c.

Definition upper_byte (c : ascii) : ascii :=
  if is_lower c then ascii_of_N (N_of_ascii c - 32) else c.

(** ** Go's [strings] package, as far as [main.go] calls it *)

Module Strings.

Fixpoint HasPrefix (s prefix : string) {struct prefix} : bool :=
  match prefix, s with
  | "", _ => true
  | String p prefix', String c s' => Ascii.eqb c p && HasPrefix s' prefix'
  | String _ _, "" => false
  end.

(** [strings.Contains(s, substr)]: some suffix of [s] starts with
    [substr]. *)
Fixpoint Contains (s substr : string) : bool :=
  HasPrefix s substr ||
  match s with
  | "" => false
  | String _ s' => Contains s' substr
  end.

Fixpoint ContainsByte (s : string) (c : ascii) : bool :=
  match s with
  | "" => false
  | String x s' => Ascii.eqb x c || ContainsByte s' c
  end.

(** [strings.Replace(s, old, new, -1)] for a non-empty [old] (the program
    never passes an empty one): the occurrences of [old] are found from
    left to right and do not overlap.  [skip] counts the bytes of a found
    occurrence that are still to be dropped. *)
Fixpoint Replace_go (skip : nat) (s old new : string) : string :=
  match s with
  | "" => ""
  | String c s' =>
      match skip with
      | S k => Replace_go k s' old new
      | O =>
          if HasPrefix s old
          then new +:+ Replace_go (String.length old - 1) s' old new
          else String c (Replace_go 0 s' old new)
      end
  end.

Definition Replace (s old new : string) : string := Replace_go 0 s old new.

Fixpoint TrimLeft (s cutset : string) : string :=
  match s with
  | "" => ""
  | String c s' => if ContainsByte cutset c then TrimLeft s' cutset else s
  end.

Fixpoint TrimRight (s cutset : string) : string :=
  match s with
  | "" => ""
  | String c s' =>
      match TrimRight s' cutset with
      | "" => if ContainsByte cutset c then "" else String c ""
      | r => String c r
      end
  end.

(** [strings.Trim(s, cutset)] for a [cutset] of one-byte code points. *)
Definition Trim (s cutset : string) : string :=
  TrimRight (TrimLeft s cutset) cutset.

Fixpoint all_bytes (p : ascii → bool) (s : string) : bool :=
  match s with
  | "" => true
  | String c s' => p c && all_bytes p s'
  end.

Fixpoint map_bytes (f : ascii → ascii) (s : string) : string :=
  match s with
  | "" => ""
  | String c s' => String (f c) (map_bytes f s')
  end.

(** [strings.ToLower]: a string of one-byte code points is lowered byte by
    byte; any other string goes through [unicode.ToLower] code point by
    code point, which is the library's table and is taken as the
    parameter [unicodeLower]. *)
Definition ToLower (unicodeLower : string → string) (s : string) : string :=
  if all_bytes below_RuneSelf s then map_bytes lower_byte s
  else unicodeLower s.

End Strings.

(** ** Menu extraction: the dish name *)

(** The cutset [" \t\n"] of [trimNodeName]. *)
Definition name_cutset : string := String SP (String TAB (String LF "")).

Definition trimNodeName (name : string) : string :=
  let trimmed := Strings.Trim name name_cutset in
  let trimmed := Strings.Replace trimmed "( " "(" in
  let trimmed := Strings.Replace trimmed " )" ")" in
  let trimmed := Strings.Replace trimmed " ," "," in
  let trimmed := Strings.Replace trimmed "  " " " in
  trimmed.

(** ** UTF-8 decoding, as Go's [regexp] steps through a text

    Go's matcher reads the text one code point at a time
    ([utf8.DecodeRuneInString]); a byte that does not start a well-formed
    encoding is read as U+FFFD of width one.  A code point is represented
    here by the bytes it was read from: two well-formed encodings are equal
    exactly when their code points are, and the classes the program uses
    never single out U+FFFD. *)

Module Utf8.

(** A continuation byte, [0x80..0xBF]. *)
Definition cont (c : ascii) : bool := byte_in 0x80 0xBF c.

Definition two_ok (b0 b1 : ascii) : bool :=
  byte_in 0xC2 0xDF b0 && cont b1.

Definition three_ok (b0 b1 b2 : ascii) : bool :=
  (byte_in 0xE0 0xE0 b0 && byte_in 0xA0 0xBF b1
   || (byte_in 0xE1 0xEC b0 || byte_in 0xEE 0xEF b0) && cont b1
   || byte_in 0xED 0xED b0 && byte_in 0x80 0x9F b1)
  && cont b2.

Definition four_ok (b0 b1 b2 b3 : ascii) : bool :=
  (byte_in 0xF0 0xF0 b0 && byte_in 0x90 0xBF b1
   || byte_in 0xF1 0xF3 b0 && cont b1
   || byte_in 0xF4 0xF4 b0 && byte_in 0x80 0x8F b1)
  && cont b2 && cont b3.

Definition single (b : ascii) : string := String b "".

Fixpoint runes (s : string) : list string :=
  match s with
  | "" => []
  | String b0 s1 =>
      match s1 with
      | "" => [single b0]
      | String b1 s2 =>
          if two_ok b0 b1 then String b0 (single b1) :: runes s2
          else
            match s2 with
            | "" => single b0 :: runes s1
            | String b2 s3 =>
                if three_ok b0 b1 b2
                then String b0 (String b1 (single b2)) :: runes s3
                else
                  match s3 with
                  | "" => single b0 :: runes s1
                  | String b3 s4 =>
                      if four_ok b0 b1 b2 b3
                      then String b0 (String b1 (String b2 (single b3)))
                           :: runes s4
                      else single b0 :: runes s1
                  end
            end
      end
  end.

(** The bytes a sequence of code points was read from. *)
Fixpoint bytes (rs : list string) : string :=
  match rs with
  | [] => ""
  | r :: rs' => r +:+ bytes rs'
  end.

End Utf8.

(** ** Regular expressions

    The syntax covers what the seven patterns of [main.go] use.  The matcher
    is a backtracking one with the preference order of Go's [regexp]
    (leftmost, then the first alternative, and as many repetitions as
    possible), which is the match Go reports. *)

Module Regexp.

Inductive re : Type :=
| Empty                                   (* the empty pattern *)
| Class (p : string → bool)               (* one code point of a class *)
| Bol                                     (* ^ without the m flag *)
| Eol                                     (* $ without the m flag *)
| Cat (r1 r2 : re)
| Alt (r1 r2 : re)                        (* r1|r2 *)
| Star (p : string → bool)                (* c* for a class c, greedy *)
| Group (idx : nat) (name : string) (r : re).  (* capturing group *)

(** *** Classes *)

Definition is_rune (c : ascii) (r : string) : bool :=
  String.eqb r (String c "").

(** [\w] is [[0-9A-Za-z_]]. *)
Definition word_byte (c : ascii) : bool :=
  is_digit c || is_upper c || is_lower c || Ascii.eqb c "_".

Definition word (r : string) : bool :=
  match r with
  | String c "" => word_byte c
  | _ => false
  end.

(** U+017F (long s) and U+212A (Kelvin sign), the two code points outside
    ASCII that fold to an ASCII letter. *)
Definition long_s : string :=
  String (ascii_of_N 0xC5) (String (ascii_of_N 0xBF) "").
Definition kelvin : string :=
  String (ascii_of_N 0xE2) (String (ascii_of_N 0x84)
    (String (ascii_of_N 0xAA) "")).

(** A literal byte [c] under the [i] flag: the code points that fold to
    it. *)
Definition fold_rune (c : ascii) (r : string) : bool :=
  is_rune (lower_byte c) r || is_rune (upper_byte c) r
  || Ascii.eqb (lower_byte c) "s" && String.eqb r long_s
  || Ascii.eqb (lower_byte c) "k" && String.eqb r kelvin.

(** [\W] under the [i] flag: the complement of the folded [\w]. *)
Definition fold_nonword (r : string) : bool :=
  negb (word r || String.eqb r long_s || String.eqb r kelvin).

(** [.] without the s flag: any code point but a line feed. *)
Definition dot (r : string) : bool := negb (is_rune LF r).

(** *** Derived patterns *)

Fixpoint Lit (s : string) : re :=
  match s with
  | "" => Empty
  | String c s' => Cat (Class (is_rune c)) (Lit s')
  end.

Fixpoint LitI (s : string) : re :=
  match s with
  | "" => Empty
  | String c s' => Cat (Class (fold_rune c)) (LitI s')
  end.

Definition Plus (p : string → bool) : re := Cat (Class p) (Star p).
Definition Quest (r : re) : re := Alt r Empty.

(** *** Matching *)

(** The strings of the groups, by index; index 0 is the whole match. *)
Definition submatch : Type := list string.

Section run.
Context {A : Type}.

Fixpoint star (p : string → bool) (k : bool → list string → option A)
    (bot : bool) (s : list string) : option A :=
  match s with
  | x :: s' =>
      if p x
      then match star p k false s' with
           | Some a => Some a
           | None => k bot s
           end
      else k bot s
  | [] => k bot s
  end.

(** [run r bot s c k]: match [r] at the front of [s], which is the
    beginning of the text iff [bot]; [k] is what remains to be done once
    [r] has matched. *)
Fixpoint run (r : re) (bot : bool) (s : list string) (c : submatch)
    (k : bool → list string → submatch → option A) : option A :=
  match r with
  | Empty => k bot s c
  | Class p =>
      match s with
      | x :: s' => if p x then k false s' c else None
      | [] => None
      end
  | Bol => if bot then k bot s c else None
  | Eol => match s with [] => k bot s c | _ :: _ => None end
  | Cat r1 r2 => run r1 bot s c (λ bot' s' c', run r2 bot' s' c' k)
  | Alt r1 r2 =>
      match run r1 bot s c k with
      | Some a => Some a
      | None => run r2 bot s c k
      end
  | Star p => star p (λ bot' s', k bot' s' c) bot s
  | Group i _ r1 =>
      run r1 bot s c (λ bot' s' c',
        k bot' s' (<[i := Utf8.bytes (take (length s - length s') s)]> c'))
  end.
End run.

Fixpoint groups (r : re) : list string :=
  match r with
  | Cat r1 r2 | Alt r1 r2 => groups r1 ++ groups r2
  | Group _ name r1 => name :: groups r1
  | _ => []
  end.

(** [Regexp.SubexpNames]: the names of the groups by index, the first
    (the whole match) and the unnamed ones being empty. *)
Definition SubexpNames (r : re) : list string := "" :: groups r.

(** One execution at a position of the text: the leftmost match at or
    after it, with what follows the match. *)
Fixpoint exec (r : re) (bot : bool) (s : list string)
    : option (submatch * list string) :=
  match run (Group 0 "" r) bot s (replicate (length (SubexpNames r)) "")
          (λ _ s' c, Some (c, s')) with
  | Some m => Some m
  | None =>
      match s with
      | [] => None
      | _ :: s' => exec r false s'
      end
  end.

Definition MatchString (r : re) (text : string) : bool :=
  bool_decide (is_Some (exec r true (Utf8.runes text))).

(** [Regexp.FindAllStringSubmatch(text, -1)]: successive matches, each
    search starting where the previous match ended.  A match that ends
    where its search started is empty: the search then moves one code
    point on, and the match is dropped when the previous match ended
    there too ([prevEndHere]).  [fuel] bounds the number of searches. *)
Fixpoint allMatches (fuel : nat) (r : re) (bot : bool) (s : list string)
    (prevEndHere : bool) : list submatch :=
  match fuel with
  | O => []
  | S fuel' =>
      match exec r bot s with
      | None => []
      | Some (m, s') =>
          if bool_decide (length s' = length s)
          then (if prevEndHere then [] else [m])
               ++ match s with
                  | [] => []
                  | _ :: s'' => allMatches fuel' r false s'' false
                  end
          else m :: allMatches fuel' r false s' true
      end
  end.

Definition FindAllStringSubmatch (r : re) (text : string) : list submatch :=
  let s := Utf8.runes text in
  allMatches (S (length s)) r true s false.

(** *** The pattern as a relation between positions

    [reach r bot s] lists the positions at which a match of [r] that
    starts at [s] can end, a position being what is left of the text, with
    the flag telling whether it is still the beginning of the text. *)
Fixpoint reach_star (p : string → bool) (bot : bool) (s : list string)
    : list (bool * list string) :=
  match s with
  | x :: s' =>
      if p x then reach_star p false s' ++ [(bot, s)] else [(bot, s)]
  | [] => [(bot, s)]
  end.

Fixpoint reach (r : re) (bot : bool) (s : list string)
    : list (bool * list string) :=
  match r with
  | Empty => [(bot, s)]
  | Class p =>
      match s with
      | x :: s' => if p x then [(false, s')] else []
      | [] => []
      end
  | Bol => if bot then [(bot, s)] else []
  | Eol => match s with [] => [(bot, s)] | _ :: _ => [] end
  | Cat r1 r2 => reach r1 bot s ≫= λ e, reach r2 e.1 e.2
  | Alt r1 r2 => reach r1 bot s ++ reach r2 bot s
  | Star p => reach_star p bot s
  | Group _ _ r1 => reach r1 bot s
  end.

(** Some match of [r] starts at [s] or later. *)
Fixpoint occurs (r : re) (bot : bool) (s : list string) : Prop :=
  reach r bot s ≠ []
  ∨ match s with
    | [] => False
    | _ :: s' => occurs r false s'
    end.

End Regexp.

(** ** The patterns of [main.go] *)

Import Regexp.

(** [(?:^|\W)] and [(?:$|\W)] under the [i] flag. *)
Definition before_word : re := Alt Bol (Class fold_nonword).
Definition after_word : re := Alt Eol (Class fold_nonword).

(** [(?i)(?:^|\W)(alive|running|up)(?:$|\W)] *)
Definition REG_EXP_STATUS : re :=
  Cat before_word
    (Cat (Group 1 "" (Alt (LitI "alive") (Alt (LitI "running") (LitI "up"))))
       after_word).

(** [(?i)(?:^|\W)(command(|s)|help)(?:$|\W)] *)
Definition REG_EXP_HELP : re :=
  Cat before_word
    (Cat (Group 1 ""
            (Alt (Cat (LitI "command") (Group 2 "" (Alt Empty (LitI "s"))))
               (LitI "help")))
       after_word).

(** [(?i)(?:^|\W)(legend(|e)|zusatzstoff(|e)|nummer(|n))(?:$|\W)] *)
Definition REG_EXP_LEGEND : re :=
  Cat before_word
    (Cat (Group 1 ""
            (Alt (Cat (LitI "legend") (Group 2 "" (Alt Empty (LitI "e"))))
               (Alt (Cat (LitI "zusatzstoff")
                       (Group 3 "" (Alt Empty (LitI "e"))))
                  (Cat (LitI "nummer") (Group 4 "" (Alt Empty (LitI "n")))))))
       after_word).

(** [(?i)(?:^|\W)(heute|today|hunger)(?:$|\W)] *)
Definition REG_EXP_TODAY : re :=
  Cat before_word
    (Cat (Group 1 "" (Alt (LitI "heute") (Alt (LitI "today") (LitI "hunger"))))
       after_word).

(** [(?i)(?:^|\W)(morgen|tomorrow)(?:$|\W)] *)
Definition REG_EXP_TOMORROW : re :=
  Cat before_word
    (Cat (Group 1 "" (Alt (LitI "morgen") (LitI "tomorrow"))) after_word).

(** [^@\w+ order (?P<command>open|submit|list|close) ?(?P<content>R)$], where
    [R] stands for a dot followed by a star (any code points but line
    feeds). *)
Definition REG_EXP_ORDER : re :=
  Cat Bol
    (Cat (Lit "@")
       (Cat (Plus word)
          (Cat (Lit " order ")
             (Cat (Group 1 "command"
                     (Alt (Lit "open")
                        (Alt (Lit "submit") (Alt (Lit "list") (Lit "close")))))
                (Cat (Quest (Lit " "))
                   (Cat (Group 2 "content" (Star dot)) Eol)))))).

(** [(?i)(?:^|\W)(dank(|e)|thank(|s))(?:$|\W)] *)
Definition REG_EXP_THANKS : re :=
  Cat before_word
    (Cat (Group 1 ""
            (Alt (Cat (LitI "dank") (Group 2 "" (Alt Empty (LitI "e"))))
               (Cat (LitI "thank") (Group 3 "" (Alt Empty (LitI "s"))))))
       after_word).

(** ** What the program is given: libraries and services

    The HTML tree ([golang.org/x/net/html] and [github.com/yhat/scrape]),
    the HTTP client, the chat server's user directory, the configuration
    file, the random number generator and the iteration order of Go maps
    are outside [main.go]; the program is written against this
    interface. *)

Inductive Matcher : Type :=
| ByClass (class : string)
| ByTag (tag : string).

Class Env : Type := {
  (** [unicode.ToLower] over a string with code points above U+007F *)
  unicodeLower : string → string;
  (** [CONFIG.Favorites] *)
  Favorites : list string;
  (** [*html.Node], [node.Parent], [scrape.Text], [scrape.Attr] and
      [scrape.FindAll] (matches in document order) *)
  Node : Type;
  Parent : Node → Node;
  Text : Node → string;
  Attr : Node → string → string;
  FindAll : Node → Matcher → list Node;
  (** [http.Get] and [html.Parse]; [None] is a non-nil [err] *)
  Body : Type;
  http_Get : string → option Body;
  html_Parse : Body → option Node;
  (** [client.GetUser(id, "")]: the [Username] of the user found, [None]
      when the request fails and the user returned is nil *)
  GetUser : string → option string;
  (** [rand.Intn(n)] from a generator state, with the next state *)
  rand_Intn : nat → nat → nat * nat;
  (** the order in which [range] visits a map *)
  range_map : gmap string string → list (string * string);
  range_map_perm : ∀ m, range_map m ≡ₚ map_to_list m
}.

Definition ToLower `{Env} (s : string) : string :=
  Strings.ToLower unicodeLower s.

(** ** Dishes *)

Record dish : Type := mkDish {
  name : string;
  prices : list string;          (* [3]string *)
  isVegetarian : bool;
  isVegan : bool;
  containsBeef : bool;
  containsPork : bool;
  containsFish : bool;
  containsChicken : bool;
  lactoseFree : bool
}.

Section Dishes.
Context `{Env}.

Definition isFavorite (d : dish) : bool :=
  let name := ToLower (name d) in
  existsb (λ f, Strings.Contains name f) Favorites.

(** [d.prices[i]] of a three-element array. *)
Definition price (d : dish) (i : nat) : string := nth i (prices d) "".

Definition dish_String (d : dish) : string :=
  "| " +:+ name d +:+ " |"
  +:+ (if isFavorite d then " :heart_eyes:" else "")
  +:+ (if isVegan d then " :sunflower:"
       else if isVegetarian d then " :carrot:" else "")
  +:+ (if containsBeef d then " :cow2:" else "")
  +:+ (if containsPork d then " :pig2:" else "")
  +:+ (if containsFish d then " :fish:" else "")
  +:+ (if containsChicken d then " :rooster:" else "")
  +:+ (if lactoseFree d then " :milk_glass:" else "")
  +:+ " |"
  +:+ " " +:+ price d 0 +:+ " // " +:+ price d 1 +:+ " // " +:+ price d 2
  +:+ " |".

(** The two bytes ["\xc2\xa0"] (a no-break space in UTF-8). *)
Definition nbsp : string :=
  String (ascii_of_N 0xC2) (String (ascii_of_N 0xA0) "").

(** The loop [for i, price := range priceNodes { prices[i] = ... }] over
    an array: an index outside the array is a run-time panic, [None]. *)
Fixpoint fill_prices (i : nat) (priceNodes : list Node)
    (prices : list string) : option (list string) :=
  match priceNodes with
  | [] => Some prices
  | price :: rest =>
      if decide (i < length prices)
      then fill_prices (S i) rest
             (<[i := Strings.Replace (Text price) nbsp ""]> prices)
      else None
  end.

(** The seven flags set by the loop over the images. *)
Record flags : Type := mkFlags {
  fVegetarian : bool; fVegan : bool; fBeef : bool; fPork : bool;
  fFish : bool; fChicken : bool; fLactoseFree : bool
}.

Definition no_flags : flags :=
  mkFlags false false false false false false false.

Definition flag_of_title (fl : flags) (title : string) : flags :=
  let 'mkFlags vt vg be po fi ch la := fl in
  if String.eqb title "vegetarisch" then mkFlags true vg be po fi ch la
  else if String.eqb title "vegan" then mkFlags vt true be po fi ch la
  else if String.eqb title "mit rind" then mkFlags vt vg true po fi ch la
  else if String.eqb title "mit schwein" then mkFlags vt vg be true fi ch la
  else if String.eqb title "mit fisch" then mkFlags vt vg be po true ch la
  else if String.eqb title "mit geflügel" then mkFlags vt vg be po fi true la
  else if String.eqb title "laktosefrei" then mkFlags vt vg be po fi ch true
  else fl.

Definition dishFromNode (node : Node) : option dish :=
  let name := trimNodeName (Text node) in
  let priceNodes := FindAll (Parent node) (ByClass "price") in
  let imgNodes := FindAll node (ByTag "img") in
  prices ← fill_prices 0 priceNodes (replicate 3 "");
  let fl :=
    foldl (λ fl img, flag_of_title fl (ToLower (Attr img "title")))
      no_flags imgNodes in
  Some (mkDish name prices (fVegetarian fl || fVegan fl) (fVegan fl)
          (fBeef fl) (fPork fl) (fFish fl) (fChicken fl) (fLactoseFree fl)).

(** [dishes = append(dishes, dishFromNode(dn))] over the nodes. *)
Fixpoint dishesFromNodes (dishNodes : list Node) : option (list dish) :=
  match dishNodes with
  | [] => Some []
  | dn :: rest =>
      d ← dishFromNode dn;
      ds ← dishesFromNodes rest;
      Some (d :: ds)
  end.

(** [getCanteenPlan]: [None] is a panic, raised by the two [panic(err)]
    or by an index out of range in [dishFromNode]. *)
Definition getCanteenPlan (url : string) : option (list dish) :=
  match http_Get url with
  | None => None
  | Some body =>
      match html_Parse body with
      | None => None
      | Some root =>
          dishesFromNodes (FindAll root (ByClass "dish-description"))
      end
  end.

End Dishes.

(** ** The bot

    [sendMessage] creates a post on the chat server; the posts created are
    collected, oldest first, in [posted].  A run-time panic stops the
    handler where it is raised. *)

Record Post : Type := mkPost {
  Id : string;
  UserId : string;
  ChannelId : string;
  Message : string
}.

(** The post that [sendMessage] creates: [Message], [ChannelId], [RootId]. *)
Record sent : Type := mkSent {
  msg : string;
  channelID : string;
  replyToID : string
}.

(** The handlers read [bot.user] and [bot.channelDebug] for their [Id]
    only; both are set by the startup code ([loginAsBotUser], [getChannel]),
    which panics when it cannot get them, before the first event is
    handled. *)
Record mensabot : Type := mkBot {
  user_Id : string;                        (* bot.user.Id *)
  channelDebug_Id : string;                (* bot.channelDebug.Id *)
  orderUser : string;
  orderDetail : string;
  orders : option (gmap string string)     (* None is the nil map *)
}.

Record world : Type := mkWorld {
  bot : mensabot;
  posted : list sent;
  rng : nat
}.

Inductive result (A : Type) : Type :=
| Ok (a : A) (w : world)
| Panic (w : world).
Arguments Ok {A} a w.
Arguments Panic {A} w.

Definition M (A : Type) : Type := world → result A.

#[global] Instance M_ret : MRet M := λ A a w, Ok a w.
#[global] Instance M_bind : MBind M := λ A B f m w,
  match m w with
  | Ok a w' => f a w'
  | Panic w' => Panic w'
  end.

Definition panic {A : Type} : M A := λ w, Panic w.

Definition get_bot : M mensabot := λ w, Ok (bot w) w.

Definition set_bot (b : mensabot) : M unit :=
  λ w, Ok () (mkWorld b (posted w) (rng w)).

(** The handler returns without doing anything. *)
Definition nothing : M unit := mret ().

(** A value that may be nil is used: a nil dereference panics. *)
Definition deref {A : Type} (o : option A) : M A :=
  match o with
  | Some a => mret a
  | None => panic
  end.

Definition set_orderDetail (b : mensabot) (s : string) : mensabot :=
  mkBot (user_Id b) (channelDebug_Id b) (orderUser b) s (orders b).

Definition set_orderUser (b : mensabot) (s : string) : mensabot :=
  mkBot (user_Id b) (channelDebug_Id b) s (orderDetail b) (orders b).

Definition set_orders (b : mensabot) (m : option (gmap string string))
    : mensabot :=
  mkBot (user_Id b) (channelDebug_Id b) (orderUser b) (orderDetail b) m.

Definition sendMessage (msg channelID replyToID : string) : M unit :=
  λ w, Ok () (mkWorld (bot w) (posted w ++ [mkSent msg channelID replyToID])
                (rng w)).

Definition CANTEEN_URL_TODAY : string :=
  "http://speiseplan.studierendenwerk-hamburg.de/de/580/2018/0/".
Definition CANTEEN_URL_TOMORROW : string :=
  "http://speiseplan.studierendenwerk-hamburg.de/de/580/2018/99/".

(** [model.WEBSOCKET_EVENT_POSTED] *)
Definition WEBSOCKET_EVENT_POSTED : string := "posted".

(** Lines, each ended by a line feed. *)
Fixpoint lines (l : list string) : string :=
  match l with
  | [] => ""
  | x :: l' => x +:+ nl +:+ lines l'
  end.

(** The event as the handler reads it.  [Data_post] is [None] when
    [event.Data["post"]] is no string (the key is absent, or its value has
    another type): the type assertion [event.Data["post"].(string)] is
    unchecked and panics then.  Otherwise it is the result of
    [model.PostFromJson] on that string: [Some None] when the string does
    not decode (a nil post), [Some (Some post)] when it does.
    [Data_mentions] is the decoded list when [event.Data["mentions"]] is a
    string; this assertion is checked.  [Broadcast_ChannelId] is
    [event.Broadcast.ChannelId]: the event is taken to carry its broadcast
    part, as the events sent by the server do. *)
Record WebSocketEvent : Type := mkEvent {
  Event : string;
  Data_post : option (option Post);
  Data_mentions : option (list string);
  Broadcast_ChannelId : string
}.

Section Bot.
Context `{Env}.

Definition writeDishes (dishes : list dish)
    (prefix channelID replyToID : string) : M unit :=
  sendMessage
    (prefix +:+ nl +:+ nl
     +:+ "| Essen | Features | Preise |" +:+ nl
     +:+ "| -- | -- | -- |" +:+ nl
     +:+ lines (map dish_String dishes))
    channelID replyToID.

(** The loop of [handleOrder] over the matches and their groups: the
    strings of the groups named [command] and [content]. *)
Definition order_fields (message : string) : string * string :=
  let groupNames := SubexpNames REG_EXP_ORDER in
  foldl
    (λ acc match_,
       foldl
         (λ '(cmd, content) '(name, matchText),
            if String.eqb name "command" then (matchText, content)
            else if String.eqb name "content" then (cmd, matchText)
            else (cmd, content))
         acc (zip groupNames match_))
    ("", "") (FindAllStringSubmatch REG_EXP_ORDER message).

(** The rows appended to [msg] by the loop over [bot.orders]; the user
    returned by [GetUser] is dereferenced in each round. *)
Fixpoint order_rows (entries : list (string * string)) (msg : string)
    : M string :=
  match entries with
  | [] => mret msg
  | (userId, order) :: rest =>
      username ← deref (GetUser userId);
      order_rows rest
        (msg +:+ "| @" +:+ username +:+ " | " +:+ order +:+ " |" +:+ nl)
  end.

(** [range bot.orders]: a nil map has no entries. *)
Definition range_orders (b : mensabot) : list (string * string) :=
  match orders b with
  | None => []
  | Some m => range_map m
  end.

Definition handleOrder (post : Post) : M unit :=
  let '(cmd, content) := order_fields (Message post) in
  b ← get_bot;
  if String.eqb cmd "open" then
    if negb (String.eqb (orderDetail b) "") then
      if String.eqb (orderUser b) (UserId post) then
        set_bot (set_orderDetail b content);;
        sendMessage "Updated order details" (ChannelId post) (Id post)
      else
        sendMessage "Not overwriting active order" (ChannelId post) (Id post)
    else
      let user := GetUser (UserId post) in
      set_bot (mkBot (user_Id b) (channelDebug_Id b) (UserId post) content
                 (Some ∅));;
      username ← deref user;
      sendMessage ("#FoodOrder opened by @" +:+ username +:+ ": " +:+ content)
        (ChannelId post) (Id post)
  else if String.eqb cmd "submit" then
    if String.eqb (orderDetail b) "" then
      sendMessage "Cannot submit without active order"
        (ChannelId post) (Id post)
    else
      match orders b with
      | None => panic     (* assignment to an entry in a nil map *)
      | Some m =>
          set_bot (set_orders b
            (Some (<[UserId post := Strings.Replace content "|" ""]> m)))
      end
  else if String.eqb cmd "list" then
    if String.eqb (orderDetail b) "" then
      sendMessage "Cannot list without active order"
        (ChannelId post) (Id post)
    else
      msg ← order_rows (range_orders b)
              ("**[Active order]** " +:+ orderDetail b +:+ nl +:+ nl
               +:+ "| User | Order |" +:+ nl
               +:+ "| -- | -- |" +:+ nl);
      sendMessage msg (ChannelId post) (Id post)
  else if String.eqb cmd "close" then
    if negb (String.eqb (orderDetail b) "")
       && negb (String.eqb (orderUser b) (UserId post)) then
      username ← deref (GetUser (orderUser b));
      sendMessage ("Only @" +:+ username +:+ " can close the active order")
        (ChannelId post) (Id post)
    else if negb (String.eqb (orderDetail b) "") then
      msg ← order_rows (range_orders b)
              ("**Closing** active order:" +:+ nl +:+ nl
               +:+ "| User | Order |" +:+ nl
               +:+ "| -- | -- |" +:+ nl);
      set_bot (set_orderUser (set_orderDetail b "") "");;
      sendMessage msg (ChannelId post) (Id post)
    else nothing
  else nothing.

Definition writeLegend (channelID replyToID : string) : M unit :=
  sendMessage
    (lines [
       "**Legende:**";
       ":heart_eyes: = Lieblingsgericht";
       ":sunflower: = Veganes Gericht";
       ":carrot: = Vegetarisches Gericht";
       ":cow2: = Enthält Rindfleisch";
       ":pig2: = Enthält Schweinefleisch";
       ":fish: = Enthält Fisch";
       ":rooster: = Enthält Geflügel";
       ":milk_glass: = Laktose**freies**(!) Gericht";
       "";
       "**Zusatzstoffe:**";
       "1 = Farbstoffe";
       "2 = Konservierungsstoffe";
       "3 = Antioxidationsmittel";
       "4 = Geschmacksverstärker";
       "5 = Geschwefelt";
       "6 = Geschwärzt";
       "7 = Gewachst";
       "8 = Phosphat";
       "9 = Süßungsmittel";
       "10 = Phenylalaninquelle";
       "14 = enthält glutenhaltiges Getreide (z. B. Weizen, Roggen, Gerste etc.)";
       "15 = Krebstiere und Krebstiererzeugnisse";
       "16 = Ei und Eierzeugnisse";
       "17 = Fisch und Fischerzeugnisse";
       "18 = Erdnüsse und Erdnusserzeugnisse";
       "19 = Soja und Sojaerzeugnisse";
       "20 = Milch und Milcherzeugnisse (einschl. Laktose)";
       "21 = Schalenfrüchte (z.B. Mandel, Haselnüsse, Walnuss etc.)";
       "22 = Sellerie und Sellerieerzeugnisse";
       "23 = Senf und Senferzeugnisse";
       "24 = Sesamsamen und Sesamsamenerzeugnisse";
       "25 = Schwefeldioxid und Sulfite (Konzentration über 10mg/kg oder 10mg/l)";
       "26 = Lupine und - erzeugnisse";
       "27 = Mollusken/Weichtiere (z.B. Muscheln und Weinbergschnecken)"])
    channelID replyToID.

Definition writeHelp (channelID replyToID : string) : M unit :=
  sendMessage
    (lines [
       "**Need help?** These are my supported commands:";
       "";
       "| Command | Keyword(s) (completely case insensitive)|";
       "| -- | -- |";
       "| Status | alive, running, up |";
       "| Today's canteen plan | heute, today, hunger |";
       "| Tomorrow's canteen plan | morgen, tomorrow |";
       "| Order controls | order [open, submit, list, close] |";
       "| Legend | legend(e), zusatzstoff(e), nummer(n) |";
       "| This help message | command(s), help |"])
    channelID replyToID.

Definition pleasure_msgs : list string :=
  ["My pleasure"; "You are very welcome"; "Dafür nicht"; "Immer gern"].

Definition writeMyPleasure (channelID replyToID : string) : M unit :=
  idx ← (λ w, let '(i, g) := rand_Intn (rng w) (length pleasure_msgs) in
              Ok i (mkWorld (bot w) (posted w) g));
  m ← deref (pleasure_msgs !! idx);
  sendMessage m channelID replyToID.

(** A panic of a function called by the handler stops the handler. *)
Definition lift_panic {A : Type} (o : option A) : M A := deref o.

Definition handleCommand (post : Post) : M unit :=
  if MatchString REG_EXP_STATUS (Message post) then
    sendMessage "Yes I'm up and running!" (ChannelId post) (Id post)
  else if MatchString REG_EXP_TODAY (Message post) then
    dishes ← lift_panic (getCanteenPlan CANTEEN_URL_TODAY);
    writeDishes dishes "**Heute gibt es:**" (ChannelId post) (Id post)
  else if MatchString REG_EXP_TOMORROW (Message post) then
    dishes ← lift_panic (getCanteenPlan CANTEEN_URL_TOMORROW);
    writeDishes dishes "**Morgen gibt es:**" (ChannelId post) (Id post)
  else if MatchString REG_EXP_ORDER (Message post) then
    handleOrder post
  else if MatchString REG_EXP_LEGEND (Message post) then
    writeLegend (ChannelId post) (Id post)
  else if MatchString REG_EXP_HELP (Message post) then
    writeHelp (ChannelId post) (Id post)
  else if MatchString REG_EXP_THANKS (Message post) then
    writeMyPleasure (ChannelId post) (Id post)
  else
    sendMessage
      "**What does this even mean?!** (Type 'help' to get a list of available commands)"
      (ChannelId post) (Id post).

Definition handleWebSocketEvent (event : option WebSocketEvent) : M unit :=
  match event with
  | None => nothing
  | Some event =>
      if negb (String.eqb (Event event) WEBSOCKET_EVENT_POSTED) then nothing
      else
        match Data_post event with
        | None => panic
        | Some None => nothing
        | Some (Some post) =>
            b ← get_bot;
            if String.eqb (UserId post) (user_Id b) then nothing
            else
              match Data_mentions event with
              | Some mentions =>
                  if (3 <? length mentions)%nat then nothing
                  else if existsb (λ m, String.eqb m (user_Id b)) mentions
                  then handleCommand post
                  else nothing
              | None =>
                  if String.eqb (Broadcast_ChannelId event)
                       (channelDebug_Id b)
                  then handleCommand post
                  else nothing
              end
        end
  end.

End Bot.

(** ** The classification done by [handleCommand]

    The guards of the [if ... else if] chain of [handleCommand], in its
    order, give the intent of a message. *)

Inductive Intent : Type :=
| Status
| MenuToday
| MenuTomorrow
| Order (subcommand content : string)
| Legend
| Help
| Thanks
| Unrecognized.

Section Classifier.
Context `{Env}.

Definition classify (message : string) : Intent :=
  if MatchString REG_EXP_STATUS message then Status
  else if MatchString REG_EXP_TODAY message then MenuToday
  else if MatchString REG_EXP_TOMORROW message then MenuTomorrow
  else if MatchString REG_EXP_ORDER message then
    Order (order_fields message).1 (order_fields message).2
  else if MatchString REG_EXP_LEGEND message then Legend
  else if MatchString REG_EXP_HELP message then Help
  else if MatchString REG_EXP_THANKS message then Thanks
  else Unrecognized.

(** The branch of [handleCommand] behind each guard. *)
Definition dispatch (i : Intent) (post : Post) : M unit :=
  match i with
  | Status => sendMessage "Yes I'm up and running!" (ChannelId post) (Id post)
  | MenuToday =>
      dishes ← lift_panic (getCanteenPlan CANTEEN_URL_TODAY);
      writeDishes dishes "**Heute gibt es:**" (ChannelId post) (Id post)
  | MenuTomorrow =>
      dishes ← lift_panic (getCanteenPlan CANTEEN_URL_TOMORROW);
      writeDishes dishes "**Morgen gibt es:**" (ChannelId post) (Id post)
  | Order _ _ => handleOrder post
  | Legend => writeLegend (ChannelId post) (Id post)
  | Help => writeHelp (ChannelId post) (Id post)
  | Thanks => writeMyPleasure (ChannelId post) (Id post)
  | Unrecognized =>
      sendMessage
        "**What does this even mean?!** (Type 'help' to get a list of available commands)"
        (ChannelId post) (Id post)
  end.

End Classifier.

(** ** A concrete environment

    A small document tree with the operations of [scrape] over it, a web
    given as a table from URLs to documents and a user directory given as a
    table; it is what the examples below are run in. *)

Module Sample.

#[local] Unset Elimination Schemes.
Inductive html : Type :=
| Elem (tag : string) (attrs : list (string * string)) (kids : list html)
| TextNode (data : string).
#[local] Set Elimination Schemes.

(** A node of a document, with the element it is a child of. *)
Record node : Type := mkNode { self : html; parent : option html }.

Definition attr_of (t : html) (key : string) : string :=
  match t with
  | Elem _ attrs _ =>
      match filter (λ kv, String.eqb kv.1 key = true) attrs with
      | kv :: _ => kv.2
      | [] => ""
      end
  | TextNode _ => ""
  end.

Definition matches (m : Matcher) (t : html) : bool :=
  match m, t with
  | ByClass c, Elem _ _ _ =>
      existsb (String.eqb c) (String.words (attr_of t "class"))
  | ByTag tag, Elem tag' _ _ => String.eqb tag tag'
  | _, TextNode _ => false
  end.

(** The matching nodes in document order; the subtree of a matching node
    is not searched. *)
Fixpoint findAll (m : Matcher) (par : option html) (t : html) : list node :=
  if matches m t then [mkNode t par]
  else
    match t with
    | Elem _ _ kids => flat_map (findAll m (Some t)) kids
    | TextNode _ => []
    end.

Fixpoint texts (t : html) : list string :=
  match t with
  | Elem _ _ kids => flat_map texts kids
  | TextNode data => [data]
  end.

Definition space_cutset : string :=
  String SP (String TAB (String LF (String "013" ""))).

(** The text nodes below a node, each trimmed, the non-empty ones joined
    by single spaces. *)
Definition text_of (t : html) : string :=
  String.concat " "
    (filter (λ s, s ≠ "")
       (map (λ s, Strings.Trim s space_cutset) (texts t))).

Definition parent_of (n : node) : node :=
  match parent n with
  | Some p => mkNode p None
  | None => n
  end.

Definition env (web : string → option (option html))
    (users : string → option string) (favorites : list string) : Env := {|
  unicodeLower := λ s, s;
  Favorites := favorites;
  Node := node;
  Parent := parent_of;
  Text := λ n, text_of (self n);
  Attr := λ n key, attr_of (self n) key;
  FindAll := λ n m, findAll m (parent n) (self n);
  Body := option html;
  http_Get := web;
  html_Parse := λ body, (λ t, mkNode t None) <$> body;
  GetUser := users;
  rand_Intn := λ g n, (g mod n, S g);
  range_map := map_to_list;
  range_map_perm := λ m, reflexivity (map_to_list m)
|}.

(** A dish of the menu page: the container of a description and its
    prices. *)
Definition dish_row (description : list html) (prices : list string)
    : html :=
  Elem "tr" []
    (Elem "td" [("class", "dish-description")] description
     :: map (λ p, Elem "td" [("class", "price")] [TextNode p]) prices).

Definition page (rows : list html) : html :=
  Elem "html" [] [Elem "body" [] [Elem "table" [] rows]].

Definition img (title : string) : html :=
  Elem "img" [("title", title)] [].

Definition users (id : string) : option string :=
  if String.eqb id "ua" then Some "anna"
  else if String.eqb id "ub" then Some "bert"
  else if String.eqb id "uc" then Some "cleo"
  else None.

Definition menu : html :=
  page [dish_row [TextNode "  Nudeln ( mit Sosse , vegan )  "; img "Vegan"]
          ["2,50 €"; "3,70 €"];
        dish_row [TextNode "Schnitzel"; img "mit Schwein"]
          ["3,10 €"; "4,20 €"; "5,30 €"]].

(** A web where both menu pages are served. *)
Definition web_up (url : string) : option (option html) := Some (Some menu).

(** A web where no request succeeds. *)
Definition web_down (url : string) : option (option html) := None.

Definition initial : world :=
  mkWorld (mkBot "ubot" "debug" "" "" None) [] 0.

End Sample.

(** The dish nodes of a page, found as [getCanteenPlan] finds them. *)
Definition dish_nodes (page : Sample.html) : list Sample.node :=
  Sample.findAll (ByClass "dish-description") None page.

(** A page whose only dish has two price elements, and that dish node. *)
Definition two_price_page : Sample.html :=
  Sample.page [Sample.dish_row [Sample.TextNode "Suppe"] ["1,00"; "2,00"]].

Definition two_price_node : Sample.node :=
  nth 0 (dish_nodes two_price_page) (Sample.mkNode two_price_page None).

(** A page whose only dish has four price elements, and that dish node. *)
Definition four_price_page : Sample.html :=
  Sample.page
    [Sample.dish_row [Sample.TextNode "Suppe"]
       ["1,00"; "2,00"; "3,00"; "4,00"]].

Definition four_price_node : Sample.node :=
  nth 0 (dish_nodes four_price_page) (Sample.mkNode four_price_page None).

(** An environment whose menu source serves the page with four prices. *)
Definition four_price_env : Env :=
  Sample.env (λ _, Some (Some four_price_page)) Sample.users ["schnitzel"].

Definition sample_env : Env :=
  Sample.env Sample.web_up Sample.users ["schnitzel"].

(** ** The specification's wording of some notions, for comparison *)

(** The favourite test as the specification words it: the name contains an
    entry of the list under case-insensitive comparison, the case of the
    name and of the entry both being ignored. *)
Definition spec_isFavorite `{Env} (d : dish) : bool :=
  existsb (λ f, Strings.Contains (ToLower (name d)) (ToLower f)) Favorites.

(** The state of the order as the specification words it: closed (owner and
    description empty) or open (owner and description non-empty). *)
Definition ledger_inv (b : mensabot) : Prop :=
  (orderUser b = "" ∧ orderDetail b = "")
  ∨ (orderUser b ≠ "" ∧ orderDetail b ≠ "").

(** A message addressed at the bot by name, as the specification words it:
    [@<botMention> order <open|submit|list|close> <rest-of-line>]. *)
Definition spec_order_pattern (botMention : string) : re :=
  Cat Bol
    (Cat (Lit "@")
       (Cat (Lit botMention)
          (Cat (Lit " order ")
             (Cat (Group 1 "command"
                     (Alt (Lit "open")
                        (Alt (Lit "submit") (Alt (Lit "list") (Lit "close")))))
                (Cat (Quest (Lit " "))
                   (Cat (Group 2 "content" (Star dot)) Eol)))))).

(** A keyword as a whole word, as the classifier's patterns have it. *)
Definition keyword_pattern (keywords : re) : re :=
  Cat before_word (Cat (Group 1 "" keywords) after_word).

Definition whole_word (keyword text : string) : bool :=
  MatchString (keyword_pattern (LitI keyword)) text.

(** The classifier as the specification words it: an ordered list of
    patterns with their intents, the first pattern that matches deciding. *)
Definition intent_table : list (re * (string → Intent)) :=
  [ (REG_EXP_STATUS, λ _, Status);
    (REG_EXP_TODAY, λ _, MenuToday);
    (REG_EXP_TOMORROW, λ _, MenuTomorrow);
    (REG_EXP_ORDER, λ text, Order (order_fields text).1 (order_fields text).2);
    (REG_EXP_LEGEND, λ _, Legend);
    (REG_EXP_HELP, λ _, Help);
    (REG_EXP_THANKS, λ _, Thanks) ].

Fixpoint first_match (table : list (re * (string → Intent))) (text : string)
    : Intent :=
  match table with
  | [] => Unrecognized
  | (pattern, intent) :: table' =>
      if MatchString pattern text then intent text
      else first_match table' text
  end.

(** The menu page that an intent asks for. *)
Definition menu_url (i : Intent) : option string :=
  match i with
  | MenuToday => Some CANTEEN_URL_TODAY
  | MenuTomorrow => Some CANTEEN_URL_TOMORROW
  | _ => None
  end.

(** The request for a menu page fails: [http.Get] or [html.Parse] returns an
    error. *)
Definition fetch_fails `{Env} (url : string) : Prop :=
  http_Get url = None
  ∨ ∃ body, http_Get url = Some body ∧ html_Parse body = None.

(** ** Notions used to state the behaviour of the order ledger *)

(** The user directory answers the request for [userId]. *)
Definition known `{Env} (userId : string) : Prop := is_Some (GetUser userId).

(** It answers for every user that has a submission in [m]. *)
Definition submitters_known `{Env} (m : gmap string string) : Prop :=
  ∀ userId, is_Some (m !! userId) → known userId.

(** The map of submissions has been made whenever an order is active. *)
Definition orders_made (b : mensabot) : Prop :=
  orderDetail b ≠ "" → is_Some (orders b).

(** The states of the bot that the dispatcher can reach from [w0] by
    handling events, none of which ends in a panic. *)
Inductive reachable `{Env} (w0 : world) : world → Prop :=
| reachable_start : reachable w0 w0
| reachable_event (w w' : world) (event : option WebSocketEvent) :
    reachable w0 w →
    handleWebSocketEvent event w = Ok () w' →
    reachable w0 w'.

(** A post created in the channel of [post], as a reply to it. *)
Definition threaded (post : Post) (m : sent) : Prop :=
  channelID m = ChannelId post ∧ replyToID m = Id post.

Definition username_of `{Env} (userId : string) : string :=
  default "" (GetUser userId).

(** One row of a listing, and the rows of a list of submissions. *)
Definition order_row `{Env} (e : string * string) : string :=
  "| @" +:+ username_of e.1 +:+ " | " +:+ e.2 +:+ " |".

Definition listing `{Env} (entries : list (string * string)) : string :=
  lines (map order_row entries).

Definition closing_header : string :=
  "**Closing** active order:" +:+ nl +:+ nl
  +:+ "| User | Order |" +:+ nl +:+ "| -- | -- |" +:+ nl.

Definition listing_header (detail : string) : string :=
  "**[Active order]** " +:+ detail +:+ nl +:+ nl
  +:+ "| User | Order |" +:+ nl +:+ "| -- | -- |" +:+ nl.

(** [w] with one more post, a reply to [post]. *)
Definition reply (w : world) (b : mensabot) (post : Post) (text : string)
    : world :=
  mkWorld b (posted w ++ [mkSent text (ChannelId post) (Id post)]) (rng w).

(** ** Notions used to state the behaviour of [trimNodeName] *)

Definition in_cutset (c : ascii) : bool := Strings.ContainsByte name_cutset c.

(** The byte [a] is nowhere directly followed by the byte [b]. *)
Fixpoint nopair (a b : ascii) (u : string) : bool :=
  match u with
  | String x (String y _ as t) =>
      negb (Ascii.eqb x a && Ascii.eqb y b) && nopair a b t
  | _ => true
  end.

(** The text does not start, or end, with a byte of the cutset. *)
Definition starts_clean (u : string) : bool :=
  match u with
  | "" => true
  | String x _ => negb (in_cutset x)
  end.

Fixpoint ends_clean (u : string) : bool :=
  match u with
  | "" => true
  | String x t =>
      match t with
      | "" => negb (in_cutset x)
      | String _ _ => ends_clean t
      end
  end.

(** The first byte of a text, if any. *)
Definition hd (u : string) : option ascii :=
  match u with
  | "" => None
  | String x _ => Some x
  end.

(** [strings.Replace(u, ab, n, -1)] for the two bytes [a], [b] and the one
    byte [n]. *)
Definition Replace2 (a b n : ascii) (u : string) : string :=
  Strings.Replace u (String a (String b "")) (String n "").

(** ** Sample states and messages *)

Definition post_of (user text : string) : Post := mkPost "p1" user "town" text.

(** An order opened by [ua], with a submission of [ub]. *)
Definition open_world : world :=
  mkWorld (mkBot "ubot" "debug" "ua" "Pizza" (Some {["ub" := "Margherita"]}))
    [] 0.

Definition down_env : Env :=
  Sample.env Sample.web_down Sample.users ["Pizza"].

Definition pizza : dish :=
  mkDish "Pizza" ["1,00"; "2,00"; "3,00"] false false false false false false
    false.

(** The event that delivers [post] with the bot among the mentioned. *)
Definition posted_event (post : Post) : option WebSocketEvent :=
  Some (mkEvent WEBSOCKET_EVENT_POSTED (Some (Some post)) (Some ["ubot"])
          "town").

(** ** Further notions, for the properties beyond the ones above *)

(** The text of a price element as [dishFromNode] stores it. *)
Definition price_text `{Env} (price : Node) : string :=
  Strings.Replace (Text price) nbsp "".

(** Some image below the node has the title [title], whatever the case of
    the attribute. *)
Definition has_title `{Env} (node : Node) (title : string) : bool :=
  existsb (λ img, String.eqb (ToLower (Attr img "title")) title)
    (FindAll node (ByTag "img")).

(** The first dish node of the sample menu, which has a [Vegan] image. *)
Definition vegan_node : Sample.node :=
  nth 0 (dish_nodes Sample.menu) (Sample.mkNode Sample.menu None).

(** The world in which a run ends, whether it returns or panics. *)
Definition world_of {A : Type} (r : result A) : world :=
  match r with
  | Ok _ w => w
  | Panic w => w
  end.

(** The message [thanks!] and a state in which the generator's next draw is
    in range. *)
Definition thanks_post : Post := post_of "ua" "thanks!".

(** Messages of the order workflow. *)
Definition close_post (user : string) : Post :=
  post_of user "@mensabot order close".
Definition list_post (user : string) : Post :=
  post_of user "@mensabot order list".
Definition submit_post (user text : string) : Post :=
  post_of user ("@mensabot order submit " +:+ text).
Definition open_post (user text : string) : Post :=
  post_of user ("@mensabot order open " +:+ text).

(** The text without its bytes equal to [c]. *)
Fixpoint without_byte (c : ascii) (s : string) : string :=
  match s with
  | "" => ""
  | String x s' =>
      if Ascii.eqb x c then without_byte c s'
      else String x (without_byte c s')
  end.

(** The rest of an order command without the one space that separates it
    from the sub-command. *)
Definition after_separator (rest : string) : string :=
  match rest with
  | String c r => if Ascii.eqb c SP then r else rest
  | "" => ""
  end.

(** Every class of the pattern takes a code point and its image under [g]
    alike. *)
Fixpoint classes_respect (g : string → string) (r : re) : Prop :=
  match r with
  | Class p | Star p => ∀ x, p (g x) = p x
  | Cat r1 r2 | Alt r1 r2 => classes_respect g r1 ∧ classes_respect g r2
  | Group _ _ r1 => classes_respect g r1
  | Empty | Bol | Eol => True
  end.

(** The 256 bytes. *)
Definition all_bytes_list : list ascii := map ascii_of_nat (seq 0 256).

(** The keyword patterns of the classifier. *)
Definition keyword_patterns : list re :=
  [REG_EXP_STATUS; REG_EXP_TODAY; REG_EXP_TOMORROW; REG_EXP_LEGEND;
   REG_EXP_HELP; REG_EXP_THANKS].

(** A position of the matcher in the image of a text under [g]. *)
Definition image (g : string → string) (e : bool * list string)
    : bool * list string :=
  (e.1, map g e.2).

(** ** The listening loop

    [startListening] announces the start in the debug channel and then
    handles the events of the channel one after the other, for ever.
    [events] are the events received so far, in the order of their arrival;
    a panic of a handler ends the process, so the later events are not
    handled.  [displayName] is [CONFIG.DisplayName]. *)

Fixpoint listen `{Env} (events : list (option WebSocketEvent)) : M unit :=
  match events with
  | [] => mret ()
  | event :: rest => handleWebSocketEvent event ;; listen rest
  end.

Definition start_text (displayName : string) : string :=
  "_[" +:+ displayName +:+ "] has **started** running_".

Definition startListening `{Env} (displayName : string)
    (events : list (option WebSocketEvent)) : M unit :=
  b ← get_bot;
  sendMessage (start_text displayName) (channelDebug_Id b) "" ;;
  listen events.



(** The reply [m] answers a post of somebody other than [user], received
    with one of the [events]. *)
Definition answers (events : list (option WebSocketEvent)) (user : string)
    (m : sent) : Prop :=
  ∃ ev post,
    Some ev ∈ events ∧ Event ev = WEBSOCKET_EVENT_POSTED
    ∧ Data_post ev = Some (Some post) ∧ UserId post ≠ user
    ∧ threaded post m.

(** ** Keywords as words *)

(** The keywords that each keyword pattern spells out. *)
Definition keyword_table : list (re * list string) :=
  [ (REG_EXP_STATUS, ["alive"; "running"; "up"]);
    (REG_EXP_TODAY, ["heute"; "today"; "hunger"]);
    (REG_EXP_TOMORROW, ["morgen"; "tomorrow"]);
    (REG_EXP_LEGEND,
     ["legend"; "legende"; "zusatzstoff"; "zusatzstoffe"; "nummer";
      "nummern"]);
    (REG_EXP_HELP, ["command"; "commands"; "help"]);
    (REG_EXP_THANKS, ["dank"; "danke"; "thank"; "thanks"]) ].

(** A byte below [0x80] that is no letter, digit or underscore. *)
Definition boundary_byte (c : ascii) : bool :=
  below_RuneSelf c && negb (word_byte c).

(** The text is empty or starts, or ends, with such a byte. *)
Definition starts_at_boundary (s : string) : bool :=
  match s with
  | "" => true
  | String c _ => boundary_byte c
  end.

Fixpoint ends_at_boundary (s : string) : bool :=
  match s with
  | "" => true
  | String c t =>
      match t with
      | "" => boundary_byte c
      | String _ _ => ends_at_boundary t
      end
  end.

(** * Properties *)

(** ** The price array of a dish *)

Section PriceFacts.
Context `{Env}.

Lemma fill_prices_spec (priceNodes : list Node) :
  ∀ (i : nat) (ps : list string),
    i + length priceNodes ≤ length ps →
    ∃ ps', fill_prices i priceNodes ps = Some ps'
      ∧ length ps' = length ps
      ∧ (∀ j, j < i ∨ i + length priceNodes ≤ j → ps' !! j = ps !! j)
      ∧ (∀ k p, priceNodes !! k = Some p →
           ps' !! (i + k) = Some (Strings.Replace (Text p) nbsp "")).
Proof.
  induction priceNodes as [|p rest IH]; intros i ps Hlen; simpl in *.
  - exists ps. split_and!; [done | done | done |].
    intros k p Hk. by rewrite lookup_nil in Hk.
  - destruct (decide (i < length ps)) as [Hi|Hi]; [|lia].
    destruct (IH (S i) (<[i:=Strings.Replace (Text p) nbsp ""]> ps))
      as (ps' & Hrun & Hl & Hout & Hin).
    { rewrite length_insert. lia. }
    exists ps'. rewrite length_insert in Hl. split_and!; [done | done | |].
    + intros j Hj. rewrite Hout by lia.
      apply list_lookup_insert_ne. lia.
    + intros [|k] q Hk; simpl in Hk.
      * inversion Hk; subst q. rewrite Nat.add_0_r, Hout by lia.
        by apply list_lookup_insert_eq.
      * replace (i + S k) with (S i + k) by lia. by apply Hin.
Qed.

Lemma fill_prices_overflow (priceNodes : list Node) :
  ∀ (i : nat) (ps : list string),
    i ≤ length ps → length ps < i + length priceNodes →
    fill_prices i priceNodes ps = None.
Proof.
  induction priceNodes as [|p rest IH]; intros i ps Hi Hlen; simpl in *.
  - lia.
  - destruct (decide (i < length ps)) as [Hi'|Hi']; [|done].
    apply IH; rewrite length_insert; lia.
Qed.

(** A dish node whose container holds more than three price elements makes
    [dishFromNode] panic. *)
Lemma dishFromNode_overflow (node : Node) :
  3 < length (FindAll (Parent node) (ByClass "price")) →
  dishFromNode node = None.
Proof.
  intros Hlen. unfold dishFromNode.
  rewrite fill_prices_overflow; [done | simpl; lia | simpl; lia].
Qed.

(** C8: a dish node whose container holds fewer than three price elements
    gives a dish with exactly three price strings: the elements found, in
    document order, and the empty string in every tier that is left. *)
Theorem dishFromNode_fixed_arity (node : Node) :
  length (FindAll (Parent node) (ByClass "price")) < 3 →
  ∃ d, dishFromNode node = Some d
    ∧ length (prices d) = 3
    ∧ (∀ i, length (FindAll (Parent node) (ByClass "price")) ≤ i < 3 →
         prices d !! i = Some "")
    ∧ (∀ i p, FindAll (Parent node) (ByClass "price") !! i = Some p →
         prices d !! i = Some (Strings.Replace (Text p) nbsp "")).
Proof.
  intros Hlen. unfold dishFromNode.
  destruct (fill_prices_spec (FindAll (Parent node) (ByClass "price")) 0
              (replicate 3 "")) as (ps & Hrun & Hl & Hout & Hin).
  { simpl. lia. }
  rewrite Hrun. simpl. eexists. split; [reflexivity|]. simpl.
  split_and!; [done | |].
  - intros i Hi. rewrite Hout by (simpl; lia).
    destruct i as [|[|[|i]]]; simpl; try done; lia.
  - intros i p Hp. by apply (Hin i p).
Qed.

End PriceFacts.

Lemma dishFromNode_fixed_arity_witness :
  ∃ d, dishFromNode (H:=sample_env) two_price_node = Some d
    ∧ length (prices d) = 3
    ∧ (∀ i, length (@FindAll sample_env (@Parent sample_env two_price_node)
                      (ByClass "price")) ≤ i < 3 →
         prices d !! i = Some "")
    ∧ (∀ i p, @FindAll sample_env (@Parent sample_env two_price_node)
                (ByClass "price") !! i = Some p →
         prices d !! i = Some (Strings.Replace (@Text sample_env p) nbsp "")).
Proof.
  apply (dishFromNode_fixed_arity (H:=sample_env) two_price_node).
  vm_compute. lia.
Defined.

Example dishFromNode_two_prices :
  prices <$> dishFromNode (H:=sample_env) two_price_node
  = Some ["1,00"; "2,00"; ""].
Proof. vm_compute. reflexivity. Qed.

(** C10: at a dish node whose container holds four price elements the
    fourth assignment [prices[3] = ...] is out of range: [dishFromNode]
    panics, and with it the handler of a menu request that reads the
    page. *)
Theorem dishFromNode_index_out_of_range :
  length (@FindAll sample_env (@Parent sample_env four_price_node)
            (ByClass "price")) = 4
  ∧ dishFromNode (H:=sample_env) four_price_node = None
  ∧ handleCommand (H:=four_price_env) (post_of "ua" "heute?") Sample.initial
    = Panic Sample.initial.
Proof. vm_compute. split_and!; reflexivity. Qed.

(** ** Favourites *)

Lemma lower_byte_not_upper (c : ascii) : is_upper (lower_byte c) = false.
Proof. destruct c as [[] [] [] [] [] [] [] []]; reflexivity. Qed.

Lemma HasPrefix_bytes (c : ascii) (f : string) :
  ∀ s, Strings.HasPrefix s f = true → Strings.ContainsByte f c = true →
       Strings.ContainsByte s c = true.
Proof.
  induction f as [|x f IH]; intros s Hp Hc; simpl in *; [done|].
  destruct s as [|y s]; [done|]. simpl.
  apply andb_prop in Hp as [Hyx Hp]. apply Ascii.eqb_eq in Hyx. subst y.
  apply orb_prop in Hc as [Hc|Hc]; [by rewrite Hc|].
  rewrite (IH s Hp Hc). apply orb_true_r.
Qed.

Lemma Contains_bytes (c : ascii) (f : string) :
  ∀ s, Strings.Contains s f = true → Strings.ContainsByte f c = true →
       Strings.ContainsByte s c = true.
Proof.
  induction s as [|y s IH]; intros Hs Hc.
  - simpl in Hs. rewrite orb_false_r in Hs. eauto using HasPrefix_bytes.
  - change (Strings.Contains (String y s) f)
      with (Strings.HasPrefix (String y s) f || Strings.Contains s f) in Hs.
    apply orb_prop in Hs as [Hs|Hs]; [eauto using HasPrefix_bytes|].
    simpl. rewrite (IH Hs Hc). apply orb_true_r.
Qed.

Lemma lowered_bytes (c : ascii) :
  ∀ s, Strings.ContainsByte (Strings.map_bytes lower_byte s) c = true →
       is_upper c = false.
Proof.
  induction s as [|x s IH]; simpl; [done|].
  intros [Hx|Hs]%orb_prop; [|by apply IH].
  apply Ascii.eqb_eq in Hx. subst c. apply lower_byte_not_upper.
Qed.

(** C9, the counterexample: with the entry [Pizza] configured, the dish
    named [Pizza] is not a favourite, although name and entry agree whatever
    the case. *)
Lemma isFavorite_entry_case_counterexample :
  @Favorites down_env = ["Pizza"]
  ∧ isFavorite (H:=down_env) pizza = false
  ∧ spec_isFavorite (H:=down_env) pizza = true.
Proof. vm_compute. done. Qed.

(** C9, as amended: a dish is a favourite iff its lower-cased name contains
    an entry of the list as the entry is written; the case of the name is
    ignored, the case of the entry is not: an entry with an upper-case
    letter A-Z matches no name made of one-byte code points. *)
Theorem isFavorite_lowered_name_only `{Env} (d : dish) :
  (isFavorite d = true ↔
     ∃ f, f ∈ Favorites ∧ Strings.Contains (ToLower (name d)) f = true)
  ∧ ∀ f c, Strings.ContainsByte f c = true ∧ is_upper c = true
           ∧ Strings.all_bytes below_RuneSelf (name d) = true →
      Strings.Contains (ToLower (name d)) f = false.
Proof.
  split.
  - unfold isFavorite. rewrite existsb_exists.
    split; intros (f & Hf & Hc); exists f; by rewrite ?list_elem_of_In in *.
  - intros f c (Hf & Hup & Hascii).
    destruct (Strings.Contains (ToLower (name d)) f) eqn:Hc; [|done].
    unfold ToLower, Strings.ToLower in Hc. rewrite Hascii in Hc.
    pose proof (lowered_bytes c _ (Contains_bytes c f _ Hc Hf)). congruence.
Qed.

Lemma isFavorite_lowered_name_only_witness :
  Strings.Contains (ToLower (H:=down_env) (name pizza)) "Pizza" = false.
Proof.
  apply (isFavorite_lowered_name_only (H:=down_env) pizza) with (c:="P"%char).
  vm_compute. done.
Defined.

(** ** The dispatcher *)

Section DispatchFacts.
Context `{Env}.

(** [handleCommand] runs the branch of the first guard that holds. *)
Lemma handleCommand_dispatch (post : Post) :
  handleCommand post = dispatch (classify (Message post)) post.
Proof.
  unfold handleCommand, classify.
  repeat (destruct (MatchString _ _); [reflexivity|]).
  reflexivity.
Qed.

Lemma getCanteenPlan_fails (url : string) :
  fetch_fails url → getCanteenPlan url = None.
Proof.
  unfold getCanteenPlan.
  intros [Hget|(body & Hget & Hparse)]; rewrite Hget; [done|].
  by rewrite Hparse.
Qed.

(** C4, as amended: a menu request whose fetch or parse fails is not
    caught: the handler panics without having sent a reply, which ends the
    process; a request whose page is read sends exactly one reply,
    threaded to the triggering message. *)
Theorem menu_request_outcome (post : Post) (w : world) (url : string) :
  menu_url (classify (Message post)) = Some url →
  (fetch_fails url → handleCommand post w = Panic w)
  ∧ (∀ dishes, getCanteenPlan url = Some dishes →
       ∃ text, handleCommand post w
               = Ok () (mkWorld (bot w)
                          (posted w ++ [mkSent text (ChannelId post) (Id post)])
                          (rng w))).
Proof.
  intros Hurl. rewrite handleCommand_dispatch.
  destruct (classify (Message post)); simpl in Hurl; try done;
    inversion Hurl; subst url; simpl; unfold lift_panic, mbind, M_bind.
  all: split;
    [ intros Hf; by rewrite (getCanteenPlan_fails _ Hf)
    | intros dishes Hd; rewrite Hd; simpl; eexists; reflexivity ].
Qed.

End DispatchFacts.

(** C4, the counterexample: with the menu source unreachable, the message
    [heute?] makes the handler panic; no reply has been sent. *)
Lemma menu_fetch_failure_counterexample :
  @http_Get down_env CANTEEN_URL_TODAY = None
  ∧ handleCommand (H:=down_env) (post_of "ua" "heute?") Sample.initial
    = Panic Sample.initial
  ∧ posted Sample.initial = [].
Proof. vm_compute. done. Qed.

Lemma menu_request_outcome_witness :
  handleCommand (H:=down_env) (post_of "ua" "heute?") Sample.initial
  = Panic Sample.initial.
Proof.
  apply (menu_request_outcome (H:=down_env) (post_of "ua" "heute?")
           Sample.initial CANTEEN_URL_TODAY).
  - vm_compute. reflexivity.
  - left. vm_compute. reflexivity.
Defined.

(** ** The order ledger *)

Lemma string_app_cons (x : ascii) (a b : string) :
  String x a +:+ b = String x (a +:+ b).
Proof. reflexivity. Qed.

Lemma string_app_nil_l (a : string) : "" +:+ a = a.
Proof. reflexivity. Qed.

Lemma string_app_assoc (a b c : string) : (a +:+ b) +:+ c = a +:+ (b +:+ c).
Proof.
  induction a as [|x a IH]; [done|].
  by rewrite !string_app_cons, IH.
Qed.

Lemma string_app_nil_r (a : string) : a +:+ "" = a.
Proof.
  induction a as [|x a IH]; [done|].
  by rewrite string_app_cons, IH.
Qed.

Section LedgerFacts.
Context `{Env}.

Lemma order_rows_ok (entries : list (string * string)) :
  ∀ (msg : string) (w : world),
    (∀ e, e ∈ entries → is_Some (GetUser e.1)) →
    order_rows entries msg w = Ok (msg +:+ listing entries) w.
Proof.
  induction entries as [|[u o] rest IH]; intros msg w Hok.
  - simpl. unfold listing. simpl. by rewrite string_app_nil_r.
  - destruct (Hok (u, o)) as [n Hn]; [left|]. simpl in Hn.
    cbn [order_rows]. unfold mbind, M_bind. rewrite Hn. simpl.
    rewrite IH by (intros e He; apply Hok; by right).
    unfold listing, order_row, username_of. cbn [map lines fst snd].
    rewrite Hn. simpl. by rewrite !string_app_assoc.
Qed.

(** The loop over the submissions changes nothing in the world. *)
Lemma order_rows_world (entries : list (string * string)) :
  ∀ (msg text : string) (w w' : world),
    order_rows entries msg w = Ok text w' → w' = w.
Proof.
  induction entries as [|[u o] rest IH]; intros msg text w w' Hrun.
  - by inversion Hrun.
  - cbn [order_rows] in Hrun. unfold mbind, M_bind, deref in Hrun.
    destruct (GetUser u); simpl in Hrun; [by eapply IH | done].
Qed.

Ltac run_handler :=
  unfold handleOrder, mbind, M_bind, get_bot, set_bot, sendMessage, nothing,
    deref, mret, M_ret, panic, reply; simpl.

Ltac is_open Hd := rewrite (proj2 (String.eqb_neq _ _) Hd); simpl.

Variables (post : Post) (w : world) (content : string).

(** Closed, [open]: the order is opened for the sender and the map is made
    anew. *)
Lemma open_when_closed (username : string) :
  order_fields (Message post) = ("open", content) →
  orderDetail (bot w) = "" →
  GetUser (UserId post) = Some username →
  handleOrder post w
  = Ok () (reply w (mkBot (user_Id (bot w)) (channelDebug_Id (bot w))
                      (UserId post) content (Some ∅))
             post ("#FoodOrder opened by @" +:+ username +:+ ": " +:+ content)).
Proof. intros Hf Hd Hu. run_handler. rewrite Hf, Hd. simpl. by rewrite Hu. Qed.

(** Open, [open] by the owner: the description is replaced. *)
Lemma open_by_owner :
  order_fields (Message post) = ("open", content) →
  orderDetail (bot w) ≠ "" →
  orderUser (bot w) = UserId post →
  handleOrder post w
  = Ok () (reply w (set_orderDetail (bot w) content) post
             "Updated order details").
Proof.
  intros Hf Hd Hu. run_handler. rewrite Hf. simpl. is_open Hd.
  by rewrite Hu, String.eqb_refl.
Qed.

(** Open, [open] by somebody else: refused. *)
Lemma open_by_other :
  order_fields (Message post) = ("open", content) →
  orderDetail (bot w) ≠ "" →
  orderUser (bot w) ≠ UserId post →
  handleOrder post w
  = Ok () (reply w (bot w) post "Not overwriting active order").
Proof.
  intros Hf Hd Hu. run_handler. rewrite Hf. simpl. is_open Hd.
  rewrite (proj2 (String.eqb_neq _ _) Hu). by destruct w.
Qed.

(** Closed, [submit]: refused. *)
Lemma submit_when_closed :
  order_fields (Message post) = ("submit", content) →
  orderDetail (bot w) = "" →
  handleOrder post w
  = Ok () (reply w (bot w) post "Cannot submit without active order").
Proof. intros Hf Hd. run_handler. rewrite Hf, Hd. simpl. by destruct w. Qed.

(** Open, [submit]: the text, without its [|], is stored under the sender;
    nothing is sent. *)
Lemma submit_when_open (m : gmap string string) :
  order_fields (Message post) = ("submit", content) →
  orderDetail (bot w) ≠ "" →
  orders (bot w) = Some m →
  handleOrder post w
  = Ok () (mkWorld
             (set_orders (bot w)
                (Some (<[UserId post := Strings.Replace content "|" ""]> m)))
             (posted w) (rng w)).
Proof.
  intros Hf Hd Hm. run_handler. rewrite Hf. simpl. is_open Hd.
  by rewrite Hm.
Qed.

(** Closed, [list]: refused. *)
Lemma list_when_closed :
  order_fields (Message post) = ("list", content) →
  orderDetail (bot w) = "" →
  handleOrder post w
  = Ok () (reply w (bot w) post "Cannot list without active order").
Proof. intros Hf Hd. run_handler. rewrite Hf, Hd. simpl. by destruct w. Qed.

(** Open, [list]: the description and the submissions. *)
Lemma list_when_open :
  order_fields (Message post) = ("list", content) →
  orderDetail (bot w) ≠ "" →
  (∀ e, e ∈ range_orders (bot w) → is_Some (GetUser e.1)) →
  handleOrder post w
  = Ok () (reply w (bot w) post
             (listing_header (orderDetail (bot w))
              +:+ listing (range_orders (bot w)))).
Proof.
  intros Hf Hd Hu. run_handler. rewrite Hf. simpl. is_open Hd.
  rewrite order_rows_ok by done. by destruct w.
Qed.

(** Open, [close] by somebody else: refused, naming the owner. *)
Lemma close_by_other (username : string) :
  order_fields (Message post) = ("close", content) →
  orderDetail (bot w) ≠ "" →
  orderUser (bot w) ≠ UserId post →
  GetUser (orderUser (bot w)) = Some username →
  handleOrder post w
  = Ok () (reply w (bot w) post
             ("Only @" +:+ username +:+ " can close the active order")).
Proof.
  intros Hf Hd Hu Hn. run_handler. rewrite Hf. simpl. is_open Hd.
  rewrite (proj2 (String.eqb_neq _ _) Hu). simpl. rewrite Hn.
  by destruct w.
Qed.

(** Open, [close] by the owner: the submissions are listed, owner and
    description are emptied; the map is left as it is. *)
Lemma close_by_owner :
  order_fields (Message post) = ("close", content) →
  orderDetail (bot w) ≠ "" →
  orderUser (bot w) = UserId post →
  (∀ e, e ∈ range_orders (bot w) → is_Some (GetUser e.1)) →
  handleOrder post w
  = Ok () (reply w (set_orderUser (set_orderDetail (bot w) "") "") post
             (closing_header +:+ listing (range_orders (bot w)))).
Proof.
  intros Hf Hd Hu Hn. run_handler. rewrite Hf. simpl. is_open Hd.
  rewrite Hu, String.eqb_refl. simpl.
  by rewrite order_rows_ok by done.
Qed.

(** Closed, [close]: nothing happens and nothing is sent. *)
Lemma close_when_closed :
  order_fields (Message post) = ("close", content) →
  orderDetail (bot w) = "" →
  handleOrder post w = Ok () w.
Proof. intros Hf Hd. run_handler. by rewrite Hf, Hd. Qed.

(** No sub-command found: nothing happens. *)
Lemma no_subcommand (cmd : string) :
  order_fields (Message post) = (cmd, content) →
  cmd ≠ "open" → cmd ≠ "submit" → cmd ≠ "list" → cmd ≠ "close" →
  handleOrder post w = Ok () w.
Proof.
  intros Hf H1 H2 H3 H4. run_handler. rewrite Hf.
  by rewrite (proj2 (String.eqb_neq _ _) H1), (proj2 (String.eqb_neq _ _) H2),
    (proj2 (String.eqb_neq _ _) H3), (proj2 (String.eqb_neq _ _) H4).
Qed.

End LedgerFacts.

Section LedgerOutcomes.
Context `{Env}.

Ltac ledger_cases post w :=
  let cmd := fresh "cmd" in
  let content := fresh "content" in
  let Hf := fresh "Hf" in
  destruct (order_fields (Message post)) as [cmd content] eqn:Hf;
  destruct (decide (orderDetail (bot w) = "")) as [Hd|Hd];
  destruct (decide (orderUser (bot w) = UserId post)) as [Hu|Hu];
  (destruct (decide (cmd = "open")) as [->|Hopen];
   [| destruct (decide (cmd = "submit")) as [->|Hsubmit];
      [| destruct (decide (cmd = "list")) as [->|Hlist];
         [| destruct (decide (cmd = "close")) as [->|Hclose] ] ] ]).

(** The users of the rows of a listing are those with a submission. *)
Lemma range_orders_known (b : mensabot) :
  (∀ m, orders b = Some m → submitters_known m) →
  ∀ e, e ∈ range_orders b → is_Some (GetUser e.1).
Proof.
  intros Hsub [u o]. unfold range_orders.
  destruct (orders b) as [m|]; [|by intros ?%elem_of_nil].
  rewrite range_map_perm. intros Hin%elem_of_map_to_list.
  apply (Hsub m eq_refl). by exists o.
Qed.

(** C1, as amended: when the user directory knows the sender, the owner of
    an active order and the users with a submission, and the map exists
    while an order is active, every order sub-command is handled without a
    panic and sends at most one post, which is a reply to the triggering
    message; exactly one is sent for [open], for [list], for a refused
    [submit] and for a [close] of an active order; a [submit] that is
    accepted sends none, and stores the text, every [|] replaced by
    nothing, under the sender in the map of submissions, the rest of the
    bot being left as it was. *)
Theorem handleOrder_replies (post : Post) (w : world) :
  known (UserId post) →
  (orderDetail (bot w) ≠ "" → known (orderUser (bot w))) →
  (∀ m, orders (bot w) = Some m → submitters_known m) →
  orders_made (bot w) →
  ∃ w' out,
    handleOrder post w = Ok () w'
    ∧ posted w' = posted w ++ out
    ∧ Forall (threaded post) out
    ∧ length out ≤ 1
    ∧ ((order_fields (Message post)).1 = "open"
       ∨ (order_fields (Message post)).1 = "list"
       ∨ ((order_fields (Message post)).1 = "submit"
          ∧ orderDetail (bot w) = "")
       ∨ ((order_fields (Message post)).1 = "close"
          ∧ orderDetail (bot w) ≠ "") →
       length out = 1)
    ∧ ((order_fields (Message post)).1 = "submit"
       ∧ orderDetail (bot w) ≠ "" →
       out = []
       ∧ ∃ m,
           orders (bot w) = Some m
           ∧ bot w'
             = set_orders (bot w)
                 (Some (<[UserId post :=
                            Strings.Replace (order_fields (Message post)).2
                              "|" ""]> m))).
Proof.
  intros [poster Hposter] Howner Hsub Hmade.
  pose proof (range_orders_known (bot w) Hsub) as Hall.
  ledger_cases post w; simpl.
  all: try (destruct (Hmade Hd) as [m Hm]).
  all: try (destruct (Howner Hd) as [owner Hown]).
  all: first
    [ erewrite open_when_closed by eassumption
    | erewrite open_by_owner by eassumption
    | erewrite open_by_other by eassumption
    | erewrite submit_when_closed by eassumption
    | erewrite submit_when_open by eassumption
    | erewrite list_when_closed by eassumption
    | erewrite list_when_open by eassumption
    | erewrite close_by_other by eassumption
    | erewrite close_by_owner by eassumption
    | erewrite close_when_closed by eassumption
    | erewrite no_subcommand by eassumption ].
  all: first
    [ (eexists _, [_]; split; [reflexivity|]; split; [reflexivity|];
       split; [by repeat constructor|]; split; [simpl; lia|];
       split; [done | intros [? ?]; congruence])
    | (eexists _, []; split; [reflexivity|];
       split; [by rewrite app_nil_r|];
       split; [constructor|]; split; [simpl; lia|];
       split;
       [ intros [?|[?|[[? ?]|[? ?]]]]; congruence
       | first
           [ intros [? ?]; congruence
           | (intros _; split; [done|]; eexists;
              split; [eassumption | reflexivity]) ] ]) ].
Qed.

(** Away from the empty description and the empty user identifier, the
    handler keeps the state of the order either closed or open. *)
Lemma handleOrder_keeps_ledger_inv (post : Post) (w w' : world) :
  UserId post ≠ "" →
  (order_fields (Message post)).2 ≠ "" →
  ledger_inv (bot w) →
  handleOrder post w = Ok () w' →
  ledger_inv (bot w').
Proof.
  intros Huser Hcontent Hinv.
  unfold handleOrder, mbind, M_bind, get_bot, set_bot, sendMessage, nothing,
    deref, mret, M_ret, panic.
  destruct (order_fields (Message post)) as [cmd content]. simpl in *.
  repeat
    match goal with
    | |- context [String.eqb ?a ?b] => destruct (String.eqb_spec a b); simpl
    | |- context [GetUser ?u] => destruct (GetUser u); simpl
    | |- context [match orders ?b with _ => _ end] =>
        destruct (orders b); simpl
    | |- context [order_rows ?e ?m ?w] =>
        let E := fresh "E" in
        destruct (order_rows e m w) eqn:E; simpl;
        [apply order_rows_world in E; subst|]
    end.
  all: intros Hrun; inversion Hrun; subst; simpl; try done.
  all: unfold ledger_inv in *; simpl; try (right; split; congruence).
  all: try (left; split; congruence).
Qed.

(** C3, as amended: when the owner closes an active order, and the user
    directory knows the users with a submission, one reply is sent, which
    lists every submission once, in the order in which the map is ranged
    over; owner and description are emptied, and the map of submissions
    stays as it is. *)
Theorem close_by_owner_outcome (post : Post) (w : world)
    (m : gmap string string) :
  (order_fields (Message post)).1 = "close" →
  orderDetail (bot w) ≠ "" →
  orderUser (bot w) = UserId post →
  orders (bot w) = Some m →
  submitters_known m →
  ∃ entries,
    entries ≡ₚ map_to_list m
    ∧ handleOrder post w
      = Ok () (reply w
                 (mkBot (user_Id (bot w)) (channelDebug_Id (bot w)) "" ""
                    (Some m))
                 post (closing_header +:+ listing entries)).
Proof.
  intros Hcmd Hd Hu Hm Hlook.
  destruct (order_fields (Message post)) as [cmd content] eqn:Hf.
  simpl in Hcmd. subst cmd.
  exists (range_map m). split; [apply range_map_perm|].
  erewrite close_by_owner; [| eassumption | done | done |].
  - unfold range_orders, set_orderUser, set_orderDetail. simpl.
    by rewrite Hm.
  - apply range_orders_known. intros m' Hm'. rewrite Hm in Hm'.
    by injection Hm' as <-.
Qed.

End LedgerOutcomes.

(** ** States that the dispatcher reaches *)

Section ReachableFacts.
Context `{Env}.

Lemma handleOrder_keeps_orders_made (post : Post) (w w' : world) :
  orders_made (bot w) →
  handleOrder post w = Ok () w' →
  orders_made (bot w').
Proof.
  intros Hmade.
  unfold handleOrder, mbind, M_bind, get_bot, set_bot, sendMessage, nothing,
    deref, mret, M_ret, panic.
  destruct (order_fields (Message post)) as [cmd content]. simpl.
  repeat
    match goal with
    | |- context [String.eqb ?a ?b] => destruct (String.eqb_spec a b); simpl
    | |- context [GetUser ?u] => destruct (GetUser u); simpl
    | |- context [match orders ?b with _ => _ end] =>
        destruct (orders b) eqn:?; simpl
    | |- context [order_rows ?e ?m ?w] =>
        let E := fresh "E" in
        destruct (order_rows e m w) eqn:E; simpl;
        [apply order_rows_world in E; subst|]
    end.
  all: intros Hrun; inversion Hrun; subst; try done.
  all: unfold orders_made in *; simpl; intros Hd; try done; eauto.
Qed.

(** A post is sent, or nothing happens: the bot stays as it is. *)
Lemma sendMessage_bot (text channel parent : string) (w w' : world) :
  sendMessage text channel parent w = Ok () w' → bot w' = bot w.
Proof. unfold sendMessage. by intros [= <-]. Qed.

Lemma handleCommand_keeps_orders_made (post : Post) (w w' : world) :
  orders_made (bot w) →
  handleCommand post w = Ok () w' →
  orders_made (bot w').
Proof.
  intros Hmade. rewrite handleCommand_dispatch.
  destruct (classify (Message post)); cbn [dispatch].
  - intros Hs%sendMessage_bot. by rewrite Hs.
  - unfold mbind, M_bind, lift_panic, deref, writeDishes.
    destruct (getCanteenPlan _); [|done].
    intros Hs%sendMessage_bot. by rewrite Hs.
  - unfold mbind, M_bind, lift_panic, deref, writeDishes.
    destruct (getCanteenPlan _); [|done].
    intros Hs%sendMessage_bot. by rewrite Hs.
  - by apply handleOrder_keeps_orders_made.
  - unfold writeLegend. intros Hs%sendMessage_bot. by rewrite Hs.
  - unfold writeHelp. intros Hs%sendMessage_bot. by rewrite Hs.
  - unfold writeMyPleasure, mbind, M_bind, deref.
    destruct (rand_Intn _ _) as [i g].
    destruct (pleasure_msgs !! i); [|done].
    intros Hs%sendMessage_bot. by rewrite Hs.
  - intros Hs%sendMessage_bot. by rewrite Hs.
Qed.

Lemma handleWebSocketEvent_keeps_orders_made
    (event : option WebSocketEvent) (w w' : world) :
  orders_made (bot w) →
  handleWebSocketEvent event w = Ok () w' →
  orders_made (bot w').
Proof.
  intros Hmade. unfold handleWebSocketEvent, nothing, mret, M_ret.
  destruct event as [event|]; [|by intros [= <-]].
  destruct (negb _); [by intros [= <-]|].
  destruct (Data_post event) as [[post|]|]; [|by intros [= <-]|done].
  unfold mbind, M_bind, get_bot.
  destruct (String.eqb _ _); [by intros [= <-]|].
  destruct (Data_mentions event) as [mentions|].
  - destruct (3 <? length mentions); [by intros [= <-]|].
    destruct (existsb _ _); [|by intros [= <-]].
    by apply handleCommand_keeps_orders_made.
  - destruct (String.eqb _ _); [|by intros [= <-]].
    by apply handleCommand_keeps_orders_made.
Qed.

(** In every state reached from one without an order, the map of
    submissions exists while an order is active: a submission never meets
    the nil map. *)
Lemma reachable_orders_made (w0 w : world) :
  orderDetail (bot w0) = "" →
  reachable w0 w →
  orders_made (bot w).
Proof.
  intros Hclosed Hreach. induction Hreach as [|w w' event _ IH Hstep].
  - intros Hd. by rewrite Hclosed in Hd.
  - by eapply handleWebSocketEvent_keeps_orders_made.
Qed.

End ReachableFacts.

(** C1, the counterexample: a submission to the active order is stored and
    no post is created. *)
Lemma submit_without_reply_counterexample :
  classify "@mensabot order submit Calzone" = Order "submit" "Calzone"
  ∧ ∃ w', handleOrder (H:=sample_env)
            (post_of "uc" "@mensabot order submit Calzone") open_world
          = Ok () w'
    ∧ posted w' = posted open_world
    ∧ (orders (bot w') ≫= (.!! "uc")) = Some "Calzone".
Proof.
  split; [vm_compute; reflexivity|].
  eexists. split; [vm_compute; reflexivity|].
  split; vm_compute; reflexivity.
Qed.


(** The directory of the sample knows the user with a submission in the
    sample order. *)
Lemma sample_submitters_known :
  submitters_known (H:=sample_env) {["ub" := "Margherita"]}.
Proof.
  intros u [o Ho]. apply lookup_singleton_Some in Ho as [<- _].
  by eexists.
Qed.

Lemma handleOrder_replies_witness :
  ∃ w' out,
    handleOrder (H:=sample_env) (post_of "uc" "@mensabot order list")
      open_world
    = Ok () w'
    ∧ posted w' = posted open_world ++ out
    ∧ length out = 1.
Proof.
  destruct (handleOrder_replies (H:=sample_env)
              (post_of "uc" "@mensabot order list") open_world)
    as (w' & out & Hrun & Hout & _ & _ & Hone & _).
  - by eexists.
  - intros _. by eexists.
  - intros m [= <-]. apply sample_submitters_known.
  - intros _. by eexists.
  - exists w', out. split_and!; [assumption | assumption |].
    apply Hone. right. left. vm_compute. reflexivity.
Defined.

(** C3, the counterexample: after the owner has closed the order, the
    submission of [ub] is still in the map. *)
Lemma close_keeps_submissions_counterexample :
  ∃ w', handleOrder (H:=sample_env) (post_of "ua" "@mensabot order close")
          open_world
        = Ok () w'
    ∧ orderUser (bot w') = ""
    ∧ orderDetail (bot w') = ""
    ∧ (orders (bot w') ≫= (.!! "ub")) = Some "Margherita".
Proof.
  eexists. split; [vm_compute; reflexivity|].
  split_and!; vm_compute; reflexivity.
Qed.

Lemma close_by_owner_outcome_witness :
  ∃ entries,
    entries ≡ₚ map_to_list ({["ub" := "Margherita"]} : gmap string string)
    ∧ handleOrder (H:=sample_env) (post_of "ua" "@mensabot order close")
        open_world
      = Ok () (reply open_world (mkBot "ubot" "debug" "" ""
                                   (Some {["ub" := "Margherita"]}))
                 (post_of "ua" "@mensabot order close")
                 (closing_header +:+ listing (H:=sample_env) entries)).
Proof.
  apply (close_by_owner_outcome (H:=sample_env)
           (post_of "ua" "@mensabot order close") open_world
           {["ub" := "Margherita"]}).
  - vm_compute. reflexivity.
  - vm_compute. discriminate.
  - reflexivity.
  - reflexivity.
  - apply sample_submitters_known.
Defined.

(** C2: the message [@mensabot order open], whose description is empty,
    reaches the handler and is answered by [#FoodOrder opened by @anna: ];
    afterwards the order has an owner and no description, which is neither
    the closed nor the open state. *)
Theorem open_with_empty_description :
  ledger_inv (bot Sample.initial)
  ∧ ∃ w',
      handleWebSocketEvent (H:=sample_env)
        (posted_event (post_of "ua" "@mensabot order open")) Sample.initial
      = Ok () w'
      ∧ posted w' = [mkSent "#FoodOrder opened by @anna: " "town" "p1"]
      ∧ orderUser (bot w') = "ua"
      ∧ orderDetail (bot w') = ""
      ∧ ¬ ledger_inv (bot w').
Proof.
  split; [by left|].
  eexists. split; [vm_compute; reflexivity|].
  split_and!; try (vm_compute; reflexivity).
  intros [[Hu _]|[_ Hd]]; [discriminate Hu | by apply Hd].
Qed.

(** The same state is reached when the owner of an active order replaces
    its description by the empty one. *)
Example update_with_empty_description :
  ∃ w',
    handleOrder (H:=sample_env) (post_of "ua" "@mensabot order open") open_world
    = Ok () w'
    ∧ orderUser (bot w') = "ua" ∧ orderDetail (bot w') = "".
Proof. eexists. split_and!; vm_compute; reflexivity. Qed.

(** ** The matcher and the patterns as relations *)

Section MatcherFacts.
Context {A : Type}.

(** The repetition succeeds iff what remains succeeds at one of the
    positions it can stop at. *)
Lemma star_reach (p : string → bool) (k : bool → list string → option A) :
  ∀ (s : list string) (bot : bool),
    is_Some (star p k bot s)
    ↔ ∃ e, e ∈ reach_star p bot s ∧ is_Some (k e.1 e.2).
Proof.
  induction s as [|x s IH]; intros bot; simpl.
  - split.
    + intros Hk. exists (bot, []). split; [by left|done].
    + intros (e & ->%list_elem_of_singleton & Hk). done.
  - destruct (p x).
    + destruct (star p k false s) eqn:Hs.
      * split; [|by eauto].
        intros _. destruct (proj1 (IH false)) as (e & He & Hk).
        { by rewrite Hs. }
        exists e. split; [|done]. apply elem_of_app. by left.
      * split.
        -- intros Hk. exists (bot, x :: s). split; [|done].
           apply elem_of_app. right. by left.
        -- intros (e & [He| ->%list_elem_of_singleton]%elem_of_app & Hk);
             [|done].
           assert (is_Some (star p k false s)) as [a Ha]
             by (apply IH; eauto).
           congruence.
    + split.
      * intros Hk. exists (bot, x :: s). split; [by left|done].
      * intros (e & ->%list_elem_of_singleton & Hk). done.
Qed.

(** The matcher succeeds iff what remains succeeds at one of the positions
    the pattern can reach, provided its success does not depend on the
    groups recorded. *)
Lemma run_reach (r : re) :
  ∀ (bot : bool) (s : list string) (c : submatch)
    (k : bool → list string → submatch → option A),
    (∀ b' s' c1 c2, is_Some (k b' s' c1) → is_Some (k b' s' c2)) →
    is_Some (run r bot s c k)
    ↔ ∃ e, e ∈ reach r bot s ∧ ∀ c', is_Some (k e.1 e.2 c').
Proof.
  induction r as [|p| | |r1 IH1 r2 IH2|r1 IH1 r2 IH2|p|i n r1 IH1];
    intros bot s c k Hk; simpl.
  - split.
    + intros Hs. exists (bot, s). split; [by left|]. intros c'. by eapply Hk.
    + intros (e & ->%list_elem_of_singleton & Hs). apply Hs.
  - destruct s as [|x s]; [|destruct (p x)].
    + split; [by intros [? ?] | by intros (e & ?%elem_of_nil & _)].
    + split.
      * intros Hs. exists (false, s). split; [by left|].
        intros c'. by eapply Hk.
      * intros (e & ->%list_elem_of_singleton & Hs). apply Hs.
    + split; [by intros [? ?] | by intros (e & ?%elem_of_nil & _)].
  - destruct bot.
    + split.
      * intros Hs. exists (true, s). split; [by left|].
        intros c'. by eapply Hk.
      * intros (e & ->%list_elem_of_singleton & Hs). apply Hs.
    + split; [by intros [? ?] | by intros (e & ?%elem_of_nil & _)].
  - destruct s as [|x s].
    + split.
      * intros Hs. exists (bot, []). split; [by left|].
        intros c'. by eapply Hk.
      * intros (e & ->%list_elem_of_singleton & Hs). apply Hs.
    + split; [by intros [? ?] | by intros (e & ?%elem_of_nil & _)].
  - assert (Hk2 : ∀ b' s' c1 c2,
              is_Some (run r2 b' s' c1 k) → is_Some (run r2 b' s' c2 k)).
    { intros b' s' c1 c2 H1. apply (IH2 _ _ _ _ Hk).
      by apply (IH2 _ _ _ _ Hk) in H1. }
    rewrite (IH1 _ _ _ _ Hk2). split.
    + intros (e1 & He1 & Hs).
      destruct (proj1 (IH2 _ _ _ _ Hk) (Hs c)) as (e2 & He2 & Hs2).
      exists e2. split; [|done]. apply list_elem_of_bind. eauto.
    + intros (e2 & (e1 & He2 & He1)%list_elem_of_bind & Hs2).
      exists e1. split; [done|]. intros c'. apply (IH2 _ _ _ _ Hk). eauto.
  - split.
    + intros Hs. destruct (run r1 bot s c k) eqn:H1.
      * destruct (proj1 (IH1 bot s c k Hk)) as (e & He & Hs1).
        { by rewrite H1. }
        exists e. split; [|done]. apply elem_of_app. by left.
      * destruct (proj1 (IH2 bot s c k Hk) Hs) as (e & He & Hs2).
        exists e. split; [|done]. apply elem_of_app. by right.
    + intros (e & [He|He]%elem_of_app & Hs).
      * assert (is_Some (run r1 bot s c k)) as [a ->]
          by (apply (IH1 _ _ _ _ Hk); eauto).
        done.
      * destruct (run r1 bot s c k); [done|].
        apply (IH2 _ _ _ _ Hk). eauto.
  - rewrite star_reach. split.
    + intros (e & He & Hs). exists e. split; [done|].
      intros c'. by eapply Hk.
    + intros (e & He & Hs). eauto.
  - rewrite IH1.
    + split; intros (e & He & Hs); exists e; (split; [done|]);
        intros c'; [by eapply Hk, (Hs c) | apply Hs].
    + intros b' s' c1 c2. apply Hk.
Qed.

End MatcherFacts.

(** [MatchString] holds iff a match of the pattern occurs in the text. *)
Lemma exec_occurs (r : re) :
  ∀ (s : list string) (bot : bool), is_Some (exec r bot s) ↔ occurs r bot s.
Proof.
  assert (Hrun : ∀ s bot,
    is_Some (run (Group 0 "" r) bot s (replicate (length (SubexpNames r)) "")
               (λ _ s' c, Some (c, s')))
    ↔ reach r bot s ≠ []).
  { intros s bot. rewrite run_reach by (intros; by eexists). simpl. split.
    - intros (e & He & _) Hnil. rewrite Hnil in He. by apply elem_of_nil in He.
    - intros Hne. destruct (reach r bot s) as [|e l]; [done|].
      exists e. split; [by left | intros; by eexists]. }
  induction s as [|x s IH]; intros bot.
  - cbn [exec occurs]. rewrite <- Hrun.
    destruct (run _ _ _ _ _) as [m|].
    + split; [by left | by eexists].
    + split; [by intros [? ?] | by intros [[? ?]|?]].
  - cbn [exec occurs]. rewrite <- Hrun, <- IH.
    destruct (run _ _ _ _ _) as [m|].
    + split; [by left | by eexists].
    + split; [by right | by intros [[? ?]|?]].
Qed.

Lemma MatchString_occurs (r : re) (text : string) :
  MatchString r text = true ↔ occurs r true (Utf8.runes text).
Proof. unfold MatchString. by rewrite bool_decide_eq_true, exec_occurs. Qed.

(** ** Keywords *)

Lemma not_nil_elem {B : Type} (l : list B) : l ≠ [] ↔ ∃ x, x ∈ l.
Proof.
  destruct l as [|x l]; split; try done.
  - by intros (x & ?%elem_of_nil).
  - intros _. exists x. by left.
Qed.

(** A keyword pattern over an alternative matches where the pattern over one
    of the two keywords does. *)
Lemma reach_keyword_alt (k1 k2 : re) (bot : bool) (s : list string) :
  reach (keyword_pattern (Alt k1 k2)) bot s ≠ []
  ↔ reach (keyword_pattern k1) bot s ≠ []
    ∨ reach (keyword_pattern k2) bot s ≠ [].
Proof.
  rewrite !not_nil_elem. unfold keyword_pattern. cbn [reach].
  setoid_rewrite list_elem_of_bind. setoid_rewrite list_elem_of_bind.
  setoid_rewrite elem_of_app. split.
  - intros (x & e & (e' & Hx & [H1|H2]) & He); [left|right];
      exists x, e; (split; [|done]); by exists e'.
  - intros [(x & e & (e' & Hx & H1) & He)|(x & e & (e' & Hx & H2) & He)];
      exists x, e; (split; [|done]); exists e'; auto.
Qed.

Lemma occurs_keyword_alt (k1 k2 : re) :
  ∀ (s : list string) (bot : bool),
    occurs (keyword_pattern (Alt k1 k2)) bot s
    ↔ occurs (keyword_pattern k1) bot s ∨ occurs (keyword_pattern k2) bot s.
Proof.
  induction s as [|x s IH]; intros bot; cbn [occurs];
    rewrite reach_keyword_alt; [tauto|].
  rewrite IH. tauto.
Qed.

Lemma MatchString_keyword_alt (k1 k2 : re) (text : string) :
  MatchString (keyword_pattern (Alt k1 k2)) text
  = MatchString (keyword_pattern k1) text
    || MatchString (keyword_pattern k2) text.
Proof.
  apply eq_true_iff_eq.
  rewrite orb_true_iff, !MatchString_occurs. apply occurs_keyword_alt.
Qed.

Lemma MatchString_STATUS (text : string) :
  MatchString REG_EXP_STATUS text
  = whole_word "alive" text || whole_word "running" text
    || whole_word "up" text.
Proof.
  unfold whole_word. change REG_EXP_STATUS with
    (keyword_pattern (Alt (LitI "alive") (Alt (LitI "running") (LitI "up")))).
  rewrite !MatchString_keyword_alt. by rewrite orb_assoc.
Qed.

Lemma MatchString_TODAY (text : string) :
  MatchString REG_EXP_TODAY text
  = whole_word "heute" text || whole_word "today" text
    || whole_word "hunger" text.
Proof.
  unfold whole_word. change REG_EXP_TODAY with
    (keyword_pattern (Alt (LitI "heute") (Alt (LitI "today") (LitI "hunger")))).
  rewrite !MatchString_keyword_alt. by rewrite orb_assoc.
Qed.

Lemma MatchString_HELP (text : string) :
  MatchString REG_EXP_HELP text
  = MatchString
      (keyword_pattern
         (Cat (LitI "command") (Group 2 "" (Alt Empty (LitI "s"))))) text
    || whole_word "help" text.
Proof.
  unfold whole_word. change REG_EXP_HELP with
    (keyword_pattern
       (Alt (Cat (LitI "command") (Group 2 "" (Alt Empty (LitI "s"))))
          (LitI "help"))).
  by rewrite MatchString_keyword_alt.
Qed.

(** The chain of guards is the ordered table, read up to its first match. *)
Lemma classify_first_match (text : string) :
  classify text = first_match intent_table text.
Proof. reflexivity. Qed.

(** C5: the handler acts on the first group that matches, and on it only,
    in the order Status, Menu-today, Menu-tomorrow, Order, Legend, Help,
    Thanks, Unrecognized; a text that has both [help] and [today] as whole words,
    and none of [alive], [running], [up], matches the Help and the
    Menu-today patterns and is handled as Menu-today. *)
Theorem classifier_precedence :
  (∀ (E : Env) (post : Post),
     handleCommand post
     = dispatch (first_match intent_table (Message post)) post)
  ∧ ∀ text,
      whole_word "help" text = true →
      whole_word "today" text = true →
      whole_word "alive" text = false →
      whole_word "running" text = false →
      whole_word "up" text = false →
      MatchString REG_EXP_HELP text = true
      ∧ MatchString REG_EXP_TODAY text = true
      ∧ classify text = MenuToday
      ∧ ∀ (E : Env) (post : Post),
          Message post = text → handleCommand post = dispatch MenuToday post.
Proof.
  split.
  { intros E post. by rewrite handleCommand_dispatch, classify_first_match. }
  intros text Hhelp Htoday Halive Hrunning Hup.
  assert (Hs : MatchString REG_EXP_STATUS text = false)
    by (by rewrite MatchString_STATUS, Halive, Hrunning, Hup).
  assert (Ht : MatchString REG_EXP_TODAY text = true)
    by (rewrite MatchString_TODAY, Htoday; by rewrite orb_true_r).
  assert (Hc : classify text = MenuToday)
    by (unfold classify; by rewrite Hs, Ht).
  split_and!; [|done|done|].
  - rewrite MatchString_HELP, Hhelp. apply orb_true_r.
  - intros E post <-. by rewrite handleCommand_dispatch, Hc.
Qed.

Lemma classifier_precedence_witness :
  MatchString REG_EXP_HELP "help today" = true
  ∧ MatchString REG_EXP_TODAY "help today" = true
  ∧ classify "help today" = MenuToday
  ∧ ∀ (E : Env) (post : Post),
      Message post = "help today" →
      handleCommand post = dispatch MenuToday post.
Proof.
  apply (proj2 classifier_precedence "help today");
    vm_compute; reflexivity.
Defined.

(** ** Code points and bytes *)

Lemma byte_in_high (lo hi : N) (c : ascii) :
  below_RuneSelf c = true → (128 ≤ lo)%N → byte_in lo hi c = false.
Proof.
  unfold below_RuneSelf, byte_in. intros Hc%N.ltb_lt Hlo.
  apply andb_false_iff. left. apply N.leb_gt. lia.
Qed.

Lemma byte_in_low (lo hi : N) (c : ascii) :
  byte_in lo hi c = true → (128 ≤ lo)%N → below_RuneSelf c = false.
Proof.
  unfold below_RuneSelf, byte_in. intros [Hc%N.leb_le _]%andb_prop Hlo.
  apply N.ltb_ge. lia.
Qed.

(** A byte below [0x80] is a code point of its own. *)
Lemma runes_cons_single (c : ascii) (rest : string) :
  below_RuneSelf c = true →
  Utf8.runes (String c rest) = Utf8.single c :: Utf8.runes rest.
Proof.
  intros Hc.
  assert (H2 : ∀ b1, Utf8.two_ok c b1 = false).
  { intros b1. unfold Utf8.two_ok.
    by rewrite !(byte_in_high _ _ c) by first [done | lia]. }
  assert (H3 : ∀ b1 b2, Utf8.three_ok c b1 b2 = false).
  { intros b1 b2. unfold Utf8.three_ok.
    by rewrite !(byte_in_high _ _ c) by first [done | lia]. }
  assert (H4 : ∀ b1 b2 b3, Utf8.four_ok c b1 b2 b3 = false).
  { intros b1 b2 b3. unfold Utf8.four_ok.
    by rewrite !(byte_in_high _ _ c) by first [done | lia]. }
  destruct rest as [|b1 [|b2 [|b3 s4]]]; cbn [Utf8.runes];
    by rewrite ?H2, ?H3, ?H4.
Qed.

(** The first code point of a non-empty text: one byte, or a well-formed
    encoding of several bytes, none of which is below [0x80]. *)
Lemma runes_split (b0 : ascii) (s : string) :
  ∃ tail rest,
    s = tail +:+ rest
    ∧ Utf8.runes (String b0 s) = String b0 tail :: Utf8.runes rest
    ∧ (tail = ""
       ∨ Strings.all_bytes (λ b, negb (below_RuneSelf b)) (String b0 tail)
         = true).
Proof.
  assert (Hc : ∀ b, Utf8.cont b = true → negb (below_RuneSelf b) = true).
  { intros b Hb. by rewrite (byte_in_low _ _ _ Hb) by lia. }
  assert (H2 : ∀ b1, Utf8.two_ok b0 b1 = true →
            negb (below_RuneSelf b0) = true ∧ negb (below_RuneSelf b1) = true).
  { intros b1 [H0 H1]%andb_prop. split; [|by apply Hc].
    by rewrite (byte_in_low _ _ _ H0) by lia. }
  assert (H3 : ∀ b1 b2, Utf8.three_ok b0 b1 b2 = true →
            negb (below_RuneSelf b0) = true ∧ negb (below_RuneSelf b1) = true
            ∧ negb (below_RuneSelf b2) = true).
  { intros b1 b2 [H01 H2']%andb_prop. split_and!; [| |by apply Hc].
    - apply orb_prop in H01 as [[[H0 _]%andb_prop|[H0 _]%andb_prop]%orb_prop
                               |[H0 _]%andb_prop];
        [| apply orb_prop in H0 as [H0|H0] |];
        by rewrite (byte_in_low _ _ _ H0) by lia.
    - apply orb_prop in H01 as [[[_ H1]%andb_prop|[_ H1]%andb_prop]%orb_prop
                               |[_ H1]%andb_prop];
        by rewrite (byte_in_low _ _ _ H1) by lia. }
  assert (H4 : ∀ b1 b2 b3, Utf8.four_ok b0 b1 b2 b3 = true →
            negb (below_RuneSelf b0) = true ∧ negb (below_RuneSelf b1) = true
            ∧ negb (below_RuneSelf b2) = true
            ∧ negb (below_RuneSelf b3) = true).
  { intros b1 b2 b3 [[H01 H2']%andb_prop H3']%andb_prop.
    split_and!; [| |by apply Hc|by apply Hc].
    - apply orb_prop in H01 as [[[H0 _]%andb_prop|[H0 _]%andb_prop]%orb_prop
                               |[H0 _]%andb_prop];
        by rewrite (byte_in_low _ _ _ H0) by lia.
    - apply orb_prop in H01 as [[[_ H1]%andb_prop|[_ H1]%andb_prop]%orb_prop
                               |[_ H1]%andb_prop];
        by rewrite (byte_in_low _ _ _ H1) by lia. }
  destruct s as [|b1 s2].
  { exists "", "". by split_and!; [| |left]. }
  cbn [Utf8.runes]. destruct (Utf8.two_ok b0 b1) eqn:E2.
  { destruct (H2 _ E2) as [? ?].
    exists (String b1 ""), s2. split_and!; [done|done|right].
    simpl. by rewrite H, H0. }
  destruct s2 as [|b2 s3].
  { exists "", (String b1 ""). by split_and!; [| |left]. }
  destruct (Utf8.three_ok b0 b1 b2) eqn:E3.
  { destruct (H3 _ _ E3) as (? & ? & ?).
    exists (String b1 (String b2 "")), s3. split_and!; [done|done|right].
    simpl. by rewrite H, H0, H1. }
  destruct s3 as [|b3 s4].
  { exists "", (String b1 (String b2 "")). by split_and!; [| |left]. }
  destruct (Utf8.four_ok b0 b1 b2 b3) eqn:E4.
  { destruct (H4 _ _ _ E4) as (? & ? & ? & ?).
    exists (String b1 (String b2 (String b3 ""))), s4.
    split_and!; [done|done|right]. simpl. by rewrite H, H0, H1, H5. }
  exists "", (String b1 (String b2 (String b3 s4))). by split_and!; [| |left].
Qed.

Lemma string_length_app (a b : string) :
  String.length (a +:+ b) = String.length a + String.length b.
Proof.
  induction a as [|x a IH]; [done|].
  rewrite string_app_cons. simpl. by rewrite IH.
Qed.

(** Induction on a text, one code point at a time. *)
Lemma runes_ind (P : string → Prop) :
  P "" →
  (∀ b0 tail rest,
     Utf8.runes (String b0 (tail +:+ rest))
     = String b0 tail :: Utf8.runes rest →
     (tail = ""
      ∨ Strings.all_bytes (λ b, negb (below_RuneSelf b)) (String b0 tail)
        = true) →
     P rest → P (String b0 (tail +:+ rest))) →
  ∀ s, P s.
Proof.
  intros Hnil Hstep s.
  remember (String.length s) as n eqn:Hn.
  revert s Hn. induction (lt_wf n) as [n _ IH]. intros s Hn.
  destruct s as [|b0 s]; [done|].
  destruct (runes_split b0 s) as (tail & rest & -> & Hr & Ht).
  apply Hstep; [done|done|].
  apply (IH (String.length rest)); [|done].
  subst n. simpl. rewrite string_length_app. lia.
Qed.

(** The code points of a text are made of its bytes, in order. *)
Lemma runes_bytes (s : string) : Utf8.bytes (Utf8.runes s) = s.
Proof.
  induction s as [|b0 tail rest Hr _ IH] using runes_ind; [done|].
  rewrite Hr. cbn [Utf8.bytes]. by rewrite IH, string_app_cons.
Qed.

(** The first code point of a text is one byte only if the text starts with
    that byte. *)
Lemma runes_head_single (c : ascii) (msg : string) (s' : list string) :
  Utf8.runes msg = Utf8.single c :: s' →
  ∃ rest, msg = String c rest ∧ s' = Utf8.runes rest.
Proof.
  destruct msg as [|b0 s]; [done|].
  destruct (runes_split b0 s) as (tail & rest & -> & Hr & _).
  rewrite Hr. unfold Utf8.single. intros [= -> -> <-]. by exists rest.
Qed.

Lemma ContainsByte_app (a b : string) (c : ascii) :
  Strings.ContainsByte (a +:+ b) c
  = Strings.ContainsByte a c || Strings.ContainsByte b c.
Proof.
  induction a as [|x a IH]; [done|].
  rewrite string_app_cons. simpl. by rewrite IH, orb_assoc.
Qed.

Lemma high_bytes_no_LF (s : string) :
  Strings.all_bytes (λ b, negb (below_RuneSelf b)) s = true →
  Strings.ContainsByte s LF = false.
Proof.
  induction s as [|x s IH]; [done|]. simpl.
  intros [Hx Hs]%andb_prop. rewrite (IH Hs), orb_false_r.
  apply Ascii.eqb_neq. intros ->. done.
Qed.

(** A text of code points other than the line feed has no line-feed
    byte. *)
Lemma runes_dot (s : string) :
  forallb dot (Utf8.runes s) = true → Strings.ContainsByte s LF = false.
Proof.
  induction s as [|b0 tail rest Hr Ht IH] using runes_ind; [done|].
  rewrite Hr. cbn [forallb]. intros [Hd Hrest]%andb_prop.
  change (String b0 (tail +:+ rest)) with (String b0 tail +:+ rest).
  rewrite ContainsByte_app, (IH Hrest), orb_false_r.
  destruct Ht as [->|Ht]; [|by apply high_bytes_no_LF].
  unfold dot, is_rune in Hd. simpl. rewrite orb_false_r.
  apply Ascii.eqb_neq. intros ->. by rewrite String.eqb_refl in Hd.
Qed.

(** ** The order pattern *)

Section OrderPattern.
Context {A : Type}.
Implicit Types (k : bool → list string → submatch → option A).

(** A literal byte matches at the front of a text that starts with it. *)
Lemma run_byte (x : ascii) (msg : string) (bot : bool) (c : submatch) k a :
  run (Class (is_rune x)) bot (Utf8.runes msg) c k = Some a →
  ∃ rest, msg = String x rest ∧ k false (Utf8.runes rest) c = Some a.
Proof.
  simpl. destruct (Utf8.runes msg) as [|r s'] eqn:Hr; [done|].
  unfold is_rune. destruct (String.eqb_spec r (String x "")) as [->|];
    [|done].
  apply runes_head_single in Hr as (rest & -> & ->). eauto.
Qed.

Lemma run_Lit (l : string) :
  ∀ (msg : string) (bot : bool) (c : submatch) k a,
    run (Lit l) bot (Utf8.runes msg) c k = Some a →
    ∃ rest bot', msg = l +:+ rest ∧ k bot' (Utf8.runes rest) c = Some a.
Proof.
  induction l as [|x l IH]; intros msg bot c k a Hrun.
  - exists msg, bot. by split.
  - cbn [Lit] in Hrun. change (run (Cat ?r1 ?r2) ?b ?s ?c ?k)
      with (run r1 b s c (λ b' s' c', run r2 b' s' c' k)) in Hrun.
    apply run_byte in Hrun as (rest & -> & Hrun).
    apply IH in Hrun as (rest' & bot' & -> & Hrun).
    exists rest', bot'. by split.
Qed.

(** A word byte matches at the front of a text that starts with one. *)
Lemma run_word (msg : string) (bot : bool) (c : submatch) k a :
  run (Class word) bot (Utf8.runes msg) c k = Some a →
  ∃ x rest, msg = String x rest ∧ word_byte x = true
            ∧ k false (Utf8.runes rest) c = Some a.
Proof.
  simpl. destruct (Utf8.runes msg) as [|r s'] eqn:Hr; [done|].
  destruct r as [|x [|y r]]; simpl; try done.
  destruct (word_byte x) eqn:Hx; [|done].
  apply (runes_head_single x) in Hr as (rest & -> & ->). eauto.
Qed.

Lemma star_word (k' : bool → list string → option A) a :
  ∀ (s : list string) (msg : string) (bot : bool),
    Utf8.runes msg = s →
    star word k' bot s = Some a →
    ∃ w rest bot', msg = w +:+ rest
                   ∧ Strings.all_bytes word_byte w = true
                   ∧ k' bot' (Utf8.runes rest) = Some a.
Proof.
  induction s as [|r s IH]; intros msg bot Hr Hrun.
  - exists "", msg, bot. rewrite Hr. by split_and!.
  - assert (Hstop : k' bot (r :: s) = Some a →
      ∃ w rest bot', msg = w +:+ rest
                     ∧ Strings.all_bytes word_byte w = true
                     ∧ k' bot' (Utf8.runes rest) = Some a).
    { intros Hk. exists "", msg, bot. rewrite Hr. by split_and!. }
    cbn [star] in Hrun. destruct (word r) eqn:Hw; [|by apply Hstop].
    destruct (star word k' false s) as [a'|] eqn:Hs; [|by apply Hstop].
    injection Hrun as ->.
    destruct r as [|x [|y r]]; simpl in Hw; try done.
    apply (runes_head_single x) in Hr as (rest & -> & Hrest).
    destruct (IH rest false (eq_sym Hrest) Hs) as (w & rest' & bot' & -> & Hall & Hk).
    exists (String x w), rest', bot'. split_and!; [done| |done].
    simpl. by rewrite Hw, Hall.
Qed.

(** A repetition that has to stop at the end of the text takes all of
    it. *)
Lemma star_to_end (p : string → bool) (k' : bool → list string → option A)
    a :
  (∀ bot' x s', k' bot' (x :: s') = None) →
  ∀ (s : list string) (bot : bool),
    star p k' bot s = Some a →
    forallb p s = true ∧ ∃ bot', k' bot' [] = Some a.
Proof.
  intros Hend.
  induction s as [|r s IH]; intros bot Hrun; cbn [star] in Hrun.
  - split; [done | by exists bot].
  - rewrite Hend in Hrun. destruct (p r) eqn:Hp; [|done].
    destruct (star p k' false s) as [a'|] eqn:Hs; [|done].
    injection Hrun as ->. apply IH in Hs as [Hall Hf].
    split; [|done]. simpl. by rewrite Hp, Hall.
Qed.

End OrderPattern.

(** The code points of bytes below [0x80] in front of a text. *)
Lemma runes_ascii_app (l rest : string) :
  Strings.all_bytes below_RuneSelf l = true →
  Utf8.runes (l +:+ rest)
  = map Utf8.single (list_ascii_of_string l) ++ Utf8.runes rest.
Proof.
  induction l as [|x l IH]; [done|].
  intros Hl. simpl in Hl. apply andb_prop in Hl as [Hx Hl].
  change (String x l +:+ rest) with (String x (l +:+ rest)).
  rewrite runes_cons_single by done. rewrite IH by done. done.
Qed.

(** What a group records when it has matched the bytes [l] below [0x80]. *)
Lemma group_bytes (l rest : string) :
  Strings.all_bytes below_RuneSelf l = true →
  Utf8.bytes (take (length (Utf8.runes (l +:+ rest))
                    - length (Utf8.runes rest))
                (Utf8.runes (l +:+ rest))) = l.
Proof.
  intros Hl. rewrite (runes_ascii_app _ _ Hl), length_app.
  replace (_ + _ - _) with (length (map Utf8.single (list_ascii_of_string l)))
    by lia.
  rewrite take_app_length. clear Hl.
  induction l as [|x l IH]; [done|]. simpl. by rewrite IH.
Qed.

Lemma exec_order_not_at_start (s : list string) :
  exec REG_EXP_ORDER false s = None.
Proof. induction s as [|x s IH]; [done|]. cbn. apply IH. Qed.

(** The defining equations of the matcher. *)
Section RunEquations.
Context {A : Type}.
Implicit Types (k : bool → list string → submatch → option A).

Lemma run_Cat r1 r2 bot s c k :
  run (Cat r1 r2) bot s c k
  = run r1 bot s c (λ bot' s' c', run r2 bot' s' c' k).
Proof. reflexivity. Qed.

Lemma run_Alt r1 r2 bot s c k :
  run (Alt r1 r2) bot s c k
  = match run r1 bot s c k with
    | Some a => Some a
    | None => run r2 bot s c k
    end.
Proof. reflexivity. Qed.

Lemma run_Group i n r bot s c k :
  run (Group i n r) bot s c k
  = run r bot s c (λ bot' s' c',
      k bot' s' (<[i := Utf8.bytes (take (length s - length s') s)]> c')).
Proof. reflexivity. Qed.

Lemma run_Star p bot s c k :
  run (Star p) bot s c k = star p (λ bot' s', k bot' s' c) bot s.
Proof. reflexivity. Qed.

Lemma run_Bol s c k : run Bol true s c k = k true s c.
Proof. reflexivity. Qed.

Lemma run_Empty bot s c k : run Empty bot s c k = k bot s c.
Proof. reflexivity. Qed.

(** One of four literals. *)
Lemma run_one_of (l1 l2 l3 l4 msg : string) bot c k a :
  run (Alt (Lit l1) (Alt (Lit l2) (Alt (Lit l3) (Lit l4)))) bot
    (Utf8.runes msg) c k = Some a →
  ∃ l rest bot',
    l ∈ [l1; l2; l3; l4] ∧ msg = l +:+ rest
    ∧ k bot' (Utf8.runes rest) c = Some a.
Proof.
  rewrite !run_Alt. intros Hrun.
  destruct (run (Lit l1) _ _ _ _) eqn:H1.
  { injection Hrun as ->. apply run_Lit in H1 as (rest & bot' & -> & Hk).
    exists l1, rest, bot'. split_and!; [set_solver|done|done]. }
  destruct (run (Lit l2) _ _ _ _) eqn:H2.
  { injection Hrun as ->. apply run_Lit in H2 as (rest & bot' & -> & Hk).
    exists l2, rest, bot'. split_and!; [set_solver|done|done]. }
  destruct (run (Lit l3) _ _ _ _) eqn:H3.
  { injection Hrun as ->. apply run_Lit in H3 as (rest & bot' & -> & Hk).
    exists l3, rest, bot'. split_and!; [set_solver|done|done]. }
  apply run_Lit in Hrun as (rest & bot' & -> & Hk).
  exists l4, rest, bot'. split_and!; [set_solver|done|done].
Qed.

(** The rest of the line: the group takes the text up to its end, which
    has no line feed. *)
Lemma run_rest_of_line (i : nat) (n content : string) bot c k a :
  run (Cat (Group i n (Star dot)) Eol) bot (Utf8.runes content) c k = Some a →
  forallb dot (Utf8.runes content) = true
  ∧ ∃ bot', k bot' [] (<[i := content]> c) = Some a.
Proof.
  rewrite run_Cat, run_Group, run_Star. intros Hrun.
  apply star_to_end in Hrun as [Hall [bot' Hk]]; [|done].
  split; [done|]. exists bot'. simpl in Hk.
  by rewrite Nat.sub_0_r, firstn_all, runes_bytes in Hk.
Qed.
End RunEquations.

(** The shape of a text that the order pattern matches, with the strings
    of its groups. *)
Lemma exec_order_inv (msg : string) (m : submatch) (left_over : list string) :
  exec REG_EXP_ORDER true (Utf8.runes msg) = Some (m, left_over) →
  ∃ mention cmd sep content,
    msg = "@" +:+ mention +:+ " order " +:+ cmd +:+ sep +:+ content
    ∧ mention ≠ ""
    ∧ Strings.all_bytes word_byte mention = true
    ∧ cmd ∈ ["open"; "submit"; "list"; "close"]
    ∧ (sep = "" ∨ sep = " ")
    ∧ Strings.ContainsByte content LF = false
    ∧ m = [msg; cmd; content]
    ∧ left_over = [].
Proof.
  intros Hexec.
  assert (Hrun :
    run (Group 0 "" REG_EXP_ORDER) true (Utf8.runes msg) (replicate 3 "")
      (λ _ s' c, Some (c, s')) = Some (m, left_over)).
  { destruct (Utf8.runes msg) as [|x s]; cbn [exec] in Hexec.
    - change (length (SubexpNames REG_EXP_ORDER)) with 3 in Hexec.
      by destruct (run _ _ _ _ _).
    - change (length (SubexpNames REG_EXP_ORDER)) with 3 in Hexec.
      destruct (run _ _ _ _ _); [done|].
      by rewrite exec_order_not_at_start in Hexec. }
  clear Hexec. unfold REG_EXP_ORDER, Plus, Quest in Hrun.
  rewrite run_Group, run_Cat, run_Bol, run_Cat in Hrun.
  apply run_Lit in Hrun as (rest1 & b1 & Hmsg & Hrun).
  rewrite !run_Cat in Hrun.
  apply run_word in Hrun as (x & rest2 & -> & Hx & Hrun).
  rewrite run_Star in Hrun.
  apply (star_word _ _ _ rest2 false eq_refl) in Hrun
    as (w & rest3 & b3 & -> & Hw & Hrun).
  rewrite run_Cat in Hrun.
  apply run_Lit in Hrun as (rest4 & b4 & -> & Hrun).
  rewrite run_Cat, run_Group in Hrun.
  apply run_one_of in Hrun as (cmd & rest5 & b5 & Hcmd & -> & Hrun).
  assert (Hascii : Strings.all_bytes below_RuneSelf cmd = true).
  { repeat (apply elem_of_cons in Hcmd as [->|Hcmd]; [done|]).
    by apply elem_of_nil in Hcmd. }
  rewrite (group_bytes _ _ Hascii) in Hrun.
  assert (Htail : ∃ sep content,
    rest5 = sep +:+ content ∧ (sep = "" ∨ sep = " ")
    ∧ forallb dot (Utf8.runes content) = true
    ∧ Some (<[0 := msg]> (<[2 := content]> (<[1 := cmd]> (replicate 3 ""))),
            @nil string)
      = Some (m, left_over)).
  { rewrite run_Cat, run_Alt in Hrun.
    destruct (run (Lit " ") _ _ _ _) eqn:Hsp.
    - injection Hrun as ->.
      apply run_Lit in Hsp as (content & b6 & -> & Hrun).
      apply run_rest_of_line in Hrun as (Hdot & b7 & Hrun).
      exists " ", content. split_and!; [done|by right|done|].
      by rewrite Nat.sub_0_r, firstn_all, runes_bytes in Hrun.
    - rewrite run_Empty in Hrun.
      apply run_rest_of_line in Hrun as (Hdot & b7 & Hrun).
      exists "", rest5. split_and!; [done|by left|done|].
      by rewrite Nat.sub_0_r, firstn_all, runes_bytes in Hrun. }
  destruct Htail as (sep & content & -> & Hsep & Hdot & [= <- <-]).
  exists (String x w), cmd, sep, content.
  split_and!; try done.
  - simpl. by rewrite Hx, Hw.
  - by apply runes_dot.
Qed.

(** The fields that [handleOrder] reads off a text that the order pattern
    matches. *)
Lemma order_fields_shape (text : string) :
  MatchString REG_EXP_ORDER text = true →
  ∃ mention cmd sep content,
    text = "@" +:+ mention +:+ " order " +:+ cmd +:+ sep +:+ content
    ∧ mention ≠ ""
    ∧ Strings.all_bytes word_byte mention = true
    ∧ cmd ∈ ["open"; "submit"; "list"; "close"]
    ∧ (sep = "" ∨ sep = " ")
    ∧ Strings.ContainsByte content LF = false
    ∧ order_fields text = (cmd, content).
Proof.
  unfold MatchString. rewrite bool_decide_eq_true. intros [[m rest] Hexec].
  destruct (exec_order_inv _ _ _ Hexec)
    as (mention & cmd & sep & content & Htext & Hne & Hw & Hcmd & Hsep & Hlf
        & -> & ->).
  exists mention, cmd, sep, content. split_and!; try done.
  unfold order_fields, FindAllStringSubmatch.
  assert (Hs : ∃ s, Utf8.runes text = "@" :: s).
  { rewrite Htext. change ("@" +:+ ?r) with (String "@" r).
    rewrite runes_cons_single by done. by eexists. }
  destruct Hs as [s Hs]. rewrite Hs in Hexec |- *.
  cbn [allMatches]. rewrite Hexec. reflexivity.
Qed.

(** C7, as amended: the Order intent is produced only for a text of the
    shape [@<word> order <open|submit|list|close>], followed by the rest of
    the line after at most one space taken as separator, where [<word>] is
    any non-empty run of letters, digits and underscores: the pattern does
    not compare it with the name of the bot.  The sub-command and the
    content of the intent are the ones of the text. *)
Theorem order_intent_shape (text cmd content : string) :
  classify text = Order cmd content →
  ∃ mention sep,
    text = "@" +:+ mention +:+ " order " +:+ cmd +:+ sep +:+ content
    ∧ mention ≠ ""
    ∧ Strings.all_bytes word_byte mention = true
    ∧ cmd ∈ ["open"; "submit"; "list"; "close"]
    ∧ (sep = "" ∨ sep = " ")
    ∧ Strings.ContainsByte content LF = false.
Proof.
  unfold classify.
  destruct (MatchString REG_EXP_STATUS text); [intros [=]|].
  destruct (MatchString REG_EXP_TODAY text); [intros [=]|].
  destruct (MatchString REG_EXP_TOMORROW text); [intros [=]|].
  destruct (MatchString REG_EXP_ORDER text) eqn:Hm.
  - intros [= <- <-].
    destruct (order_fields_shape _ Hm)
      as (mention & c & sep & rest & Htext & Hne & Hw & Hcmd & Hsep & Hlf
          & Hf).
    rewrite Hf. exists mention, sep. split_and!; assumption.
  - destruct (MatchString REG_EXP_LEGEND text); [intros [=]|].
    destruct (MatchString REG_EXP_HELP text); [intros [=]|].
    destruct (MatchString REG_EXP_THANKS text); intros [=].
Qed.

Lemma order_intent_shape_witness :
  ∃ mention sep,
    "@mensabot order open Pizza fuer alle"
    = "@" +:+ mention +:+ " order " +:+ "open" +:+ sep +:+ "Pizza fuer alle"
    ∧ mention ≠ "".
Proof.
  destruct (order_intent_shape "@mensabot order open Pizza fuer alle"
              "open" "Pizza fuer alle")
    as (mention & sep & Htext & Hne & _).
  - vm_compute. reflexivity.
  - by exists mention, sep.
Defined.

(** C7, the counterexample: a text whose leading mention is [@anna] is
    classified as an order command, and the bot, named [mensabot] and
    mentioned at the end of the text, answers it with the listing. *)
Lemma order_for_other_mention_counterexample :
  classify "@anna order list @mensabot" = Order "list" "@mensabot"
  ∧ MatchString (spec_order_pattern "mensabot") "@anna order list @mensabot"
    = false
  ∧ MatchString (spec_order_pattern "mensabot") "@mensabot order list" = true
  ∧ ∃ w', handleWebSocketEvent (H:=sample_env)
            (posted_event (post_of "uc" "@anna order list @mensabot"))
            open_world
          = Ok () w'
      ∧ length (posted w') = 1.
Proof.
  split_and!; try (vm_compute; reflexivity).
  eexists. split; vm_compute; reflexivity.
Qed.

(** ** Whitespace in dish names *)

Lemma string_pair_ind (P : string → Prop) :
  P "" →
  (∀ x, P (String x "")) →
  (∀ x y s, P s → P (String y s) → P (String x (String y s))) →
  ∀ s, P s.
Proof.
  intros Hnil Hone Hstep.
  assert (H : ∀ s, P s ∧ ∀ x, P (String x s)).
  { induction s as [|y s [IH1 IH2]]; split; auto. }
  apply H.
Qed.

Section Replace2Facts.
Variables a b n : ascii.

Lemma Replace2_nil : Replace2 a b n "" = "".
Proof. reflexivity. Qed.

Lemma Replace2_one (x : ascii) : Replace2 a b n (String x "") = String x "".
Proof.
  unfold Replace2, Strings.Replace. simpl.
  by destruct (Ascii.eqb x a).
Qed.

Lemma Replace2_cons (x y : ascii) (s : string) :
  Replace2 a b n (String x (String y s))
  = if Ascii.eqb x a && Ascii.eqb y b
    then String n (Replace2 a b n s)
    else String x (Replace2 a b n (String y s)).
Proof.
  unfold Replace2, Strings.Replace.
  cbn [Strings.Replace_go Strings.HasPrefix String.length Nat.sub].
  rewrite andb_true_r.
  destruct (Ascii.eqb x a && Ascii.eqb y b); reflexivity.
Qed.

(** Without an occurrence there is nothing to replace. *)
Lemma Replace2_absent (u : string) :
  nopair a b u = true → Replace2 a b n u = u.
Proof.
  induction u as [|x|x y s _ IH] using string_pair_ind; intros Hu.
  - done.
  - apply Replace2_one.
  - rewrite Replace2_cons. cbn [nopair] in Hu.
    apply andb_prop in Hu as [Hxy Hu].
    apply negb_true_iff in Hxy. rewrite Hxy. by rewrite IH.
Qed.

Lemma nopair_Contains (u : string) :
  Strings.Contains u (String a (String b "")) = negb (nopair a b u).
Proof.
  induction u as [|x u IH]; [done|].
  cbn [Strings.Contains]. rewrite IH. destruct u as [|y u].
  - simpl. by rewrite andb_false_r.
  - cbn [nopair Strings.HasPrefix]. rewrite andb_true_r.
    by destruct (Ascii.eqb x a && Ascii.eqb y b), (nopair a b (String y u)).
Qed.

End Replace2Facts.

Lemma nopair_cons (p q x : ascii) (v : string) :
  nopair p q (String x v)
  = negb (Ascii.eqb x p && from_option (λ z, Ascii.eqb z q) false (hd v))
    && nopair p q v.
Proof. destruct v as [|z v]; simpl; [by rewrite andb_false_r | done]. Qed.

Lemma nopair_tail (p q x : ascii) (v : string) :
  nopair p q (String x v) = true → nopair p q v = true.
Proof. rewrite nopair_cons. by intros [_ ?]%andb_prop. Qed.

(** *** Dropping the second byte of a pair: [ab] becomes [a] *)

Section DropSecond.
Variables a b : ascii.
Hypothesis a_not_b : a ≠ b.

Lemma drop_second_hd (x : ascii) (s : string) :
  hd (Replace2 a b a (String x s)) = Some x.
Proof.
  destruct s as [|y s]; [by rewrite Replace2_one|].
  rewrite Replace2_cons.
  destruct (Ascii.eqb_spec x a) as [->|]; [|done].
  by destruct (Ascii.eqb y b).
Qed.

(** A pair that does not start with [a] is not created. *)
Lemma drop_second_keeps (p q : ascii) (u : string) :
  p ≠ a → nopair p q u = true → nopair p q (Replace2 a b a u) = true.
Proof.
  intros Hp.
  induction u as [|x|x y s IH1 IH2] using string_pair_ind; intros Hu.
  - done.
  - by rewrite Replace2_one.
  - rewrite Replace2_cons.
    destruct (Ascii.eqb x a && Ascii.eqb y b) eqn:Hm.
    + rewrite nopair_cons, IH1 by eauto using nopair_tail.
      by rewrite (proj2 (Ascii.eqb_neq a p)) by done.
    + rewrite nopair_cons, drop_second_hd, IH2 by eauto using nopair_tail.
      rewrite nopair_cons in Hu. simpl in *.
      by apply andb_prop in Hu as [-> _].
Qed.

(** Where no [b] follows a [b], no [b] follows an [a] afterwards. *)
Lemma drop_second_clears (u : string) :
  nopair b b u = true → nopair a b (Replace2 a b a u) = true.
Proof.
  induction u as [|x|x y s IH1 IH2] using string_pair_ind; intros Hu.
  - done.
  - by rewrite Replace2_one.
  - rewrite Replace2_cons.
    destruct (Ascii.eqb x a && Ascii.eqb y b) eqn:Hm.
    + apply andb_prop in Hm as [_ ->%Ascii.eqb_eq].
      pose proof (nopair_tail _ _ _ _ Hu) as Hu'.
      rewrite nopair_cons, IH1 by eauto using nopair_tail.
      rewrite andb_true_r. destruct s as [|z s]; [by rewrite andb_false_r|].
      rewrite drop_second_hd. simpl.
      rewrite nopair_cons in Hu'. simpl in Hu'.
      apply andb_prop in Hu' as [Hbz _]. rewrite Ascii.eqb_refl in Hbz.
      simpl in Hbz. apply negb_true_iff in Hbz. rewrite Hbz.
      by rewrite andb_false_r.
    + rewrite nopair_cons, drop_second_hd, IH2 by eauto using nopair_tail.
      simpl. by rewrite Hm.
Qed.

Lemma drop_second_starts (u : string) :
  starts_clean u = true → starts_clean (Replace2 a b a u) = true.
Proof.
  destruct u as [|x s]; [done|]. simpl. intros Hx.
  pose proof (drop_second_hd x s) as Hhd.
  destruct (Replace2 a b a (String x s)) as [|z v]; [done|].
  by injection Hhd as ->.
Qed.

Lemma drop_second_ends (u : string) :
  in_cutset b = true →
  ends_clean u = true → ends_clean (Replace2 a b a u) = true.
Proof.
  intros Hb.
  induction u as [|x|x y s IH1 IH2] using string_pair_ind; intros Hu.
  - done.
  - by rewrite Replace2_one.
  - rewrite Replace2_cons.
    destruct (Ascii.eqb x a && Ascii.eqb y b) eqn:Hm.
    + apply andb_prop in Hm as [_ ->%Ascii.eqb_eq].
      destruct s as [|z s]; [simpl in Hu; by rewrite Hb in Hu|].
      pose proof (drop_second_hd z s) as Hhd.
      specialize (IH1 Hu).
      destruct (Replace2 a b a (String z s)) as [|z' v]; [done|]. done.
    + pose proof (drop_second_hd y s) as Hhd.
      specialize (IH2 Hu).
      destruct (Replace2 a b a (String y s)) as [|z' v]; [done|]. done.
Qed.

End DropSecond.

(** *** Dropping the first byte of a pair: [ab] becomes [b] *)

Section DropFirst.
Variables a b : ascii.
Hypothesis a_not_b : a ≠ b.

Lemma drop_first_hd (x : ascii) (s : string) :
  hd (Replace2 a b b (String x s)) = Some x
  ∨ (x = a ∧ hd (Replace2 a b b (String x s)) = Some b).
Proof.
  destruct s as [|y s]; [left; by rewrite Replace2_one|].
  rewrite Replace2_cons.
  destruct (Ascii.eqb_spec x a) as [->|]; [|by left].
  destruct (Ascii.eqb y b); [by right | by left].
Qed.

(** A pair that does not end with [b] is not created. *)
Lemma drop_first_keeps (p q : ascii) (u : string) :
  q ≠ b → nopair p q u = true → nopair p q (Replace2 a b b u) = true.
Proof.
  intros Hq. assert (Hbq : Ascii.eqb b q = false)
    by (apply Ascii.eqb_neq; congruence).
  induction u as [|x|x y s IH1 IH2] using string_pair_ind; intros Hu.
  - done.
  - by rewrite Replace2_one.
  - rewrite Replace2_cons.
    destruct (Ascii.eqb x a && Ascii.eqb y b) eqn:Hm.
    + apply andb_prop in Hm as [_ ->%Ascii.eqb_eq].
      pose proof (nopair_tail _ _ _ _ Hu) as Hu'.
      rewrite nopair_cons, IH1 by eauto using nopair_tail.
      rewrite andb_true_r. destruct s as [|z s]; [by rewrite andb_false_r|].
      destruct (drop_first_hd z s) as [->|[_ ->]]; simpl.
      * rewrite nopair_cons in Hu'. simpl in Hu'.
        by apply andb_prop in Hu' as [-> _].
      * by rewrite Hbq, andb_false_r.
    + rewrite nopair_cons, IH2 by eauto using nopair_tail.
      rewrite andb_true_r.
      destruct (drop_first_hd y s) as [->|[_ ->]]; simpl.
      * rewrite nopair_cons in Hu. simpl in Hu.
        by apply andb_prop in Hu as [-> _].
      * by rewrite Hbq, andb_false_r.
Qed.

(** Where no [a] follows an [a], no [b] follows an [a] afterwards. *)
Lemma drop_first_clears (u : string) :
  nopair a a u = true → nopair a b (Replace2 a b b u) = true.
Proof.
  assert (Hba : Ascii.eqb b a = false)
    by (apply Ascii.eqb_neq; congruence).
  induction u as [|x|x y s IH1 IH2] using string_pair_ind; intros Hu.
  - done.
  - by rewrite Replace2_one.
  - rewrite Replace2_cons.
    destruct (Ascii.eqb x a && Ascii.eqb y b) eqn:Hm.
    + rewrite nopair_cons, IH1 by eauto using nopair_tail.
      by rewrite Hba.
    + rewrite nopair_cons, IH2 by eauto using nopair_tail.
      rewrite andb_true_r.
      destruct (drop_first_hd y s) as [->|[-> ->]]; simpl.
      * by rewrite Hm.
      * rewrite Ascii.eqb_refl, andb_true_r.
        rewrite nopair_cons in Hu. simpl in Hu.
        apply andb_prop in Hu as [Hx _].
        by rewrite Ascii.eqb_refl, andb_true_r in Hx.
Qed.

Lemma drop_first_starts (u : string) :
  in_cutset a = true →
  starts_clean u = true → starts_clean (Replace2 a b b u) = true.
Proof.
  intros Ha. destruct u as [|x s]; [done|]. simpl. intros Hx.
  destruct (drop_first_hd x s) as [Hhd|[-> _]]; [|by rewrite Ha in Hx].
  destruct (Replace2 a b b (String x s)) as [|z v]; [done|].
  by injection Hhd as ->.
Qed.

Lemma drop_first_ends (u : string) :
  in_cutset b = false →
  ends_clean u = true → ends_clean (Replace2 a b b u) = true.
Proof.
  intros Hb.
  induction u as [|x|x y s IH1 IH2] using string_pair_ind; intros Hu.
  - done.
  - by rewrite Replace2_one.
  - rewrite Replace2_cons.
    destruct (Ascii.eqb x a && Ascii.eqb y b) eqn:Hm.
    + destruct s as [|z s]; [simpl; by rewrite Hb|].
      specialize (IH1 Hu).
      destruct (drop_first_hd z s) as [Hhd|[_ Hhd]];
        by destruct (Replace2 a b b (String z s)) as [|z' v].
    + specialize (IH2 Hu).
      destruct (drop_first_hd y s) as [Hhd|[_ Hhd]];
        by destruct (Replace2 a b b (String y s)) as [|z' v].
Qed.

End DropFirst.

(** *** Trimming *)

Lemma TrimLeft_clean (u : string) :
  starts_clean (Strings.TrimLeft u name_cutset) = true.
Proof.
  induction u as [|x u IH]; [done|]. cbn [Strings.TrimLeft].
  destruct (Strings.ContainsByte name_cutset x) eqn:Hx; [done|].
  simpl. unfold in_cutset. by rewrite Hx.
Qed.

Lemma TrimLeft_fixed (u : string) :
  starts_clean u = true → Strings.TrimLeft u name_cutset = u.
Proof.
  destruct u as [|x u]; [done|]. unfold starts_clean, in_cutset.
  cbn [Strings.TrimLeft]. by intros ->%negb_true_iff.
Qed.

Lemma TrimRight_ends (u : string) :
  ends_clean (Strings.TrimRight u name_cutset) = true.
Proof.
  induction u as [|x u IH]; [done|]. cbn [Strings.TrimRight].
  destruct (Strings.TrimRight u name_cutset) as [|y r] eqn:Hr.
  - destruct (Strings.ContainsByte name_cutset x) eqn:Hx; [done|].
    simpl. unfold in_cutset. by rewrite Hx.
  - done.
Qed.

Lemma TrimRight_fixed (u : string) :
  ends_clean u = true → Strings.TrimRight u name_cutset = u.
Proof.
  induction u as [|x u IH]; [done|]. cbn [Strings.TrimRight ends_clean].
  destruct u as [|y u].
  - unfold in_cutset. by intros ->%negb_true_iff.
  - intros Hu. by rewrite (IH Hu).
Qed.

Lemma TrimRight_starts (u : string) :
  starts_clean u = true →
  starts_clean (Strings.TrimRight u name_cutset) = true.
Proof.
  destruct u as [|x u]; [done|]. cbn [Strings.TrimRight starts_clean].
  intros Hx. destruct (Strings.TrimRight u name_cutset).
  - unfold in_cutset in Hx. apply negb_true_iff in Hx. rewrite Hx.
    cbn [starts_clean]. unfold in_cutset. by rewrite Hx.
  - done.
Qed.

Lemma Trim_clean (s : string) :
  starts_clean (Strings.Trim s name_cutset) = true
  ∧ ends_clean (Strings.Trim s name_cutset) = true.
Proof.
  unfold Strings.Trim. split.
  - apply TrimRight_starts, TrimLeft_clean.
  - apply TrimRight_ends.
Qed.

Lemma Trim_fixed (u : string) :
  starts_clean u = true → ends_clean u = true →
  Strings.Trim u name_cutset = u.
Proof.
  intros Hs He. unfold Strings.Trim.
  by rewrite (TrimLeft_fixed _ Hs), (TrimRight_fixed _ He).
Qed.

(** C6: the dish name [a   b], with three spaces in a row, is normalized to
    [a  b]: the pass that replaces two spaces by one goes through the text
    once, so the result still holds two spaces in a row, and the run is not
    collapsed to one space.  Normalizing the result once more gives [a b],
    another text: the normalization is not idempotent. *)
Theorem trimNodeName_not_idempotent :
  trimNodeName "a   b" = "a  b"
  ∧ Strings.Contains (trimNodeName "a   b") "  " = true
  ∧ trimNodeName (trimNodeName "a   b") = "a b"
  ∧ trimNodeName (trimNodeName "a   b") ≠ trimNodeName "a   b".
Proof.
  split_and!; [reflexivity | reflexivity | reflexivity | discriminate].
Qed.

(** Where the four passes find nothing to do the second time: on every
    text that, once trimmed, holds no two spaces in a row, the result of
    the normalization is left as it is by a second normalization. *)
Lemma trimNodeName_idempotent_on_single_spaces (s : string) :
  Strings.Contains (Strings.Trim s name_cutset) "  " = false →
  trimNodeName (trimNodeName s) = trimNodeName s.
Proof.
  intros Hdbl.
  change "  " with (String SP (String SP "")) in Hdbl.
  rewrite nopair_Contains in Hdbl. apply negb_false_iff in Hdbl.
  destruct (Trim_clean s) as [Hs He].
  set (t := Strings.Trim s name_cutset) in *.
  set (u1 := Replace2 "(" SP "(" t).
  set (u2 := Replace2 SP ")" ")" u1).
  set (u3 := Replace2 SP "," "," u2).
  assert (Hname : ∀ v, trimNodeName v
    = Replace2 SP SP SP
        (Replace2 SP "," ","
           (Replace2 SP ")" ")"
              (Replace2 "(" SP "(" (Strings.Trim v name_cutset)))))
    by reflexivity.
  (* after the first replacement *)
  assert (H1 : nopair SP SP u1 = true ∧ nopair "(" SP u1 = true
               ∧ starts_clean u1 = true ∧ ends_clean u1 = true).
  { split_and!.
    - by apply drop_second_keeps.
    - by apply drop_second_clears.
    - by apply drop_second_starts.
    - by apply drop_second_ends. }
  destruct H1 as (D1 & P1 & S1 & E1).
  (* after the second *)
  assert (H2 : nopair SP SP u2 = true ∧ nopair "(" SP u2 = true
               ∧ nopair SP ")" u2 = true
               ∧ starts_clean u2 = true ∧ ends_clean u2 = true).
  { split_and!.
    - by apply drop_first_keeps.
    - by apply drop_first_keeps.
    - by apply drop_first_clears.
    - by apply drop_first_starts.
    - by apply drop_first_ends. }
  destruct H2 as (D2 & P2 & Q2 & S2 & E2).
  (* after the third *)
  assert (H3 : nopair SP SP u3 = true ∧ nopair "(" SP u3 = true
               ∧ nopair SP ")" u3 = true ∧ nopair SP "," u3 = true
               ∧ starts_clean u3 = true ∧ ends_clean u3 = true).
  { split_and!.
    - by apply drop_first_keeps.
    - by apply drop_first_keeps.
    - by apply drop_first_keeps.
    - by apply drop_first_clears.
    - by apply drop_first_starts.
    - by apply drop_first_ends. }
  destruct H3 as (D3 & P3 & Q3 & C3 & S3 & E3).
  assert (Hfirst : trimNodeName s = u3).
  { rewrite Hname. fold t u1 u2 u3. by apply Replace2_absent. }
  rewrite Hfirst, Hname, (Trim_fixed _ S3 E3).
  rewrite (Replace2_absent "(" SP "(" u3 P3).
  rewrite (Replace2_absent SP ")" ")" u3 Q3).
  rewrite (Replace2_absent SP "," "," u3 C3).
  apply (Replace2_absent SP SP SP u3 D3).
Qed.

(** * Further properties *)

(** ** Dishes read from a page *)

Section DishFacts.
Context `{Env}.

Lemma fill_prices_exact (priceNodes : list Node) :
  ∀ (i : nat) (ps : list string),
    i + length priceNodes ≤ length ps →
    fill_prices i priceNodes ps
    = Some (take i ps ++ map price_text priceNodes
            ++ drop (i + length priceNodes) ps).
Proof.
  induction priceNodes as [|p rest IH]; intros i ps Hlen; simpl in *.
  - by rewrite Nat.add_0_r, take_drop.
  - destruct (decide (i < length ps)) as [Hi|Hi]; [|lia].
    rewrite IH by (rewrite length_insert; lia). f_equal.
    rewrite (take_S_r _ _ (price_text p))
      by (by apply list_lookup_insert_eq).
    rewrite take_insert_ge by lia.
    rewrite drop_insert_lt by lia.
    rewrite <- app_assoc. simpl.
    by rewrite Nat.add_succ_r.
Qed.

(** X1: [dishFromNode] returns a dish exactly when the container of the
    node holds at most three price elements, and panics otherwise; the dish
    it returns has the normalized text of the node as its name and, as its
    prices, the texts of the price elements in document order, followed by
    empty strings up to three. *)
Theorem dishFromNode_outcome (node : Node) :
  let priceNodes := FindAll (Parent node) (ByClass "price") in
  (length priceNodes ≤ 3 →
   ∃ d, dishFromNode node = Some d
     ∧ name d = trimNodeName (Text node)
     ∧ prices d = map price_text priceNodes
                  ++ replicate (3 - length priceNodes) "")
  ∧ (3 < length priceNodes → dishFromNode node = None).
Proof.
  intros priceNodes. split.
  - intros Hlen. unfold dishFromNode. fold priceNodes.
    rewrite fill_prices_exact by (simpl; lia).
    eexists. split; [reflexivity|]. split; [reflexivity|].
    cbn [prices Nat.add]. by rewrite take_0, drop_replicate.
  - apply dishFromNode_overflow.
Qed.

Lemma flag_of_title_flags (fl : flags) (title : string) :
  fVegetarian (flag_of_title fl title)
  = fVegetarian fl || String.eqb title "vegetarisch"
  ∧ fVegan (flag_of_title fl title) = fVegan fl || String.eqb title "vegan"
  ∧ fBeef (flag_of_title fl title) = fBeef fl || String.eqb title "mit rind"
  ∧ fPork (flag_of_title fl title)
    = fPork fl || String.eqb title "mit schwein"
  ∧ fFish (flag_of_title fl title) = fFish fl || String.eqb title "mit fisch"
  ∧ fChicken (flag_of_title fl title)
    = fChicken fl || String.eqb title "mit geflügel"
  ∧ fLactoseFree (flag_of_title fl title)
    = fLactoseFree fl || String.eqb title "laktosefrei".
Proof.
  destruct fl as [vt vg be po fi ch la]. unfold flag_of_title.
  destruct (String.eqb_spec title "vegetarisch") as [->|_];
    [cbn; by rewrite ?orb_true_r, ?orb_false_r|].
  destruct (String.eqb_spec title "vegan") as [->|_];
    [cbn; by rewrite ?orb_true_r, ?orb_false_r|].
  destruct (String.eqb_spec title "mit rind") as [->|_];
    [cbn; by rewrite ?orb_true_r, ?orb_false_r|].
  destruct (String.eqb_spec title "mit schwein") as [->|_];
    [cbn; by rewrite ?orb_true_r, ?orb_false_r|].
  destruct (String.eqb_spec title "mit fisch") as [->|_];
    [cbn; by rewrite ?orb_true_r, ?orb_false_r|].
  destruct (String.eqb_spec title "mit geflügel") as [->|_];
    [cbn; by rewrite ?orb_true_r, ?orb_false_r|].
  destruct (String.eqb_spec title "laktosefrei") as [->|_];
    [cbn; by rewrite ?orb_true_r, ?orb_false_r|].
  cbn. by rewrite ?orb_false_r.
Qed.

Lemma fold_flags (imgs : list Node) :
  ∀ fl : flags,
    let titled t := existsb (λ img, String.eqb (ToLower (Attr img "title")) t)
                      imgs in
    let fl' := foldl (λ fl img, flag_of_title fl (ToLower (Attr img "title")))
                 fl imgs in
    fVegetarian fl' = fVegetarian fl || titled "vegetarisch"
    ∧ fVegan fl' = fVegan fl || titled "vegan"
    ∧ fBeef fl' = fBeef fl || titled "mit rind"
    ∧ fPork fl' = fPork fl || titled "mit schwein"
    ∧ fFish fl' = fFish fl || titled "mit fisch"
    ∧ fChicken fl' = fChicken fl || titled "mit geflügel"
    ∧ fLactoseFree fl' = fLactoseFree fl || titled "laktosefrei".
Proof.
  induction imgs as [|img imgs IH]; intros fl; cbn [foldl existsb].
  - by rewrite !orb_false_r.
  - destruct (IH (flag_of_title fl (ToLower (Attr img "title"))))
      as (H1 & H2 & H3 & H4 & H5 & H6 & H7).
    destruct (flag_of_title_flags fl (ToLower (Attr img "title")))
      as (G1 & G2 & G3 & G4 & G5 & G6 & G7).
    cbv zeta in *.
    rewrite H1, H2, H3, H4, H5, H6, H7, G1, G2, G3, G4, G5, G6, G7.
    by rewrite !orb_assoc.
Qed.

(** X2: the flags of a dish that [dishFromNode] returns say which titles
    the images below the node have, compared in lower case: each of the
    flags beef, pork, fish, chicken, lactose-free and vegan is set iff some
    image has its title; vegetarian is set iff some image is titled
    [vegetarisch] or [vegan], so a vegan dish is always vegetarian. *)
Theorem dishFromNode_flags (node : Node) (d : dish) :
  dishFromNode node = Some d →
  isVegan d = has_title node "vegan"
  ∧ isVegetarian d = has_title node "vegetarisch" || has_title node "vegan"
  ∧ containsBeef d = has_title node "mit rind"
  ∧ containsPork d = has_title node "mit schwein"
  ∧ containsFish d = has_title node "mit fisch"
  ∧ containsChicken d = has_title node "mit geflügel"
  ∧ lactoseFree d = has_title node "laktosefrei"
  ∧ (isVegan d = true → isVegetarian d = true).
Proof.
  unfold dishFromNode.
  destruct (fill_prices _ _ _) as [ps|]; [|done]. simpl.
  intros [= <-]. cbn [isVegan isVegetarian containsBeef containsPork
    containsFish containsChicken lactoseFree].
  destruct (fold_flags (FindAll node (ByTag "img")) no_flags)
    as (H1 & H2 & H3 & H4 & H5 & H6 & H7).
  cbv zeta in *. unfold has_title.
  rewrite H1, H2, H3, H4, H5, H6, H7. simpl.
  split_and!; try reflexivity.
  intros ->. apply orb_true_r.
Qed.

Lemma dishesFromNodes_Forall2 (dishNodes : list Node) :
  ∀ dishes,
    dishesFromNodes dishNodes = Some dishes
    ↔ Forall2 (λ dn d, dishFromNode dn = Some d) dishNodes dishes.
Proof.
  induction dishNodes as [|dn rest IH]; intros dishes; simpl.
  - split; [intros [= <-]; constructor | by intros ->%Forall2_nil_inv_l].
  - split.
    + destruct (dishFromNode dn) as [d|] eqn:Hd; [|done]. simpl.
      destruct (dishesFromNodes rest) as [ds|] eqn:Hds; [|done]. simpl.
      intros [= <-]. constructor; [done | by apply IH].
    + intros (d & ds & Hd & Hds & ->)%Forall2_cons_inv_l.
      rewrite Hd. simpl. apply IH in Hds. by rewrite Hds.
Qed.

(** X3: [getCanteenPlan] returns a list of dishes exactly when the page is
    fetched and parsed and [dishFromNode] returns a dish for every element
    of class [dish-description] of the page; the list then holds those
    dishes, one per element, in document order.  In every other case it
    panics. *)
Theorem getCanteenPlan_outcome (url : string) (dishes : list dish) :
  getCanteenPlan url = Some dishes
  ↔ ∃ body root,
      http_Get url = Some body
      ∧ html_Parse body = Some root
      ∧ Forall2 (λ dn d, dishFromNode dn = Some d)
          (FindAll root (ByClass "dish-description")) dishes.
Proof.
  unfold getCanteenPlan. split.
  - destruct (http_Get url) as [body|]; [|done].
    destruct (html_Parse body) as [root|] eqn:Hparse; [|done].
    intros Hd%dishesFromNodes_Forall2. exists body, root. by split_and!.
  - intros (body & root & -> & -> & Hd). by apply dishesFromNodes_Forall2.
Qed.

End DishFacts.

Lemma dishFromNode_outcome_witness :
  ∃ d, dishFromNode (H:=sample_env) two_price_node = Some d
    ∧ name d = "Suppe".
Proof.
  destruct (proj1 (dishFromNode_outcome (H:=sample_env) two_price_node))
    as (d & Hd & Hname & _).
  - vm_compute. lia.
  - exists d. split; [done|]. rewrite Hname. reflexivity.
Defined.

Lemma dishFromNode_flags_witness :
  ∃ d, dishFromNode (H:=sample_env) vegan_node = Some d
    ∧ isVegan d = true ∧ isVegetarian d = true.
Proof.
  destruct (dishFromNode (H:=sample_env) vegan_node) as [d|] eqn:Hd;
    [|by vm_compute in Hd].
  exists d. split; [done|].
  destruct (dishFromNode_flags (H:=sample_env) vegan_node d Hd)
    as (Hvg & Hvt & _).
  rewrite Hvg, Hvt. split; reflexivity.
Defined.

(** ** What the handlers send *)

Lemma order_rows_world_of `{Env} (entries : list (string * string)) :
  ∀ (text : string) (w : world), world_of (order_rows entries text w) = w.
Proof.
  induction entries as [|[u o] rest IH]; intros text w; [done|].
  cbn [order_rows]. unfold mbind, M_bind, deref.
  destruct (GetUser u); simpl; [apply IH | done].
Qed.

(** Case analysis along the tests of [handleOrder]. *)
Ltac step_handler :=
  repeat
    match goal with
    | |- context [String.eqb ?a ?b] => destruct (String.eqb_spec a b); simpl
    | |- context [GetUser ?u] => destruct (GetUser u); simpl
    | |- context [match orders ?b with _ => _ end] =>
        destruct (orders b) eqn:?; simpl
    | |- context [order_rows ?e ?m ?w] =>
        let E := fresh "E" in
        pose proof (order_rows_world_of e m w) as E;
        destruct (order_rows e m w); simpl in E; subst; simpl
    end.

Ltac unfold_handler :=
  unfold handleOrder, mbind, M_bind, get_bot, set_bot, sendMessage, nothing,
    deref, mret, M_ret, panic.

Section PostFacts.
Context `{Env}.

(** Whatever [handleOrder] does, it adds at most one post, a reply to the
    triggering message, and leaves the identity of the bot alone. *)
Lemma handleOrder_posts (post : Post) (w : world) :
  ∃ out,
    posted (world_of (handleOrder post w)) = posted w ++ out
    ∧ length out ≤ 1
    ∧ Forall (threaded post) out
    ∧ user_Id (bot (world_of (handleOrder post w))) = user_Id (bot w)
    ∧ channelDebug_Id (bot (world_of (handleOrder post w)))
      = channelDebug_Id (bot w).
Proof.
  unfold_handler.
  destruct (order_fields (Message post)) as [cmd content]. simpl.
  step_handler.
  all: first
    [ (exists []; split; [by rewrite app_nil_r|];
       split; [simpl; lia|]; split; [constructor|]; by split)
    | (eexists [_]; split; [reflexivity|];
       split; [simpl; lia|]; split; [by repeat constructor|]; by split) ].
Qed.

(** The same for the branch of every intent. *)
Lemma dispatch_posts (i : Intent) (post : Post) (w : world) :
  ∃ out,
    posted (world_of (dispatch i post w)) = posted w ++ out
    ∧ length out ≤ 1
    ∧ Forall (threaded post) out
    ∧ user_Id (bot (world_of (dispatch i post w))) = user_Id (bot w)
    ∧ channelDebug_Id (bot (world_of (dispatch i post w)))
      = channelDebug_Id (bot w).
Proof.
  destruct i; cbn [dispatch]; try apply handleOrder_posts.
  all: unfold writeLegend, writeHelp, writeMyPleasure, writeDishes,
         lift_panic, mbind, M_bind, deref, sendMessage, mret, M_ret, panic.
  all: repeat
    match goal with
    | |- context [getCanteenPlan ?u] => destruct (getCanteenPlan u)
    | |- context [rand_Intn ?g ?n] => destruct (rand_Intn g n)
    | |- context [pleasure_msgs !! ?i] => destruct (pleasure_msgs !! i)
    end.
  all: cbn [world_of posted bot].
  all: first
    [ (exists []; split; [by rewrite app_nil_r|];
       split; [simpl; lia|]; split; [constructor|]; by split)
    | (eexists [_]; split; [reflexivity|];
       split; [simpl; lia|]; split; [by repeat constructor|]; by split) ].
Qed.

(** X4: whatever [handleCommand] does with a message, and also when it ends
    in a panic, it creates at most one post; the post is in the channel of
    the triggering message and is a reply to it; the posts created before
    are kept, and the identity of the bot (its user and its debug channel)
    is left alone. *)
Theorem handleCommand_posts (post : Post) (w : world) :
  ∃ out,
    posted (world_of (handleCommand post w)) = posted w ++ out
    ∧ length out ≤ 1
    ∧ Forall (threaded post) out
    ∧ user_Id (bot (world_of (handleCommand post w))) = user_Id (bot w)
    ∧ channelDebug_Id (bot (world_of (handleCommand post w)))
      = channelDebug_Id (bot w).
Proof. rewrite handleCommand_dispatch. apply dispatch_posts. Qed.

(** X5: a message classified as Status, Legend, Help or Unrecognized is
    answered by exactly one reply, which is not empty; the handler does not
    panic, and the bot, with its order, and the random generator are left
    as they are. *)
Theorem fixed_replies (post : Post) (w : world) :
  classify (Message post) ∈ [Status; Legend; Help; Unrecognized] →
  ∃ text, text ≠ ""
    ∧ handleCommand post w = Ok () (reply w (bot w) post text).
Proof.
  intros Hc. rewrite handleCommand_dispatch.
  destruct (classify (Message post)).
  all: first
    [ (eexists; (split; [|reflexivity]); discriminate)
    | (exfalso;
       repeat (apply elem_of_cons in Hc as [Hc|Hc]; [discriminate Hc|]);
       by apply elem_of_nil in Hc) ].
Qed.

(** X6: a message classified as Thanks is answered by one of the four
    fixed replies, the one whose index the generator draws, and the
    generator moves on; a draw outside [0..3] would make the handler
    panic. *)
Theorem thanks_reply (post : Post) (w : world) :
  classify (Message post) = Thanks →
  let draw := rand_Intn (rng w) 4 in
  (draw.1 < 4 →
   ∃ text, pleasure_msgs !! draw.1 = Some text
     ∧ handleCommand post w
       = Ok () (mkWorld (bot w)
                  (posted w ++ [mkSent text (ChannelId post) (Id post)])
                  draw.2))
  ∧ (4 ≤ draw.1 →
     handleCommand post w = Panic (mkWorld (bot w) (posted w) draw.2)).
Proof.
  intros Hc draw. rewrite handleCommand_dispatch, Hc. cbn [dispatch].
  unfold writeMyPleasure, mbind, M_bind, deref, sendMessage, mret, M_ret,
    panic.
  change (length pleasure_msgs) with 4. fold draw.
  destruct draw as [i g]. cbn [fst snd]. split; intros Hi.
  - destruct (lookup_lt_is_Some_2 pleasure_msgs i Hi) as [text Htext].
    exists text. by rewrite Htext.
  - by rewrite (lookup_ge_None_2 pleasure_msgs i Hi).
Qed.


End PostFacts.


Lemma fixed_replies_witness :
  ∃ text, text ≠ ""
    ∧ handleCommand (H:=sample_env) (post_of "ua" "what?") Sample.initial
      = Ok () (reply Sample.initial (bot Sample.initial)
                 (post_of "ua" "what?") text).
Proof.
  apply (fixed_replies (H:=sample_env) (post_of "ua" "what?") Sample.initial).
  replace (classify (Message (post_of "ua" "what?"))) with Unrecognized
    by (vm_compute; reflexivity).
  rewrite !elem_of_cons. do 3 right. by left.
Defined.

Lemma thanks_reply_witness :
  ∃ text, text ∈ pleasure_msgs
    ∧ posted (world_of (handleCommand (H:=sample_env) thanks_post
                          Sample.initial))
      = [mkSent text "town" "p1"].
Proof.
  destruct (proj1 (thanks_reply (H:=sample_env) thanks_post Sample.initial
                     eq_refl))
    as (text & Hlook & Hrun).
  - vm_compute. lia.
  - exists text. split; [by eapply list_elem_of_lookup_2|].
    by rewrite Hrun.
Defined.

(** ** The order, step by step *)

Section Replace1.
Variable p : ascii.

Lemma Replace1_cons (c : ascii) (s : string) :
  Strings.Replace (String c s) (String p "") ""
  = if Ascii.eqb c p then Strings.Replace s (String p "") ""
    else String c (Strings.Replace s (String p "") "").
Proof.
  unfold Strings.Replace.
  cbn [Strings.Replace_go Strings.HasPrefix String.length Nat.sub].
  rewrite andb_true_r. by destruct (Ascii.eqb c p).
Qed.

(** Once a byte has been replaced by nothing, it is gone; the text has not
    grown, and a text without the byte is left as it is. *)
Lemma Replace1_removes (s : string) :
  Strings.ContainsByte (Strings.Replace s (String p "") "") p = false
  ∧ String.length (Strings.Replace s (String p "") "") ≤ String.length s
  ∧ (Strings.ContainsByte s p = false →
     Strings.Replace s (String p "") "" = s).
Proof.
  induction s as [|c s (IH1 & IH2 & IH3)]; [done|].
  rewrite Replace1_cons. cbn [Strings.ContainsByte String.length].
  destruct (Ascii.eqb c p) eqn:Hc.
  - split_and!; [done | lia | done].
  - cbn [Strings.ContainsByte String.length]. rewrite Hc, IH1.
    split_and!; [done | lia |]. simpl. intros Hs. by rewrite IH3.
Qed.

(** Replacing a byte by nothing takes out every occurrence of it and
    nothing else. *)
Lemma Replace1_without (s : string) :
  Strings.Replace s (String p "") "" = without_byte p s.
Proof.
  induction s as [|c s IH]; [done|].
  rewrite Replace1_cons. cbn [without_byte]. by rewrite IH.
Qed.

End Replace1.

Section LedgerSteps.
Context `{Env}.

(** The row of an entry is a line of the listing. *)
Lemma listing_row (e : string * string) (entries : list (string * string)) :
  e ∈ entries →
  ∃ before after,
    listing entries = before +:+ order_row e +:+ nl +:+ after.
Proof.
  unfold listing. induction entries as [|x entries IH]; intros Hin.
  - by apply elem_of_nil in Hin.
  - apply elem_of_cons in Hin as [<-|Hin].
    + by exists "", (lines (map order_row entries)).
    + destruct (IH Hin) as (before & after & Heq).
      exists (order_row x +:+ nl +:+ before), after.
      cbn [map lines]. by rewrite Heq, !string_app_assoc.
Qed.

Lemma range_map_empty : range_map (∅ : gmap string string) = [].
Proof.
  apply Permutation_nil_r. rewrite range_map_perm.
  by rewrite map_to_list_empty.
Qed.

(** X8: while an order is active, a message changes no submission but the
    sender's own, whatever the message is; and when the sender is not the
    owner, the owner and the description of the order stay as they are,
    also when the handler panics. *)
Theorem active_order_protected (post : Post) (w : world) :
  orderDetail (bot w) ≠ "" →
  (∀ u, u ≠ UserId post →
     orders (bot (world_of (handleCommand post w))) ≫= (.!! u)
     = orders (bot w) ≫= (.!! u))
  ∧ (orderUser (bot w) ≠ UserId post →
     orderUser (bot (world_of (handleCommand post w))) = orderUser (bot w)
     ∧ orderDetail (bot (world_of (handleCommand post w)))
       = orderDetail (bot w)).
Proof.
  intros Hd. rewrite handleCommand_dispatch.
  destruct (classify (Message post)); cbn [dispatch].
  4: {
    unfold_handler.
    destruct (order_fields (Message post)) as [cmd0 content0]. simpl.
    step_handler; try done.
    all: split; [|done]; intros u Hu; simpl.
    - by rewrite lookup_insert_ne.
    - match goal with Hq : orders _ = None |- _ => by rewrite Hq end. }
  all: unfold writeLegend, writeHelp, writeMyPleasure, writeDishes,
         lift_panic, mbind, M_bind, deref, sendMessage, mret, M_ret, panic.
  all: repeat
    match goal with
    | |- context [getCanteenPlan ?u] => destruct (getCanteenPlan u)
    | |- context [rand_Intn ?g ?n] => destruct (rand_Intn g n)
    | |- context [pleasure_msgs !! ?i] => destruct (pleasure_msgs !! i)
    end.
  all: by cbn [world_of bot].
Qed.

(** X9: while no order is active, only [open] changes the bot: every other
    order command leaves it as it is; [submit] and [list] are answered by
    the refusals [Cannot submit without active order] and [Cannot list
    without active order], [close] by nothing. *)
Theorem closed_order_changes_only_by_open (post : Post) (w : world) :
  orderDetail (bot w) = "" →
  (order_fields (Message post)).1 ≠ "open" →
  bot (world_of (handleOrder post w)) = bot w
  ∧ ((order_fields (Message post)).1 = "submit" →
     handleOrder post w
     = Ok () (reply w (bot w) post "Cannot submit without active order"))
  ∧ ((order_fields (Message post)).1 = "list" →
     handleOrder post w
     = Ok () (reply w (bot w) post "Cannot list without active order"))
  ∧ ((order_fields (Message post)).1 = "close" →
     handleOrder post w = Ok () w).
Proof.
  intros Hd Hopen.
  destruct (order_fields (Message post)) as [cmd content] eqn:Hf.
  simpl in *. split_and!.
  - unfold_handler. rewrite Hf, Hd. simpl. step_handler; done.
  - intros ->. by eapply submit_when_closed.
  - intros ->. by eapply list_when_closed.
  - intros ->. by eapply close_when_closed.
Qed.

(** X10: a submission to an active order is stored under the sender as
    the text of the submission without its bytes [|], the other bytes
    staying in their order: the stored text has no [|], is not longer than
    the submission, and is the submission itself when that has no [|]; the
    entries of the other users, the owner, the description and the posts
    stay as they are. *)
Theorem submit_stores_entry (post : Post) (w : world)
    (m : gmap string string) :
  (order_fields (Message post)).1 = "submit" →
  orderDetail (bot w) ≠ "" →
  orders (bot w) = Some m →
  let text := without_byte "|" (order_fields (Message post)).2 in
  handleOrder post w
  = Ok () (mkWorld (set_orders (bot w) (Some (<[UserId post := text]> m)))
             (posted w) (rng w))
  ∧ Strings.ContainsByte text "|" = false
  ∧ String.length text ≤ String.length (order_fields (Message post)).2
  ∧ (Strings.ContainsByte (order_fields (Message post)).2 "|" = false →
     text = (order_fields (Message post)).2).
Proof.
  intros Hcmd Hd Hm.
  destruct (order_fields (Message post)) as [cmd content] eqn:Hf.
  simpl in *. subst cmd. rewrite <- (Replace1_without "|" content).
  split; [by eapply submit_when_open|].
  apply (Replace1_removes "|" content).
Qed.

(** X11: a second submission of a user replaces the first: after both, the
    world is the one that the second alone would have given. *)
Theorem submit_twice (post1 post2 : Post) (w : world)
    (m : gmap string string) :
  (order_fields (Message post1)).1 = "submit" →
  (order_fields (Message post2)).1 = "submit" →
  UserId post1 = UserId post2 →
  orderDetail (bot w) ≠ "" →
  orders (bot w) = Some m →
  ∃ w1 w2,
    handleOrder post1 w = Ok () w1
    ∧ handleOrder post2 w1 = Ok () w2
    ∧ handleOrder post2 w = Ok () w2.
Proof.
  intros Hc1 Hc2 Hu Hd Hm.
  destruct (order_fields (Message post1)) as [cmd1 c1] eqn:Hf1.
  destruct (order_fields (Message post2)) as [cmd2 c2] eqn:Hf2.
  simpl in *. subst cmd1 cmd2.
  eexists _, _. split; [by eapply submit_when_open|].
  split.
  - erewrite submit_when_open; [reflexivity|exact Hf2|done|reflexivity].
  - erewrite submit_when_open; [|exact Hf2|done|exact Hm].
    unfold set_orders. simpl. by rewrite Hu, insert_insert_eq.
Qed.

(** X12: [list] on an active order, when the user directory knows the
    users with a submission, sends one reply made of the description and
    one row for every submission, each once, and changes nothing in the
    bot. *)
Theorem list_outcome (post : Post) (w : world) (m : gmap string string) :
  (order_fields (Message post)).1 = "list" →
  orderDetail (bot w) ≠ "" →
  orders (bot w) = Some m →
  submitters_known m →
  ∃ entries,
    entries ≡ₚ map_to_list m
    ∧ handleOrder post w
      = Ok () (reply w (bot w) post
                 (listing_header (orderDetail (bot w)) +:+ listing entries)).
Proof.
  intros Hcmd Hd Hm Hlook.
  destruct (order_fields (Message post)) as [cmd content] eqn:Hf.
  simpl in Hcmd. subst cmd.
  exists (range_map m). split; [apply range_map_perm|].
  erewrite list_when_open; [| eassumption | done |].
  - unfold range_orders. by rewrite Hm.
  - apply range_orders_known. intros m' Hm'. rewrite Hm in Hm'.
    by injection Hm' as <-.
Qed.

(** X13: what a user has submitted is in the next listing: after an
    accepted submission, and when the user directory knows the sender and
    the users that had a submission before, [list] sends the description
    and one row for every entry of the map in which the sender now has the
    text of the submission without its [|]; the row of the sender, with
    that text, is a line of the reply. *)
Theorem submit_then_list (post1 post2 : Post) (w : world)
    (m : gmap string string) :
  (order_fields (Message post1)).1 = "submit" →
  (order_fields (Message post2)).1 = "list" →
  orderDetail (bot w) ≠ "" →
  orders (bot w) = Some m →
  known (UserId post1) →
  submitters_known m →
  let text := without_byte "|" (order_fields (Message post1)).2 in
  ∃ w1 entries,
    handleOrder post1 w = Ok () w1
    ∧ entries ≡ₚ map_to_list (<[UserId post1 := text]> m)
    ∧ (UserId post1, text) ∈ entries
    ∧ Strings.ContainsByte text "|" = false
    ∧ handleOrder post2 w1
      = Ok () (reply w1 (bot w1) post2
                 (listing_header (orderDetail (bot w)) +:+ listing entries))
    ∧ ∃ before after,
        listing entries
        = before +:+ order_row (UserId post1, text) +:+ nl +:+ after.
Proof.
  intros Hc1 Hc2 Hd Hm Hsender Hlook.
  destruct (order_fields (Message post1)) as [cmd1 c1] eqn:Hf1.
  destruct (order_fields (Message post2)) as [cmd2 c2] eqn:Hf2.
  simpl in *. subst cmd1 cmd2.
  rewrite <- (Replace1_without "|" c1).
  set (text := Strings.Replace c1 "|" "").
  set (m' := <[UserId post1 := text]> m).
  assert (Hin : (UserId post1, text) ∈ range_map m').
  { rewrite range_map_perm. apply elem_of_map_to_list.
    apply lookup_insert_eq. }
  exists (mkWorld (set_orders (bot w) (Some m')) (posted w) (rng w)),
    (range_map m').
  split; [by eapply submit_when_open|].
  split; [apply range_map_perm|].
  split; [done|].
  split; [apply (Replace1_removes "|" c1)|].
  split; [|by apply listing_row].
  erewrite list_when_open; [reflexivity | exact Hf2 | done |].
  apply range_orders_known. cbn [bot orders set_orders].
  intros m0 [= <-] u Hu. unfold m' in Hu.
  destruct (decide (u = UserId post1)) as [->|Hne]; [done|].
  rewrite lookup_insert_ne in Hu by done. by apply Hlook.
Qed.

(** X14: an order opened, with a description that is not empty, by a
    user that the directory knows, while none is active, starts without
    submissions, whatever the map held before: the listing that follows
    has the description and no row. *)
Theorem open_then_list (post1 post2 : Post) (w : world) :
  (order_fields (Message post1)).1 = "open" →
  (order_fields (Message post1)).2 ≠ "" →
  (order_fields (Message post2)).1 = "list" →
  orderDetail (bot w) = "" →
  known (UserId post1) →
  ∃ w1,
    handleOrder post1 w = Ok () w1
    ∧ orderUser (bot w1) = UserId post1
    ∧ orderDetail (bot w1) = (order_fields (Message post1)).2
    ∧ orders (bot w1) = Some ∅
    ∧ handleOrder post2 w1
      = Ok () (reply w1 (bot w1) post2
                 (listing_header (order_fields (Message post1)).2)).
Proof.
  intros Hc1 Hne Hc2 Hd Hlook.
  destruct (order_fields (Message post1)) as [cmd1 c1] eqn:Hf1.
  destruct (order_fields (Message post2)) as [cmd2 c2] eqn:Hf2.
  simpl in *. subst cmd1 cmd2.
  destruct Hlook as [username Hname].
  eexists. split; [by eapply open_when_closed|].
  split_and!; try reflexivity.
  erewrite list_when_open; [| exact Hf2 | done |].
  - unfold range_orders, reply. cbn [bot orders orderDetail].
    rewrite range_map_empty. unfold listing. cbn [map lines].
    by rewrite string_app_nil_r.
  - unfold range_orders, reply. cbn [bot orders].
    rewrite range_map_empty. by intros e ?%elem_of_nil.
Qed.

End LedgerSteps.

Lemma active_order_protected_witness :
  orderUser (bot (world_of (handleCommand (H:=sample_env) (close_post "uc")
                              open_world))) = "ua"
  ∧ orderDetail (bot (world_of (handleCommand (H:=sample_env)
                                  (close_post "uc") open_world))) = "Pizza".
Proof.
  destruct (active_order_protected (H:=sample_env) (close_post "uc")
              open_world) as [_ Hown].
  - vm_compute. discriminate.
  - apply Hown. vm_compute. discriminate.
Defined.

Lemma closed_order_changes_only_by_open_witness :
  bot (world_of (handleOrder (H:=sample_env) (submit_post "ub" "Calzone")
                   Sample.initial))
  = bot Sample.initial.
Proof.
  apply (closed_order_changes_only_by_open (H:=sample_env)
           (submit_post "ub" "Calzone") Sample.initial).
  - reflexivity.
  - vm_compute. discriminate.
Defined.

Lemma submit_stores_entry_witness :
  handleOrder (H:=sample_env) (submit_post "uc" "Cal|zone") open_world
  = Ok () (mkWorld
             (set_orders (bot open_world)
                (Some (<["uc" := "Calzone"]> {["ub" := "Margherita"]})))
             [] 0).
Proof.
  destruct (submit_stores_entry (H:=sample_env) (submit_post "uc" "Cal|zone")
              open_world {["ub" := "Margherita"]})
    as (Hrun & _).
  - vm_compute. reflexivity.
  - vm_compute. discriminate.
  - reflexivity.
  - exact Hrun.
Defined.

Lemma submit_twice_witness :
  ∃ w1 w2,
    handleOrder (H:=sample_env) (submit_post "uc" "Calzone") open_world
    = Ok () w1
    ∧ handleOrder (H:=sample_env) (submit_post "uc" "Salat") w1 = Ok () w2
    ∧ handleOrder (H:=sample_env) (submit_post "uc" "Salat") open_world
      = Ok () w2.
Proof.
  apply (submit_twice (H:=sample_env) (submit_post "uc" "Calzone")
           (submit_post "uc" "Salat") open_world {["ub" := "Margherita"]}).
  - vm_compute. reflexivity.
  - vm_compute. reflexivity.
  - reflexivity.
  - vm_compute. discriminate.
  - reflexivity.
Defined.

Lemma list_outcome_witness :
  ∃ entries,
    entries ≡ₚ map_to_list ({["ub" := "Margherita"]} : gmap string string)
    ∧ handleOrder (H:=sample_env) (list_post "uc") open_world
      = Ok () (reply open_world (bot open_world) (list_post "uc")
                 (listing_header "Pizza"
                  +:+ listing (H:=sample_env) entries)).
Proof.
  apply (list_outcome (H:=sample_env) (list_post "uc") open_world
           {["ub" := "Margherita"]}).
  - vm_compute. reflexivity.
  - vm_compute. discriminate.
  - reflexivity.
  - apply sample_submitters_known.
Defined.

Lemma submit_then_list_witness :
  ∃ w1 entries,
    handleOrder (H:=sample_env) (submit_post "uc" "Cal|zone") open_world
    = Ok () w1
    ∧ entries ≡ₚ map_to_list
                   (<["uc" := "Calzone"]> {["ub" := "Margherita"]}
                    : gmap string string)
    ∧ handleOrder (H:=sample_env) (list_post "ub") w1
      = Ok () (reply w1 (bot w1) (list_post "ub")
                 (listing_header "Pizza"
                  +:+ listing (H:=sample_env) entries)).
Proof.
  destruct (submit_then_list (H:=sample_env) (submit_post "uc" "Cal|zone")
              (list_post "ub") open_world {["ub" := "Margherita"]})
    as (w1 & entries & Hrun & Hperm & _ & _ & Hlist & _).
  - vm_compute. reflexivity.
  - vm_compute. reflexivity.
  - vm_compute. discriminate.
  - reflexivity.
  - by eexists.
  - apply sample_submitters_known.
  - exists w1, entries. split_and!; assumption.
Defined.

Lemma open_then_list_witness :
  ∃ w1,
    handleOrder (H:=sample_env) (open_post "ua" "Pizza") Sample.initial
    = Ok () w1
    ∧ orders (bot w1) = Some ∅.
Proof.
  destruct (open_then_list (H:=sample_env) (open_post "ua" "Pizza")
              (list_post "ub") Sample.initial)
    as (w1 & Hrun & _ & _ & Hmap & _).
  - vm_compute. reflexivity.
  - vm_compute. discriminate.
  - vm_compute. reflexivity.
  - reflexivity.
  - by eexists.
  - by exists w1.
Defined.

(** ** Reading an order command *)

Section ForwardRun.
Context {A : Type}.
Implicit Types (k : bool → list string → submatch → option A).

Lemma run_Lit_ascii (l : string) :
  ∀ (rest : string) (bot : bool) (c : submatch) k,
    Strings.all_bytes below_RuneSelf l = true →
    run (Lit l) bot (Utf8.runes (l +:+ rest)) c k
    = k (match l with "" => bot | String _ _ => false end)
        (Utf8.runes rest) c.
Proof.
  induction l as [|x l IH]; intros rest bot c k Hl; [done|].
  simpl in Hl. apply andb_prop in Hl as [Hx Hl].
  change (String x l +:+ rest) with (String x (l +:+ rest)).
  rewrite runes_cons_single by done.
  cbn [Lit]. rewrite run_Cat. cbn [run].
  unfold is_rune, Utf8.single. rewrite String.eqb_refl.
  rewrite IH by done. by destruct l.
Qed.

Lemma run_Lit_mismatch (x y : ascii) (l rest : string) bot (c : submatch) k :
  x ≠ y → below_RuneSelf y = true →
  run (Lit (String x l)) bot (Utf8.runes (String y rest)) c k = None.
Proof.
  intros Hxy Hy. rewrite runes_cons_single by done.
  cbn [Lit]. rewrite run_Cat. cbn [run].
  unfold is_rune, Utf8.single.
  destruct (String.eqb_spec (String y "") (String x "")) as [[= ->]|]; done.
Qed.

Lemma star_word_greedy (k' : bool → list string → option A) (a : A)
    (rest : string) :
  ∀ (w : string) (bot : bool),
    Strings.all_bytes word_byte w = true →
    star word k' (match w with "" => bot | String _ _ => false end)
      (Utf8.runes rest) = Some a →
    star word k' bot (Utf8.runes (w +:+ rest)) = Some a.
Proof.
  induction w as [|x w IH]; intros bot Hw Hk; [done|].
  simpl in Hw. apply andb_prop in Hw as [Hx Hw].
  change (String x w +:+ rest) with (String x (w +:+ rest)).
  rewrite runes_cons_single.
  - cbn [star]. unfold Utf8.single. cbn [word]. rewrite Hx.
    rewrite (IH false Hw); [done|]. by destruct w.
  - clear -Hx. destruct x as [[] [] [] [] [] [] [] []]; done.
Qed.

Lemma star_stop (p : string → bool) (k' : bool → list string → option A)
    (y : ascii) (rest : string) (bot : bool) :
  below_RuneSelf y = true → p (String y "") = false →
  star p k' bot (Utf8.runes (String y rest))
  = k' bot (Utf8.runes (String y rest)).
Proof.
  intros Hy Hp. rewrite runes_cons_single by done.
  cbn [star]. unfold Utf8.single. by rewrite Hp.
Qed.

Lemma star_all (p : string → bool) (k' : bool → list string → option A)
    (a : A) :
  ∀ (s : list string) (bot : bool),
    forallb p s = true →
    k' (match s with [] => bot | _ :: _ => false end) [] = Some a →
    star p k' bot s = Some a.
Proof.
  induction s as [|x s IH]; intros bot Hs Hk; [done|].
  simpl in Hs. apply andb_prop in Hs as [Hx Hs].
  cbn [star]. rewrite Hx. rewrite (IH false Hs); [done|]. by destruct s.
Qed.

Lemma run_not_space (rest : string) bot (c : submatch) k :
  hd rest ≠ Some SP →
  run (Lit " ") bot (Utf8.runes rest) c k = None.
Proof.
  intros Hhd. cbn [Lit]. rewrite run_Cat. cbn [run].
  destruct rest as [|b0 s]; [done|].
  destruct (runes_split b0 s) as (tail & rest' & -> & -> & _).
  unfold is_rune.
  destruct (String.eqb_spec (String b0 tail) " ") as [[= -> ->]|]; done.
Qed.

End ForwardRun.

(** A text without a line-feed byte has no line-feed code point. *)
Lemma dot_runes (s : string) :
  Strings.ContainsByte s LF = false → forallb dot (Utf8.runes s) = true.
Proof.
  induction s as [|b0 tail rest Hr _ IH] using runes_ind; [done|].
  cbn [Strings.ContainsByte]. intros [Hb0 Hrest]%orb_false_elim.
  rewrite Hr. cbn [forallb]. rewrite ContainsByte_app in Hrest.
  apply orb_false_elim in Hrest as [_ Hrest]. rewrite (IH Hrest), andb_true_r.
  unfold dot, is_rune.
  destruct (String.eqb_spec (String b0 tail) (String LF "")) as [[= -> ->]|];
    [|done].
  by rewrite Ascii.eqb_refl in Hb0.
Qed.

Lemma run_Class_cons {A : Type} (p : string → bool) (x : string)
    (s : list string) (bot : bool) (c : submatch)
    (k : bool → list string → submatch → option A) :
  run (Class p) bot (x :: s) c k = if p x then k false s c else None.
Proof. reflexivity. Qed.

Lemma run_Eol_nil {A : Type} (bot : bool) (c : submatch)
    (k : bool → list string → submatch → option A) :
  run Eol bot [] c k = k bot [] c.
Proof. reflexivity. Qed.

Lemma exec_unfold (r : re) (bot : bool) (s : list string) :
  exec r bot s
  = match run (Group 0 "" r) bot s (replicate (length (SubexpNames r)) "")
            (λ _ s' c, Some (c, s')) with
    | Some m => Some m
    | None =>
        match s with
        | [] => None
        | _ :: s' => exec r false s'
        end
    end.
Proof. by destruct s. Qed.

(** One of the four sub-commands in front of a text. *)
Lemma run_command {A : Type} (cmd rest : string) (bot : bool) (c : submatch)
    (k : bool → list string → submatch → option A) (a : A) :
  cmd ∈ ["open"; "submit"; "list"; "close"] →
  k false (Utf8.runes rest) c = Some a →
  run (Alt (Lit "open") (Alt (Lit "submit") (Alt (Lit "list") (Lit "close"))))
    bot (Utf8.runes (cmd +:+ rest)) c k = Some a.
Proof.
  intros Hcmd Hk. rewrite !run_Alt.
  repeat (apply elem_of_cons in Hcmd as [->|Hcmd]);
    [| | | | by apply elem_of_nil in Hcmd].
  - by rewrite (run_Lit_ascii "open"), Hk.
  - change ("submit" +:+ rest) with (String "s" ("ubmit" +:+ rest)).
    rewrite run_Lit_mismatch by done.
    change (String "s" ("ubmit" +:+ rest)) with ("submit" +:+ rest).
    by rewrite (run_Lit_ascii "submit"), Hk.
  - change ("list" +:+ rest) with (String "l" ("ist" +:+ rest)).
    rewrite !run_Lit_mismatch by done.
    change (String "l" ("ist" +:+ rest)) with ("list" +:+ rest).
    by rewrite (run_Lit_ascii "list"), Hk.
  - change ("close" +:+ rest) with (String "c" ("lose" +:+ rest)).
    rewrite !run_Lit_mismatch by done.
    change (String "c" ("lose" +:+ rest)) with ("close" +:+ rest).
    by rewrite (run_Lit_ascii "close"), Hk.
Qed.

(** The optional space and the rest of the line, up to the end of the
    text. *)
Lemma run_separator_content {A : Type} (rest : string) (bot : bool)
    (c : submatch) (k : bool → list string → submatch → option A) (a : A) :
  Strings.ContainsByte rest LF = false →
  (∀ bot', k bot' [] (<[2 := after_separator rest]> c) = Some a) →
  run (Cat (Alt (Lit " ") Empty) (Cat (Group 2 "content" (Star dot)) Eol))
    bot (Utf8.runes rest) c k = Some a.
Proof.
  intros Hlf Hk.
  assert (Hcontent : ∀ content b,
    Strings.ContainsByte content LF = false →
    (∀ bot', k bot' [] (<[2 := content]> c) = Some a) →
    run (Cat (Group 2 "content" (Star dot)) Eol) b (Utf8.runes content) c k
    = Some a).
  { intros content b Hc Hkc. rewrite run_Cat, run_Group, run_Star.
    apply star_all; [by apply dot_runes|].
    rewrite run_Eol_nil. cbn [length].
    by rewrite Nat.sub_0_r, firstn_all, runes_bytes. }
  rewrite run_Cat, run_Alt.
  destruct rest as [|y r]; [|destruct (Ascii.eqb_spec y SP) as [->|Hy]].
  - rewrite run_not_space by done. rewrite run_Empty. by apply Hcontent.
  - change (String SP r) with (" " +:+ r).
    rewrite (run_Lit_ascii " ") by done.
    simpl in Hlf, Hk. by rewrite (Hcontent r false Hlf Hk).
  - rewrite run_not_space by (simpl; congruence). rewrite run_Empty.
    apply Hcontent; [done|].
    cbn [after_separator] in Hk.
    by rewrite (proj2 (Ascii.eqb_neq y SP) Hy) in Hk.
Qed.

Lemma exec_order_command (mention cmd rest : string) :
  mention ≠ "" →
  Strings.all_bytes word_byte mention = true →
  cmd ∈ ["open"; "submit"; "list"; "close"] →
  Strings.ContainsByte rest LF = false →
  let text := "@" +:+ mention +:+ " order " +:+ cmd +:+ rest in
  exec REG_EXP_ORDER true (Utf8.runes text)
  = Some ([text; cmd; after_separator rest], []).
Proof.
  intros Hne Hw Hcmd Hlf text.
  rewrite exec_unfold.
  change (length (SubexpNames REG_EXP_ORDER)) with 3.
  assert (Hrun :
    run (Group 0 "" REG_EXP_ORDER) true (Utf8.runes text) (replicate 3 "")
      (λ _ s' c, Some (c, s'))
    = Some ([text; cmd; after_separator rest], [])); [|by rewrite Hrun].
  assert (Hascii : Strings.all_bytes below_RuneSelf cmd = true).
  { clear -Hcmd. repeat (apply elem_of_cons in Hcmd as [->|Hcmd]; [done|]).
    by apply elem_of_nil in Hcmd. }
  unfold REG_EXP_ORDER, Plus, Quest.
  rewrite run_Group, run_Cat, run_Bol, run_Cat.
  unfold text at 1.
  rewrite (run_Lit_ascii "@") by done.
  rewrite !run_Cat.
  destruct mention as [|x w]; [done|].
  simpl in Hw. apply andb_prop in Hw as [Hx Hw].
  assert (Hxa : below_RuneSelf x = true)
    by (clear -Hx; destruct x as [[] [] [] [] [] [] [] []]; done).
  change (String x w +:+ ?r) with (String x (w +:+ r)).
  rewrite runes_cons_single by done.
  rewrite run_Class_cons. unfold Utf8.single at 1. cbn [word]. rewrite Hx.
  rewrite run_Star.
  apply star_word_greedy; [done|].
  change (" order " +:+ ?r) with (String SP ("order " +:+ r)).
  rewrite star_stop by done.
  change (String SP ("order " +:+ ?r)) with (" order " +:+ r).
  rewrite run_Cat, (run_Lit_ascii " order ") by done.
  rewrite run_Cat, run_Group.
  apply run_command; [done|].
  rewrite (group_bytes _ _ Hascii).
  apply run_separator_content; [done|].
  intros bot'. cbn [length].
  by rewrite Nat.sub_0_r, firstn_all, runes_bytes.
Qed.

(** X15: a text made of [@], a non-empty word, [ order ], one of the four
    sub-commands and a rest without line feed is matched by the order
    pattern, and the loop of [handleOrder] reads from it that sub-command
    and, as content, the rest without the one space that may start it; when
    no Status, Menu-today or Menu-tomorrow keyword stands in the text, it
    is classified as this order command. *)
Theorem order_command_parsed (mention cmd rest : string) :
  mention ≠ "" →
  Strings.all_bytes word_byte mention = true →
  cmd ∈ ["open"; "submit"; "list"; "close"] →
  Strings.ContainsByte rest LF = false →
  let text := "@" +:+ mention +:+ " order " +:+ cmd +:+ rest in
  MatchString REG_EXP_ORDER text = true
  ∧ order_fields text = (cmd, after_separator rest)
  ∧ (MatchString REG_EXP_STATUS text = false →
     MatchString REG_EXP_TODAY text = false →
     MatchString REG_EXP_TOMORROW text = false →
     classify text = Order cmd (after_separator rest)).
Proof.
  intros Hne Hw Hcmd Hlf text.
  assert (Hexec : exec REG_EXP_ORDER true (Utf8.runes text)
                  = Some ([text; cmd; after_separator rest], []))
    by (by apply exec_order_command).
  assert (Hmatch : MatchString REG_EXP_ORDER text = true).
  { unfold MatchString. rewrite bool_decide_eq_true, Hexec. by eexists. }
  assert (Hfields : order_fields text = (cmd, after_separator rest)).
  { unfold order_fields, FindAllStringSubmatch.
    assert (Hs : ∃ s, Utf8.runes text = "@" :: s).
    { unfold text. change ("@" +:+ ?r) with (String "@" r).
      rewrite runes_cons_single by done. by eexists. }
    destruct Hs as [s Hs]. rewrite Hs in Hexec |- *.
    cbn [allMatches]. rewrite Hexec. reflexivity. }
  split_and!; [done|done|].
  intros Hs Ht Hm. unfold classify. by rewrite Hs, Ht, Hm, Hmatch, Hfields.
Qed.

Lemma order_command_parsed_witness :
  order_fields "@mensabot order submit  Calzone" = ("submit", " Calzone").
Proof.
  apply (order_command_parsed "mensabot" "submit" "  Calzone").
  - discriminate.
  - reflexivity.
  - rewrite !elem_of_cons. right. by left.
  - reflexivity.
Defined.

(** ** Letter case in keywords *)

Lemma in_all_bytes_list (c : ascii) : In c all_bytes_list.
Proof.
  unfold all_bytes_list. rewrite <- (ascii_nat_embedding c).
  apply in_map, in_seq. pose proof (nat_ascii_bounded c). lia.
Qed.

(** A property of bytes that a check of the 256 bytes confirms. *)
Lemma for_all_bytes (P : ascii → bool) :
  forallb P all_bytes_list = true → ∀ c, P c = true.
Proof.
  intros HP c. eapply forallb_forall in HP; [done|apply in_all_bytes_list].
Qed.

Lemma lower_byte_high (c : ascii) :
  below_RuneSelf c = false → lower_byte c = c.
Proof. destruct c as [[] [] [] [] [] [] [] []]; done. Qed.

Lemma lower_byte_below (c : ascii) :
  below_RuneSelf (lower_byte c) = below_RuneSelf c.
Proof. destruct c as [[] [] [] [] [] [] [] []]; done. Qed.

Lemma lower_byte_word (c : ascii) :
  word_byte (lower_byte c) = word_byte c.
Proof. destruct c as [[] [] [] [] [] [] [] []]; done. Qed.

Lemma fold_rune_lower_byte (c y : ascii) :
  fold_rune c (String (lower_byte y) "") = fold_rune c (String y "").
Proof.
  revert y. revert c.
  assert (Hall : forallb (λ c, forallb (λ y,
    Bool.eqb (fold_rune c (String (lower_byte y) ""))
      (fold_rune c (String y ""))) all_bytes_list) all_bytes_list = true)
    by (vm_compute; reflexivity).
  intros c y.
  pose proof (for_all_bytes _ Hall c) as Hc. cbv beta in Hc.
  pose proof (for_all_bytes _ Hc y) as Hy. cbv beta in Hy.
  by apply Bool.eqb_prop.
Qed.

Lemma byte_in_lower (lo hi : N) (c : ascii) :
  (128 ≤ lo)%N → byte_in lo hi (lower_byte c) = byte_in lo hi c.
Proof.
  intros Hlo. destruct (below_RuneSelf c) eqn:Hc.
  - rewrite !byte_in_high; [done|done|done| |done].
    by rewrite lower_byte_below.
  - by rewrite lower_byte_high.
Qed.

(** The first code point of a text of two bytes or more. *)
Lemma runes_unfold (a b : ascii) (s : string) :
  Utf8.runes (String a (String b s))
  = if Utf8.two_ok a b then String a (Utf8.single b) :: Utf8.runes s
    else match s with
         | "" => Utf8.single a :: Utf8.runes (String b s)
         | String b2 s3 =>
             if Utf8.three_ok a b b2
             then String a (String b (Utf8.single b2)) :: Utf8.runes s3
             else match s3 with
                  | "" => Utf8.single a :: Utf8.runes (String b s)
                  | String b3 s4 =>
                      if Utf8.four_ok a b b2 b3
                      then String a (String b (String b2 (Utf8.single b3)))
                           :: Utf8.runes s4
                      else Utf8.single a :: Utf8.runes (String b s)
                  end
         end.
Proof. reflexivity. Qed.

(** Lowering the letters A-Z changes no boundary between code points. *)
Lemma runes_lower (text : string) :
  Utf8.runes (Strings.map_bytes lower_byte text)
  = map (Strings.map_bytes lower_byte) (Utf8.runes text).
Proof.
  assert (H2 : ∀ b0 b1,
    Utf8.two_ok (lower_byte b0) (lower_byte b1) = Utf8.two_ok b0 b1).
  { intros. unfold Utf8.two_ok, Utf8.cont.
    by rewrite !byte_in_lower by lia. }
  assert (H3 : ∀ b0 b1 b2,
    Utf8.three_ok (lower_byte b0) (lower_byte b1) (lower_byte b2)
    = Utf8.three_ok b0 b1 b2).
  { intros. unfold Utf8.three_ok, Utf8.cont.
    by rewrite !byte_in_lower by lia. }
  assert (H4 : ∀ b0 b1 b2 b3,
    Utf8.four_ok (lower_byte b0) (lower_byte b1) (lower_byte b2)
      (lower_byte b3)
    = Utf8.four_ok b0 b1 b2 b3).
  { intros. unfold Utf8.four_ok, Utf8.cont.
    by rewrite !byte_in_lower by lia. }
  remember (String.length text) as n eqn:Hn.
  revert text Hn. induction (lt_wf n) as [n _ IH]. intros text ->.
  assert (IH' : ∀ t, String.length t < String.length text →
    Utf8.runes (Strings.map_bytes lower_byte t)
    = map (Strings.map_bytes lower_byte) (Utf8.runes t))
    by (intros t Ht; by eapply IH).
  clear IH.
  destruct text as [|b0 s1]; [done|].
  destruct s1 as [|b1 s2]; [done|].
  assert (I1 := IH' (String b1 s2) ltac:(simpl; lia)).
  cbn [Strings.map_bytes]. rewrite !runes_unfold, H2.
  destruct (Utf8.two_ok b0 b1).
  { cbn [map Strings.map_bytes Utf8.single]. f_equal.
    apply IH'. simpl. lia. }
  destruct s2 as [|b2 s3]; cbn [Strings.map_bytes].
  { cbn [map]. by f_equal. }
  rewrite H3. destruct (Utf8.three_ok b0 b1 b2).
  { cbn [map Strings.map_bytes Utf8.single]. f_equal.
    apply IH'. simpl. lia. }
  destruct s3 as [|b3 s4]; cbn [Strings.map_bytes].
  { cbn [map]. by f_equal. }
  rewrite H4. destruct (Utf8.four_ok b0 b1 b2 b3).
  { cbn [map Strings.map_bytes Utf8.single]. f_equal.
    apply IH'. simpl. lia. }
  cbn [map]. by f_equal.
Qed.

Lemma eqb_lower_high (t : string) :
  Strings.all_bytes (λ b, negb (below_RuneSelf b)) t = true →
  ∀ x, String.eqb (Strings.map_bytes lower_byte x) t = String.eqb x t.
Proof.
  induction t as [|h t IH]; intros Ht x; [by destruct x|].
  simpl in Ht. apply andb_prop in Ht as [Hh Ht].
  apply negb_true_iff in Hh.
  destruct x as [|y x]; [done|]. cbn [Strings.map_bytes String.eqb].
  rewrite (IH Ht).
  assert (Hy : Ascii.eqb (lower_byte y) h = Ascii.eqb y h); [|by rewrite Hy].
  destruct (below_RuneSelf y) eqn:Hlow.
  - assert (H1 : Ascii.eqb (lower_byte y) h = false).
    { apply Ascii.eqb_neq. intros <-. rewrite lower_byte_below in Hh.
      congruence. }
    assert (H2 : Ascii.eqb y h = false).
    { apply Ascii.eqb_neq. intros <-. congruence. }
    by rewrite H1, H2.
  - by rewrite lower_byte_high.
Qed.

Lemma is_rune_long (a y z : ascii) (t : string) :
  is_rune a (String y (String z t)) = false.
Proof. unfold is_rune. simpl. by destruct (Ascii.eqb y a). Qed.

(** The classes of a keyword pattern take a code point and its lower-case
    form alike. *)
Lemma fold_rune_lower (c : ascii) (x : string) :
  fold_rune c (Strings.map_bytes lower_byte x) = fold_rune c x.
Proof.
  destruct x as [|y [|z t]]; [done | apply fold_rune_lower_byte |].
  unfold fold_rune. cbn [Strings.map_bytes]. rewrite !is_rune_long.
  change (String (lower_byte y) (String (lower_byte z)
            (Strings.map_bytes lower_byte t)))
    with (Strings.map_bytes lower_byte (String y (String z t))).
  by rewrite !eqb_lower_high.
Qed.

Lemma fold_nonword_lower (x : string) :
  fold_nonword (Strings.map_bytes lower_byte x) = fold_nonword x.
Proof.
  unfold fold_nonword. rewrite !eqb_lower_high by done. f_equal. f_equal.
  f_equal. destruct x as [|y [|z t]]; [done | apply lower_byte_word | done].
Qed.

Lemma bind_map_image {X Y : Type} (h : X → X) (h' : Y → Y)
    (f : X → list Y) (l : list X) :
  (∀ x, f (h x) = map h' (f x)) →
  map h l ≫= f = map h' (l ≫= f).
Proof.
  intros Hf. induction l as [|x l IH]; [done|].
  cbn [map]. rewrite !bind_cons, map_app, Hf. by rewrite IH.
Qed.

Section ReachImage.
Variable g : string → string.

Lemma reach_star_image (p : string → bool) :
  (∀ x, p (g x) = p x) →
  ∀ (s : list string) (bot : bool),
    reach_star p bot (map g s) = map (image g) (reach_star p bot s).
Proof.
  intros Hp. induction s as [|x s IH]; intros bot; [done|].
  cbn [map reach_star]. rewrite Hp. destruct (p x); [|done].
  by rewrite IH, map_app.
Qed.

(** A pattern whose classes do not tell a code point from its image
    reaches, in the image of a text, the images of the positions it reaches
    in the text. *)
Lemma reach_image (r : re) :
  classes_respect g r →
  ∀ (bot : bool) (s : list string),
    reach r bot (map g s) = map (image g) (reach r bot s).
Proof.
  induction r as [|p| | |r1 IH1 r2 IH2|r1 IH1 r2 IH2|p|i n r1 IH1];
    intros Hr bot s; cbn [reach classes_respect] in *.
  - done.
  - destruct s as [|x s]; [done|]. cbn [map]. rewrite Hr. by destruct (p x).
  - by destruct bot.
  - by destruct s.
  - destruct Hr as [Hr1 Hr2]. rewrite (IH1 Hr1).
    apply bind_map_image. intros [b' s']. apply (IH2 Hr2).
  - destruct Hr as [Hr1 Hr2]. by rewrite (IH1 Hr1), (IH2 Hr2), map_app.
  - by apply reach_star_image.
  - by apply IH1.
Qed.

Lemma reach_image_nonempty (r : re) (bot : bool) (s : list string) :
  classes_respect g r →
  reach r bot (map g s) ≠ [] ↔ reach r bot s ≠ [].
Proof.
  intros Hr. rewrite (reach_image r Hr bot).
  by destruct (reach r bot s).
Qed.

Lemma occurs_image (r : re) :
  classes_respect g r →
  ∀ (s : list string) (bot : bool),
    occurs r bot (map g s) ↔ occurs r bot s.
Proof.
  intros Hr. induction s as [|x s IH]; intros bot.
  - reflexivity.
  - cbn [map occurs]. change (g x :: map g s) with (map g (x :: s)).
    by rewrite reach_image_nonempty, IH.
Qed.

End ReachImage.

Lemma LitI_respects (l : string) :
  classes_respect (Strings.map_bytes lower_byte) (LitI l).
Proof.
  induction l as [|c l IH]; [done|]. cbn [LitI classes_respect].
  split; [|done]. intros x. apply fold_rune_lower.
Qed.

Lemma before_word_respects :
  classes_respect (Strings.map_bytes lower_byte) before_word.
Proof. split; [exact I|]. intros x. apply fold_nonword_lower. Qed.

Lemma after_word_respects :
  classes_respect (Strings.map_bytes lower_byte) after_word.
Proof. split; [exact I|]. intros x. apply fold_nonword_lower. Qed.

Ltac respects :=
  lazymatch goal with
  | |- classes_respect _ before_word => exact before_word_respects
  | |- classes_respect _ after_word => exact after_word_respects
  | |- classes_respect _ (LitI _) => apply LitI_respects
  | |- classes_respect _ Empty => exact I
  | |- classes_respect _ (Cat _ _) =>
      change (classes_respect ?g (Cat ?a ?b))
        with (classes_respect g a ∧ classes_respect g b);
      split; respects
  | |- classes_respect _ (Alt _ _) =>
      change (classes_respect ?g (Alt ?a ?b))
        with (classes_respect g a ∧ classes_respect g b);
      split; respects
  | |- classes_respect _ (Group _ _ _) =>
      change (classes_respect ?g (Group ?i ?n ?a))
        with (classes_respect g a);
      respects
  end.

Lemma keyword_patterns_respect :
  Forall (classes_respect (Strings.map_bytes lower_byte)) keyword_patterns.
Proof.
  unfold keyword_patterns.
  apply Forall_cons_2; [unfold REG_EXP_STATUS; respects|].
  apply Forall_cons_2; [unfold REG_EXP_TODAY; respects|].
  apply Forall_cons_2; [unfold REG_EXP_TOMORROW; respects|].
  apply Forall_cons_2; [unfold REG_EXP_LEGEND; respects|].
  apply Forall_cons_2; [unfold REG_EXP_HELP; respects|].
  apply Forall_cons_2; [unfold REG_EXP_THANKS; respects|].
  apply Forall_nil_2.
Qed.

Lemma MatchString_lower (r : re) (text : string) :
  classes_respect (Strings.map_bytes lower_byte) r →
  MatchString r (Strings.map_bytes lower_byte text) = MatchString r text.
Proof.
  intros Hr. apply eq_true_iff_eq.
  rewrite !MatchString_occurs, runes_lower. by apply occurs_image.
Qed.

(** X16: the keyword patterns (Status, Menu-today, Menu-tomorrow, Legend,
    Help, Thanks) do not see the case of the letters A-Z: two texts that
    become equal when these letters are lowered are matched by the same
    keyword patterns, and, when the order pattern matches neither, they are
    classified alike. *)
Theorem keywords_ignore_case (text1 text2 : string) :
  Strings.map_bytes lower_byte text1 = Strings.map_bytes lower_byte text2 →
  Forall (λ r, MatchString r text1 = MatchString r text2) keyword_patterns
  ∧ (MatchString REG_EXP_ORDER text1 = false →
     MatchString REG_EXP_ORDER text2 = false →
     classify text1 = classify text2).
Proof.
  intros Hlow.
  assert (Hall : Forall (λ r, MatchString r text1 = MatchString r text2)
                   keyword_patterns).
  { eapply Forall_impl; [apply keyword_patterns_respect|].
    intros r Hr. cbv beta.
    by rewrite <- (MatchString_lower r text1), <- (MatchString_lower r text2),
      Hlow. }
  split; [done|]. intros H1 H2.
  unfold keyword_patterns in Hall. rewrite !Forall_cons in Hall.
  destruct Hall as (Hs & Ht & Hm & Hl & Hh & Hk & _).
  unfold classify. by rewrite H1, H2, Hs, Ht, Hm, Hl, Hh, Hk.
Qed.

Lemma keywords_ignore_case_witness :
  classify "HeLP, ToDaY!" = classify "help, today!".
Proof.
  apply (keywords_ignore_case "HeLP, ToDaY!" "help, today!");
    vm_compute; reflexivity.
Defined.

(** ** The normal form of a dish name *)

(** *** Squeezing a doubled byte: [aa] becomes [a] *)

Section Squeeze.
Variable a : ascii.

Lemma squeeze_hd (x : ascii) (s : string) :
  hd (Replace2 a a a (String x s)) = Some x.
Proof.
  destruct s as [|y s]; [by rewrite Replace2_one|].
  rewrite Replace2_cons.
  destruct (Ascii.eqb_spec x a) as [->|]; [|done].
  by destruct (Ascii.eqb y a).
Qed.

(** No pair is created. *)
Lemma squeeze_keeps (p q : ascii) (u : string) :
  nopair p q u = true → nopair p q (Replace2 a a a u) = true.
Proof.
  induction u as [|x|x y s IH1 IH2] using string_pair_ind; intros Hu.
  - done.
  - by rewrite Replace2_one.
  - rewrite Replace2_cons.
    destruct (Ascii.eqb x a && Ascii.eqb y a) eqn:Hm.
    + apply andb_prop in Hm as [->%Ascii.eqb_eq ->%Ascii.eqb_eq].
      pose proof (nopair_tail _ _ _ _ Hu) as Hu'.
      rewrite nopair_cons, IH1 by eauto using nopair_tail.
      rewrite andb_true_r. destruct s as [|z s]; [by rewrite andb_false_r|].
      rewrite squeeze_hd. simpl.
      rewrite nopair_cons in Hu'. simpl in Hu'.
      by apply andb_prop in Hu' as [-> _].
    + rewrite nopair_cons, squeeze_hd, IH2 by eauto using nopair_tail.
      rewrite nopair_cons in Hu. simpl in *.
      by apply andb_prop in Hu as [-> _].
Qed.

Lemma squeeze_starts (u : string) :
  starts_clean u = true → starts_clean (Replace2 a a a u) = true.
Proof.
  destruct u as [|x s]; [done|]. simpl. intros Hx.
  pose proof (squeeze_hd x s) as Hhd.
  destruct (Replace2 a a a (String x s)) as [|z v]; [done|].
  by injection Hhd as ->.
Qed.

Lemma squeeze_ends (u : string) :
  ends_clean u = true → ends_clean (Replace2 a a a u) = true.
Proof.
  induction u as [|x|x y s IH1 IH2] using string_pair_ind; intros Hu.
  - done.
  - by rewrite Replace2_one.
  - rewrite Replace2_cons.
    destruct (Ascii.eqb x a && Ascii.eqb y a) eqn:Hm.
    + apply andb_prop in Hm as [->%Ascii.eqb_eq ->%Ascii.eqb_eq].
      destruct s as [|z s]; [done|].
      specialize (IH1 Hu). pose proof (squeeze_hd z s) as Hhd.
      by destruct (Replace2 a a a (String z s)) as [|z' v].
    + specialize (IH2 Hu). pose proof (squeeze_hd y s) as Hhd.
      by destruct (Replace2 a a a (String y s)) as [|z' v].
Qed.

End Squeeze.

(** *** Lengths *)

Lemma Replace2_length (a b n : ascii) (u : string) :
  String.length (Replace2 a b n u) ≤ String.length u.
Proof.
  induction u as [|x|x y s IH1 IH2] using string_pair_ind.
  - done.
  - by rewrite Replace2_one.
  - rewrite Replace2_cons.
    destruct (Ascii.eqb x a && Ascii.eqb y b);
      cbn [String.length] in *; lia.
Qed.

(** A replacement that changes nothing found nothing to replace. *)
Lemma Replace2_shrinks (a b n : ascii) (u : string) :
  nopair a b u = false →
  String.length (Replace2 a b n u) < String.length u.
Proof.
  induction u as [|x|x y s IH1 IH2] using string_pair_ind; intros Hu.
  - done.
  - done.
  - rewrite Replace2_cons. cbn [nopair] in Hu.
    destruct (Ascii.eqb x a && Ascii.eqb y b).
    + pose proof (Replace2_length a b n s).
      cbn [String.length]. lia.
    + specialize (IH2 Hu). cbn [String.length] in *. lia.
Qed.

Lemma TrimLeft_length (u cutset : string) :
  String.length (Strings.TrimLeft u cutset) ≤ String.length u.
Proof.
  induction u as [|x u IH]; [done|]. cbn [Strings.TrimLeft].
  destruct (Strings.ContainsByte cutset x); cbn [String.length] in *; lia.
Qed.

Lemma TrimRight_length (u cutset : string) :
  String.length (Strings.TrimRight u cutset) ≤ String.length u.
Proof.
  induction u as [|x u IH]; [done|]. cbn [Strings.TrimRight].
  destruct (Strings.TrimRight u cutset) as [|y r].
  - destruct (Strings.ContainsByte cutset x); cbn [String.length] in *; lia.
  - cbn [String.length] in *. lia.
Qed.

Lemma Trim_length (u cutset : string) :
  String.length (Strings.Trim u cutset) ≤ String.length u.
Proof.
  unfold Strings.Trim.
  pose proof (TrimRight_length (Strings.TrimLeft u cutset) cutset).
  pose proof (TrimLeft_length u cutset). lia.
Qed.

(** *** The four passes *)

Lemma trimNodeName_passes (s : string) :
  trimNodeName s
  = Replace2 SP SP SP
      (Replace2 SP "," ","
         (Replace2 SP ")" ")"
            (Replace2 "(" SP "(" (Strings.Trim s name_cutset)))).
Proof. reflexivity. Qed.

(** The name that comes out neither starts nor ends with a space, a tab
    or a line feed. *)
Lemma trimNodeName_ends (s : string) :
  starts_clean (trimNodeName s) = true ∧ ends_clean (trimNodeName s) = true.
Proof.
  rewrite trimNodeName_passes. destruct (Trim_clean s) as [S0 E0]. split.
  - apply squeeze_starts, drop_first_starts; [done|].
    apply drop_first_starts; [done|]. by apply drop_second_starts.
  - apply squeeze_ends, drop_first_ends; [done|].
    apply drop_first_ends; [done|]. by apply drop_second_ends.
Qed.

(** Without two spaces in a row after trimming, none of the four pairs is
    left. *)
Lemma trimNodeName_pairs (s : string) :
  nopair SP SP (Strings.Trim s name_cutset) = true →
  nopair "(" SP (trimNodeName s) = true
  ∧ nopair SP ")" (trimNodeName s) = true
  ∧ nopair SP "," (trimNodeName s) = true
  ∧ nopair SP SP (trimNodeName s) = true.
Proof.
  intros D0. rewrite trimNodeName_passes.
  set (t := Strings.Trim s name_cutset) in *.
  split_and!.
  - apply squeeze_keeps. do 2 (apply drop_first_keeps; [done|]).
    by apply drop_second_clears.
  - apply squeeze_keeps. apply drop_first_keeps; [done|].
    apply drop_first_clears; [done|]. by apply drop_second_keeps.
  - apply squeeze_keeps. apply drop_first_clears; [done|].
    apply drop_first_keeps; [done|]. by apply drop_second_keeps.
  - apply squeeze_keeps. do 2 (apply drop_first_keeps; [done|]).
    by apply drop_second_keeps.
Qed.

(** X17: the name that [trimNodeName] returns neither starts nor ends with
    a space, a tab or a line feed and is not longer than the text it was
    given; and when the text, once trimmed, holds no two spaces in a row,
    the name holds none of the four pairs that are replaced: no space after
    an opening bracket, none before a closing bracket or a comma, and no
    two spaces in a row. *)
Theorem trimNodeName_normal_form (s : string) :
  starts_clean (trimNodeName s) = true
  ∧ ends_clean (trimNodeName s) = true
  ∧ String.length (trimNodeName s) ≤ String.length s
  ∧ (Strings.Contains (Strings.Trim s name_cutset) "  " = false →
     Strings.Contains (trimNodeName s) "( " = false
     ∧ Strings.Contains (trimNodeName s) " )" = false
     ∧ Strings.Contains (trimNodeName s) " ," = false
     ∧ Strings.Contains (trimNodeName s) "  " = false).
Proof.
  destruct (trimNodeName_ends s) as [Hs He]. split_and!; [done|done| |].
  - rewrite trimNodeName_passes.
    repeat (etrans; [apply Replace2_length|]). apply Trim_length.
  - change "  " with (String SP (String SP "")).
    change "( " with (String "(" (String SP "")).
    change " )" with (String SP (String ")" "")).
    change " ," with (String SP (String "," "")).
    rewrite !nopair_Contains, !negb_false_iff. apply trimNodeName_pairs.
Qed.

Lemma trimNodeName_normal_form_witness :
  Strings.Contains (trimNodeName "  Nudeln ( mit Sauce ) , Salat ") "( "
  = false.
Proof.
  apply (trimNodeName_normal_form "  Nudeln ( mit Sauce ) , Salat ").
  reflexivity.
Defined.

(** X18: the texts that [trimNodeName] leaves as they are are exactly those
    that neither start nor end with a space, a tab or a line feed and hold
    none of the four pairs. *)
Theorem trimNodeName_fixed_points (s : string) :
  trimNodeName s = s ↔
  starts_clean s = true ∧ ends_clean s = true
  ∧ Strings.Contains s "( " = false
  ∧ Strings.Contains s " )" = false
  ∧ Strings.Contains s " ," = false
  ∧ Strings.Contains s "  " = false.
Proof.
  change "  " with (String SP (String SP "")).
  change "( " with (String "(" (String SP "")).
  change " )" with (String SP (String ")" "")).
  change " ," with (String SP (String "," "")).
  rewrite !nopair_Contains, !negb_false_iff.
  split.
  - intros Hfix. destruct (trimNodeName_ends s) as [Hs He].
    rewrite Hfix in Hs, He. split_and!; [done|done|..].
    all: rewrite trimNodeName_passes, (Trim_fixed _ Hs He) in Hfix.
    all: pose proof (Replace2_length "(" SP "(" s) as L1.
    all: pose proof (Replace2_length SP ")" ")" (Replace2 "(" SP "(" s))
           as L2.
    all: pose proof (Replace2_length SP "," ","
           (Replace2 SP ")" ")" (Replace2 "(" SP "(" s))) as L3.
    all: pose proof (Replace2_length SP SP SP
           (Replace2 SP "," ","
              (Replace2 SP ")" ")" (Replace2 "(" SP "(" s)))) as L4.
    all: rewrite Hfix in L4.
    all: assert (P1 : nopair "(" SP s = true)
           by (destruct (nopair "(" SP s) eqn:Hp; [done|];
               pose proof (Replace2_shrinks "(" SP "(" s Hp); lia).
    all: rewrite (Replace2_absent _ _ _ _ P1) in *.
    all: assert (P2 : nopair SP ")" s = true)
           by (destruct (nopair SP ")" s) eqn:Hp; [done|];
               pose proof (Replace2_shrinks SP ")" ")" s Hp); lia).
    all: rewrite (Replace2_absent _ _ _ _ P2) in *.
    all: assert (P3 : nopair SP "," s = true)
           by (destruct (nopair SP "," s) eqn:Hp; [done|];
               pose proof (Replace2_shrinks SP "," "," s Hp); lia).
    all: rewrite (Replace2_absent _ _ _ _ P3) in *.
    all: try done.
    destruct (nopair SP SP s) eqn:Hp; [done|].
    pose proof (Replace2_shrinks SP SP SP s Hp) as L. rewrite Hfix in L. lia.
  - intros (Hs & He & P1 & P2 & P3 & P4).
    rewrite trimNodeName_passes, (Trim_fixed _ Hs He).
    rewrite (Replace2_absent _ _ _ _ P1), (Replace2_absent _ _ _ _ P2),
      (Replace2_absent _ _ _ _ P3). by apply Replace2_absent.
Qed.

(** ** The row of a dish *)

(** X19: the row that [String] makes of a dish has three cells: the name,
    the icons and the three prices; the cell of the icons holds neither a
    cell separator nor a line feed, and it shows the heart iff the dish is
    a favourite, the sunflower iff it is vegan, the carrot iff it is
    vegetarian and not vegan, and the cow, the pig, the fish, the rooster
    and the glass of milk iff the flag for beef, pork, fish, chicken and
    lactose-free is set. *)
Theorem dish_String_row `{Env} (d : dish) :
  ∃ cell,
    dish_String d
    = "| " +:+ name d +:+ " |" +:+ cell +:+ " | " +:+ price d 0 +:+ " // "
      +:+ price d 1 +:+ " // " +:+ price d 2 +:+ " |"
    ∧ Strings.Contains cell "|" = false
    ∧ Strings.Contains cell nl = false
    ∧ Strings.Contains cell ":heart_eyes:" = isFavorite d
    ∧ Strings.Contains cell ":sunflower:" = isVegan d
    ∧ Strings.Contains cell ":carrot:" = isVegetarian d && negb (isVegan d)
    ∧ Strings.Contains cell ":cow2:" = containsBeef d
    ∧ Strings.Contains cell ":pig2:" = containsPork d
    ∧ Strings.Contains cell ":fish:" = containsFish d
    ∧ Strings.Contains cell ":rooster:" = containsChicken d
    ∧ Strings.Contains cell ":milk_glass:" = lactoseFree d.
Proof.
  exists ((if isFavorite d then " :heart_eyes:" else "")
          +:+ (if isVegan d then " :sunflower:"
               else if isVegetarian d then " :carrot:" else "")
          +:+ (if containsBeef d then " :cow2:" else "")
          +:+ (if containsPork d then " :pig2:" else "")
          +:+ (if containsFish d then " :fish:" else "")
          +:+ (if containsChicken d then " :rooster:" else "")
          +:+ (if lactoseFree d then " :milk_glass:" else "")).
  unfold dish_String.
  destruct (isFavorite d), (isVegan d), (isVegetarian d), (containsBeef d),
    (containsPork d), (containsFish d), (containsChicken d), (lactoseFree d).
  all: split; [reflexivity|].
  all: vm_compute; by split_and!.
Qed.

(** ** The listening loop *)

Section ListenFacts.
Context `{Env}.

Lemma handleWebSocketEvent_posts (event : option WebSocketEvent)
    (w : world) :
  ∃ out,
    posted (world_of (handleWebSocketEvent event w)) = posted w ++ out
    ∧ length out ≤ 1
    ∧ Forall (answers [event] (user_Id (bot w))) out
    ∧ user_Id (bot (world_of (handleWebSocketEvent event w)))
      = user_Id (bot w)
    ∧ channelDebug_Id (bot (world_of (handleWebSocketEvent event w)))
      = channelDebug_Id (bot w).
Proof.
  assert (Hnone : ∀ w0 : world, ∃ out : list sent,
            posted w0 = posted w0 ++ out ∧ length out ≤ 1
            ∧ Forall (answers [event] (user_Id (bot w0))) out
            ∧ user_Id (bot w0) = user_Id (bot w0)
            ∧ channelDebug_Id (bot w0) = channelDebug_Id (bot w0)).
  { intros w0. exists []. rewrite app_nil_r. split_and!; try done.
    simpl. lia. }
  assert (Hcmd : ∀ ev post,
            event = Some ev → Event ev = WEBSOCKET_EVENT_POSTED →
            Data_post ev = Some (Some post) →
            UserId post ≠ user_Id (bot w) →
            ∃ out,
              posted (world_of (handleCommand post w)) = posted w ++ out
              ∧ length out ≤ 1
              ∧ Forall (answers [event] (user_Id (bot w))) out
              ∧ user_Id (bot (world_of (handleCommand post w)))
                = user_Id (bot w)
              ∧ channelDebug_Id (bot (world_of (handleCommand post w)))
                = channelDebug_Id (bot w)).
  { intros ev post -> Hev Hpost Hown. rewrite handleCommand_dispatch.
    destruct (dispatch_posts (classify (Message post)) post w)
      as (out & Hout & Hlen & Hthr & Hid & Hch).
    exists out. split_and!; try done.
    eapply Forall_impl; [exact Hthr|]. intros m Hm.
    exists ev, post. split_and!; try done. apply list_elem_of_singleton.
    reflexivity. }
  unfold handleWebSocketEvent, nothing, mret, M_ret.
  destruct event as [ev|]; [|apply Hnone].
  destruct (String.eqb_spec (Event ev) WEBSOCKET_EVENT_POSTED) as [Hev|];
    [|apply Hnone]. simpl.
  destruct (Data_post ev) as [[post|]|] eqn:Hpost;
    [|apply Hnone|apply Hnone].
  unfold mbind, M_bind, get_bot.
  destruct (String.eqb_spec (UserId post) (user_Id (bot w))) as [|Hown];
    [apply Hnone|].
  destruct (Data_mentions ev) as [mentions|].
  - destruct (3 <? length mentions)%nat; [apply Hnone|].
    destruct (existsb _ mentions); [|apply Hnone]. by eapply Hcmd.
  - destruct (String.eqb (Broadcast_ChannelId ev) (channelDebug_Id (bot w)));
      [|apply Hnone]. by eapply Hcmd.
Qed.

Lemma listen_posts (events : list (option WebSocketEvent)) :
  ∀ w : world,
  ∃ out,
    posted (world_of (listen events w)) = posted w ++ out
    ∧ length out ≤ length events
    ∧ Forall (answers events (user_Id (bot w))) out
    ∧ user_Id (bot (world_of (listen events w))) = user_Id (bot w)
    ∧ channelDebug_Id (bot (world_of (listen events w)))
      = channelDebug_Id (bot w).
Proof.
  induction events as [|event rest IH]; intros w.
  - exists []. rewrite app_nil_r. by split_and!.
  - destruct (handleWebSocketEvent_posts event w)
      as (out1 & Hout1 & Hlen1 & Hans1 & Hid1 & Hch1).
    cbn [listen]. unfold mbind, M_bind.
    destruct (handleWebSocketEvent event w) as [[] w1|w1];
      cbn [world_of] in *.
    + destruct (IH w1) as (out2 & Hout2 & Hlen2 & Hans2 & Hid2 & Hch2).
      exists (out1 ++ out2). split_and!.
      * by rewrite Hout2, Hout1, app_assoc.
      * rewrite length_app. cbn [length]. lia.
      * apply Forall_app. split.
        -- eapply Forall_impl; [exact Hans1|].
           intros m (ev & post & Hin & Hrest). exists ev, post.
           split; [|done]. apply list_elem_of_singleton in Hin.
           rewrite Hin. by left.
        -- eapply Forall_impl; [exact Hans2|].
           intros m (ev & post & Hin & Hrest). exists ev, post.
           rewrite <- Hid1. split; [|done]. by right.
      * by rewrite Hid2.
      * by rewrite Hch2.
    + exists out1. split_and!; try done.
      * cbn [length]. lia.
      * eapply Forall_impl; [exact Hans1|].
        intros m (ev & post & Hin & Hrest). exists ev, post.
        split; [|done]. apply list_elem_of_singleton in Hin.
        rewrite Hin. by left.
Qed.

(** X20: after any number of events, and also when a handler has ended
    the process with a panic, [startListening] has created the
    announcement of its start in the debug channel, outside of any thread,
    and after it at most one post for every event received; each of these
    posts is a reply, in its channel, to a post that came with one of the
    [posted] events and was not written by the bot itself; the posts
    created before are kept, and the identity of the bot is left alone. *)
Theorem startListening_posts (displayName : string)
    (events : list (option WebSocketEvent)) (w : world) :
  ∃ replies,
    posted (world_of (startListening displayName events w))
    = posted w
      ++ mkSent (start_text displayName) (channelDebug_Id (bot w)) ""
         :: replies
    ∧ length replies ≤ length events
    ∧ Forall (answers events (user_Id (bot w))) replies
    ∧ user_Id (bot (world_of (startListening displayName events w)))
      = user_Id (bot w)
    ∧ channelDebug_Id
        (bot (world_of (startListening displayName events w)))
      = channelDebug_Id (bot w).
Proof.
  unfold startListening, mbind, M_bind, get_bot, sendMessage.
  set (w1 := mkWorld (bot w)
               (posted w
                ++ [mkSent (start_text displayName)
                      (channelDebug_Id (bot w)) ""])
               (rng w)).
  destruct (listen_posts events w1) as (out & Hout & Hlen & Hans & Hid & Hch).
  exists out. split_and!; try done.
  rewrite Hout. unfold w1. cbn [posted]. by rewrite <- app_assoc.
Qed.

End ListenFacts.

(** ** Keywords as words *)

(** A byte below [0x80] ends the code point before it. *)
Lemma runes_app_ascii (a : string) (c : ascii) (b : string) :
  below_RuneSelf c = true →
  Utf8.runes (a +:+ String c b) = Utf8.runes a ++ Utf8.runes (String c b).
Proof.
  intros Hc.
  assert (Hcont : Utf8.cont c = false)
    by (unfold Utf8.cont; by rewrite byte_in_high by first [done | lia]).
  assert (H2 : ∀ b0, Utf8.two_ok b0 c = false)
    by (intros; unfold Utf8.two_ok; rewrite Hcont; apply andb_false_r).
  assert (H3 : ∀ b0 b1, Utf8.three_ok b0 b1 c = false)
    by (intros; unfold Utf8.three_ok; rewrite Hcont; apply andb_false_r).
  assert (H3' : ∀ b0 b2, Utf8.three_ok b0 c b2 = false).
  { intros. unfold Utf8.three_ok.
    rewrite Hcont, !(byte_in_high _ _ c) by first [done | lia].
    by rewrite !andb_false_r. }
  assert (H4 : ∀ b0 b1 b2, Utf8.four_ok b0 b1 b2 c = false)
    by (intros; unfold Utf8.four_ok; rewrite Hcont; apply andb_false_r).
  assert (H4' : ∀ b0 b1 b3, Utf8.four_ok b0 b1 c b3 = false)
    by (intros; unfold Utf8.four_ok; rewrite Hcont; by rewrite andb_false_r).
  assert (H4'' : ∀ b0 b2 b3, Utf8.four_ok b0 c b2 b3 = false).
  { intros. unfold Utf8.four_ok.
    rewrite Hcont, !(byte_in_high _ _ c) by first [done | lia].
    by rewrite !andb_false_r. }
  remember (String.length a) as n eqn:Hn.
  revert a Hn. induction (lt_wf n) as [n _ IH]. intros a ->.
  assert (IH' : ∀ t, String.length t < String.length a →
    Utf8.runes (t +:+ String c b) = Utf8.runes t ++ Utf8.runes (String c b))
    by (intros t Ht; by eapply IH).
  clear IH.
  destruct a as [|b0 a]; [done|].
  destruct a as [|b1 a].
  { rewrite string_app_cons, string_app_nil_l, runes_unfold, H2.
    destruct b as [|b2 [|b3 s4]]; rewrite ?H3', ?H4''; reflexivity. }
  assert (I1 := IH' (String b1 a) ltac:(simpl; lia)).
  rewrite !string_app_cons in *. rewrite (runes_unfold b0 b1 a).
  rewrite (runes_unfold b0 b1 (a +:+ String c b)).
  destruct (Utf8.two_ok b0 b1).
  { rewrite <- app_comm_cons. f_equal. apply IH'. simpl. lia. }
  destruct a as [|b2 a].
  { rewrite string_app_nil_l in *. rewrite H3.
    destruct b as [|b3 s4]; rewrite ?H4'; rewrite <- app_comm_cons;
      by f_equal. }
  rewrite !string_app_cons in *. destruct (Utf8.three_ok b0 b1 b2).
  { rewrite <- app_comm_cons. f_equal. apply IH'. simpl. lia. }
  destruct a as [|b3 a].
  { rewrite string_app_nil_l in *. rewrite H4. rewrite <- app_comm_cons.
    by f_equal. }
  rewrite !string_app_cons in *. destruct (Utf8.four_ok b0 b1 b2 b3).
  { rewrite <- app_comm_cons. f_equal. apply IH'. simpl. lia. }
  rewrite <- app_comm_cons. by f_equal.
Qed.

(** *** Boundaries *)

Lemma ends_at_boundary_inv (pre : string) :
  ends_at_boundary pre = true →
  pre = "" ∨ ∃ p c, pre = p +:+ String c "" ∧ boundary_byte c = true.
Proof.
  induction pre as [|x pre IH]; [by left|]. intros Hb. right.
  destruct pre as [|y pre].
  - by exists "", x.
  - destruct (IH Hb) as [|(p & c & -> & Hc)]; [done|].
    exists (String x p), c. by rewrite string_app_cons.
Qed.

Lemma boundary_nonword (c : ascii) :
  boundary_byte c = true →
  below_RuneSelf c = true ∧ fold_nonword (Utf8.single c) = true.
Proof.
  unfold boundary_byte. intros [Hc Hw%negb_true_iff]%andb_prop.
  split; [done|]. unfold fold_nonword, Utf8.single, word. rewrite Hw.
  unfold long_s, kelvin. cbn [String.eqb orb].
  by repeat match goal with
            | |- context [Ascii.eqb c ?x] => destruct (Ascii.eqb c x)
            end.
Qed.

(** *** Positions that a pattern can reach *)

Lemma in_reach_Empty (b : bool) (s : list string) :
  (b, s) ∈ reach Empty b s.
Proof. by left. Qed.

Lemma in_reach_Group (i : nat) (n : string) (r : re) (b : bool)
    (s : list string) (e : bool * list string) :
  e ∈ reach r b s → e ∈ reach (Group i n r) b s.
Proof. done. Qed.

Lemma in_reach_Alt_l (r1 r2 : re) (b : bool) (s : list string)
    (e : bool * list string) :
  e ∈ reach r1 b s → e ∈ reach (Alt r1 r2) b s.
Proof. cbn [reach]. rewrite elem_of_app. by left. Qed.

Lemma in_reach_Alt_r (r1 r2 : re) (b : bool) (s : list string)
    (e : bool * list string) :
  e ∈ reach r2 b s → e ∈ reach (Alt r1 r2) b s.
Proof. cbn [reach]. rewrite elem_of_app. by right. Qed.

Lemma in_reach_Cat (r1 r2 : re) (b b1 : bool) (s s1 : list string)
    (e : bool * list string) :
  (b1, s1) ∈ reach r1 b s → e ∈ reach r2 b1 s1 → e ∈ reach (Cat r1 r2) b s.
Proof.
  intros H1 H2. cbn [reach]. apply list_elem_of_bind. by exists (b1, s1).
Qed.

Lemma in_reach_Class (p : string → bool) (b : bool) (x : string)
    (s : list string) :
  p x = true → (false, s) ∈ reach (Class p) b (x :: s).
Proof. intros Hp. cbn [reach]. rewrite Hp. by left. Qed.

Lemma in_reach_LitI_nil (b : bool) (s : list string) :
  (b, s) ∈ reach (LitI "") b s.
Proof. by left. Qed.

Lemma in_reach_LitI_cons (c : ascii) (k : string) (b : bool) (x : string)
    (s : list string) (e : bool * list string) :
  fold_rune c x = true →
  e ∈ reach (LitI k) false s → e ∈ reach (LitI (String c k)) b (x :: s).
Proof.
  intros Hc He. cbn [LitI]. eapply in_reach_Cat; [|exact He].
  by apply in_reach_Class.
Qed.

(** A search for the way through a pattern made of keywords. *)
Ltac find_reach :=
  lazymatch goal with
  | |- _ ∈ reach (Group _ _ _) _ _ => apply in_reach_Group; find_reach
  | |- _ ∈ reach (Alt _ _) _ _ =>
      first [ apply in_reach_Alt_l; find_reach
            | apply in_reach_Alt_r; find_reach ]
  | |- _ ∈ reach (Cat _ _) _ _ =>
      eapply in_reach_Cat; [find_reach | find_reach]
  | |- _ ∈ reach Empty _ _ => apply in_reach_Empty
  | |- _ ∈ reach (LitI "") _ _ => apply in_reach_LitI_nil
  | |- _ ∈ reach (LitI (String _ _)) _ _ =>
      apply in_reach_LitI_cons; [vm_compute; reflexivity | find_reach]
  end.

(** Each pattern of the table is a keyword pattern whose inner part leads
    through each of its keywords, spelled in lower case. *)
Lemma keyword_table_reach (P : re) (kws : list string) (kw : string) :
  (P, kws) ∈ keyword_table → kw ∈ kws →
  Strings.all_bytes below_RuneSelf kw = true
  ∧ ∃ inner, P = keyword_pattern inner
      ∧ ∀ (b : bool) (t : list string),
          ∃ b', (b', t) ∈ reach inner b
                  (map Utf8.single (list_ascii_of_string kw) ++ t).
Proof.
  unfold keyword_table. intros Hrow Hkw.
  repeat (apply elem_of_cons in Hrow as [Hrow|Hrow];
          [injection Hrow as -> ->|]); [..|by apply elem_of_nil in Hrow].
  all: repeat (apply elem_of_cons in Hkw as [->|Hkw]);
         [..|by apply elem_of_nil in Hkw].
  all: split; [reflexivity|].
  all: eexists; split; [reflexivity|].
  all: intros b t; eexists;
         cbn [list_ascii_of_string map app]; find_reach.
Qed.

Lemma occurs_here (r : re) (b : bool) (s : list string) :
  reach r b s ≠ [] → occurs r b s.
Proof. destruct s; by left. Qed.

Lemma occurs_later (r : re) (s : list string) :
  (∀ b, reach r b s ≠ []) → ∀ l b, occurs r b (l ++ s).
Proof.
  intros Hs. induction l as [|x l IH]; intros b.
  - by apply occurs_here.
  - cbn [app occurs]. right. apply IH.
Qed.

Lemma reach_after_word (b : bool) (post : string) :
  starts_at_boundary post = true →
  ∃ e, e ∈ reach after_word b (Utf8.runes post).
Proof.
  destruct post as [|d post]; intros Hb.
  - exists (b, []). apply in_reach_Alt_l. by left.
  - destruct (boundary_nonword d Hb) as [Hd Hn].
    rewrite runes_cons_single by done. exists (false, Utf8.runes post).
    apply in_reach_Alt_r. by apply in_reach_Class.
Qed.

Section KeywordReach.
Variables (inner : re) (kw post : string).
Hypothesis kw_ascii : Strings.all_bytes below_RuneSelf kw = true.
Hypothesis inner_kw : ∀ (b : bool) (t : list string),
  ∃ b', (b', t) ∈ reach inner b
          (map Utf8.single (list_ascii_of_string kw) ++ t).
Hypothesis post_boundary : starts_at_boundary post = true.

(** The keyword at the beginning of the text. *)
Lemma keyword_reach_start :
  reach (keyword_pattern inner) true (Utf8.runes (kw +:+ post)) ≠ [].
Proof.
  rewrite runes_ascii_app by done.
  destruct (inner_kw true (Utf8.runes post)) as [b' Hin].
  destruct (reach_after_word b' post post_boundary) as [e He].
  apply not_nil_elem. exists e. unfold keyword_pattern.
  eapply in_reach_Cat; [apply in_reach_Alt_l; by left|].
  eapply in_reach_Cat; [apply in_reach_Group; exact Hin|exact He].
Qed.

(** The keyword after a byte that is no part of a word. *)
Lemma keyword_reach_after (c : ascii) (b : bool) :
  boundary_byte c = true →
  reach (keyword_pattern inner) b (Utf8.runes (String c (kw +:+ post))) ≠ [].
Proof.
  intros Hc. destruct (boundary_nonword c Hc) as [Hlow Hn].
  rewrite runes_cons_single, runes_ascii_app by done.
  destruct (inner_kw false (Utf8.runes post)) as [b' Hin].
  destruct (reach_after_word b' post post_boundary) as [e He].
  apply not_nil_elem. exists e. unfold keyword_pattern.
  eapply in_reach_Cat; [apply in_reach_Alt_r; by apply in_reach_Class|].
  eapply in_reach_Cat; [apply in_reach_Group; exact Hin|exact He].
Qed.

End KeywordReach.

Lemma keyword_table_patterns (P : re) (kws : list string) :
  (P, kws) ∈ keyword_table → P ∈ keyword_patterns.
Proof.
  intros Hrow. change keyword_patterns with (keyword_table.*1).
  apply list_elem_of_fmap. by exists (P, kws).
Qed.

Lemma classify_recognised (P : re) (text : string) :
  P ∈ keyword_patterns → MatchString P text = true →
  classify text ≠ Unrecognized.
Proof.
  intros HP Hm. unfold classify.
  destruct (MatchString REG_EXP_STATUS text) eqn:E1; [done|].
  destruct (MatchString REG_EXP_TODAY text) eqn:E2; [done|].
  destruct (MatchString REG_EXP_TOMORROW text) eqn:E3; [done|].
  destruct (MatchString REG_EXP_ORDER text) eqn:E4; [done|].
  destruct (MatchString REG_EXP_LEGEND text) eqn:E5; [done|].
  destruct (MatchString REG_EXP_HELP text) eqn:E6; [done|].
  destruct (MatchString REG_EXP_THANKS text) eqn:E7; [done|].
  exfalso. unfold keyword_patterns in HP.
  repeat (apply elem_of_cons in HP as [->|HP]; [congruence|]).
  by apply elem_of_nil in HP.
Qed.

(** X21: a keyword of a keyword pattern that stands in the text as a word
    of its own, in whatever case of its letters, is found by the pattern:
    when the text, with the letters A-Z lowered, is the keyword between a
    part that is empty or ends with a byte below [0x80] that is no letter,
    digit or underscore, and a part that is empty or starts with such a
    byte, the pattern matches the text, and the text is not classified as
    unrecognized. *)
Theorem keyword_recognised (P : re) (kws : list string)
    (kw pre post text : string) :
  (P, kws) ∈ keyword_table → kw ∈ kws →
  Strings.map_bytes lower_byte text = pre +:+ kw +:+ post →
  ends_at_boundary pre = true →
  starts_at_boundary post = true →
  MatchString P text = true ∧ classify text ≠ Unrecognized.
Proof.
  intros Hrow Hkw Htext Hpre Hpost.
  pose proof (keyword_table_patterns P kws Hrow) as HP.
  assert (Hm : MatchString P text = true).
  { rewrite <- MatchString_lower
      by (eapply Forall_forall; [apply keyword_patterns_respect|done]).
    rewrite Htext. apply MatchString_occurs.
    destruct (keyword_table_reach P kws kw Hrow Hkw)
      as (Hascii & inner & -> & Hin).
    destruct (ends_at_boundary_inv pre Hpre) as [->|(p & c & -> & Hc)].
    - rewrite string_app_nil_l. apply occurs_here.
      by apply keyword_reach_start.
    - rewrite string_app_assoc, string_app_cons, string_app_nil_l.
      destruct (boundary_nonword c Hc) as [Hlow _].
      rewrite runes_app_ascii by done. apply occurs_later.
      intros b. by apply keyword_reach_after. }
  split; [done|]. by eapply classify_recognised.
Qed.

Lemma keyword_recognised_witness :
  MatchString REG_EXP_HELP "@mensabot, COMMANDS?" = true
  ∧ classify "@mensabot, COMMANDS?" ≠ Unrecognized.
Proof.
  apply (keyword_recognised REG_EXP_HELP ["command"; "commands"; "help"]
           "commands" "@mensabot, " "?" "@mensabot, COMMANDS?").
  - apply (list_elem_of_lookup_2 _ 4). reflexivity.
  - apply (list_elem_of_lookup_2 _ 1). reflexivity.
  - reflexivity.
  - reflexivity.
  - reflexivity.
Defined.
